(** * Recipe API: a shallow embedding of [recipe/views.py] and
      [recipe/serializers.py]

    The application is a thin layer over Django REST framework: the view sets
    of [views.py] override [get_queryset], [get_serializer_class] and
    [perform_create], and the serializers of [serializers.py] only declare
    [Meta.fields].  The embedding keeps that split:

    - the entity store is a record of tables (lists of rows) and sequences;
    - [Model] is the interface every model class offers to the framework;
    - the serializer and the generic view-set mixins are written once, over
      [Model], the way the framework's classes are;
    - [RecipeViewSet], [BaseRecipeAttrViewSet], [TagViewSet] and
      [IngredientViewSet] are class records holding what the source overrides;
    - [handle] is the router and the view dispatch: one request, one
      response, explicit state passing for the store. *)

From stdpp Require Import base option strings gmap list sorting pretty.
From Stdlib Require Import ZArith Lia Ascii.

Local Open Scope Z_scope.
Set Warnings "-register-all".

(** ** Values carried by request payloads and responses *)

(** The data of a request body and of a response.  A [Decimal] with two
    places is kept in hundredths: [Decimal('5.25')] is [VDec 525]; in a
    request body and in a response it travels as its text, ['5.25'].
    [VFile] is an uploaded file part.  [VErrorDetail] is an [ErrorDetail]
    of the framework, which occurs in responses only: the model keeps its
    [code] and leaves the text, a translation of the message registered
    under that code, to the renderer. *)
Inductive value :=
  | VNull
  | VInt (n : Z)
  | VStr (s : string)
  | VDec (hundredths : Z)
  | VList (xs : list value)
  | VObj (kvs : list (string * value))
  | VFile (name : string) (content : string)
  | VErrorDetail (code : string).

(** An ordered dictionary, as [serializer.validated_data] and
    [serializer.data] are. *)
Abbreviation odict := (list (string * value)).

Definition keys (d : odict) : list string := d.*1.

(** [{**d, **kwargs}]: every key of [kwargs] overrides, new keys go last. *)
Fixpoint dict_set (k : string) (v : value) (d : odict) : odict :=
  match d with
  | [] => [(k, v)]
  | (k', v') :: d' =>
      if decide (k' = k) then (k, v) :: d' else (k', v') :: dict_set k v d'
  end.

Definition dict_merge (d kwargs : odict) : odict :=
  foldl (λ acc kv, dict_set kv.1 kv.2 acc) d kwargs.

(** ** HTTP *)

Definition HTTP_200_OK : Z := 200.
Definition HTTP_201_CREATED : Z := 201.
Definition HTTP_204_NO_CONTENT : Z := 204.
Definition HTTP_400_BAD_REQUEST : Z := 400.
Definition HTTP_401_UNAUTHORIZED : Z := 401.
Definition HTTP_404_NOT_FOUND : Z := 404.
Definition HTTP_405_METHOD_NOT_ALLOWED : Z := 405.
Definition HTTP_500_INTERNAL_SERVER_ERROR : Z := 500.

(** The three URL shapes a router generates for a registered prefix:
    [prefix/], [prefix/pk/] and [prefix/pk/url_path/].  The key of a URL is
    an integer the key column can hold: the model does not cover a lookup
    that raises. *)
Inductive path :=
  | Collection (prefix : string)
  | Detail (prefix : string) (pk : Z)
  | Extra (prefix : string) (pk : Z) (url_path : string).

(** The methods of the interface table (section 6 of the specification). *)
Inductive http_method := GET | POST | PUT | PATCH | DELETE.

Global Instance http_method_eq_dec : EqDecision http_method.
Proof. solve_decision. Defined.

(** [auth] is the user the token of the request resolves to, [None] when
    the request carries no credentials (a token that resolves to no user is
    outside the model); [query_params] is the query string; [data] is the
    parsed body.  The [Accept] header and the [format] parameter of the
    query string are read by content negotiation, before a view runs: the
    model is of requests that have neither and leave the rendering to the
    default. *)
Record Request := {
  method : http_method;
  url : path;
  auth : option Z;
  query_params : list (string * string);
  data : gmap string value
}.

(** [body] is [response.data]; it is [VNull] for a response that carries
    no data: a 204, and the pages Django renders itself for a URL that is
    not routed (404) and for an exception no view catches (500). *)
Record Response := {
  status_code : Z;
  body : value
}.

(** ** The entity store *)

(** Modelled from the spec: [core/models.py] is not part of the sources.
    Section 3 of the specification gives the rows: a recipe has an identity,
    an owner, a title, a number of minutes, a price, an optional link, an
    optional description and an optional image; a tag and an ingredient have
    an identity, an owner and a name. *)
Record Recipe := {
  id : Z;
  user : Z;
  title : string;
  time_minutes : Z;
  price : Z;
  link : string;
  description : string;
  image : option string
}.

Record Tag := {
  tag_id : Z;
  tag_user : Z;
  tag_name : string
}.

Record Ingredient := {
  ingredient_id : Z;
  ingredient_user : Z;
  ingredient_name : string
}.

Global Instance Recipe_eq_dec : EqDecision Recipe.
Proof. solve_decision. Defined.
Global Instance Tag_eq_dec : EqDecision Tag.
Proof. solve_decision. Defined.
Global Instance Ingredient_eq_dec : EqDecision Ingredient.
Proof. solve_decision. Defined.

(** The association tables hold [(recipe id, tag id)] and
    [(recipe id, ingredient id)] rows; the sequences give the next primary
    key of each table. *)
Record DB := {
  recipe_table : list Recipe;
  tag_table : list Tag;
  ingredient_table : list Ingredient;
  recipe_tags : list (Z * Z);
  recipe_ingredients : list (Z * Z);
  recipe_id_seq : Z;
  tag_id_seq : Z;
  ingredient_id_seq : Z
}.

Definition set_recipe_table (f : list Recipe → list Recipe) (db : DB) : DB :=
  {| recipe_table := f (recipe_table db);
     tag_table := tag_table db;
     ingredient_table := ingredient_table db;
     recipe_tags := recipe_tags db;
     recipe_ingredients := recipe_ingredients db;
     recipe_id_seq := recipe_id_seq db;
     tag_id_seq := tag_id_seq db;
     ingredient_id_seq := ingredient_id_seq db |}.

Definition set_tag_table (f : list Tag → list Tag) (db : DB) : DB :=
  {| recipe_table := recipe_table db;
     tag_table := f (tag_table db);
     ingredient_table := ingredient_table db;
     recipe_tags := recipe_tags db;
     recipe_ingredients := recipe_ingredients db;
     recipe_id_seq := recipe_id_seq db;
     tag_id_seq := tag_id_seq db;
     ingredient_id_seq := ingredient_id_seq db |}.

Definition set_ingredient_table
    (f : list Ingredient → list Ingredient) (db : DB) : DB :=
  {| recipe_table := recipe_table db;
     tag_table := tag_table db;
     ingredient_table := f (ingredient_table db);
     recipe_tags := recipe_tags db;
     recipe_ingredients := recipe_ingredients db;
     recipe_id_seq := recipe_id_seq db;
     tag_id_seq := tag_id_seq db;
     ingredient_id_seq := ingredient_id_seq db |}.

Definition set_recipe_tags (f : list (Z * Z) → list (Z * Z)) (db : DB) : DB :=
  {| recipe_table := recipe_table db;
     tag_table := tag_table db;
     ingredient_table := ingredient_table db;
     recipe_tags := f (recipe_tags db);
     recipe_ingredients := recipe_ingredients db;
     recipe_id_seq := recipe_id_seq db;
     tag_id_seq := tag_id_seq db;
     ingredient_id_seq := ingredient_id_seq db |}.

Definition set_recipe_ingredients
    (f : list (Z * Z) → list (Z * Z)) (db : DB) : DB :=
  {| recipe_table := recipe_table db;
     tag_table := tag_table db;
     ingredient_table := ingredient_table db;
     recipe_tags := recipe_tags db;
     recipe_ingredients := f (recipe_ingredients db);
     recipe_id_seq := recipe_id_seq db;
     tag_id_seq := tag_id_seq db;
     ingredient_id_seq := ingredient_id_seq db |}.

Definition bump_recipe_id_seq (db : DB) : DB :=
  {| recipe_table := recipe_table db;
     tag_table := tag_table db;
     ingredient_table := ingredient_table db;
     recipe_tags := recipe_tags db;
     recipe_ingredients := recipe_ingredients db;
     recipe_id_seq := recipe_id_seq db + 1;
     tag_id_seq := tag_id_seq db;
     ingredient_id_seq := ingredient_id_seq db |}.

Definition bump_tag_id_seq (db : DB) : DB :=
  {| recipe_table := recipe_table db;
     tag_table := tag_table db;
     ingredient_table := ingredient_table db;
     recipe_tags := recipe_tags db;
     recipe_ingredients := recipe_ingredients db;
     recipe_id_seq := recipe_id_seq db;
     tag_id_seq := tag_id_seq db + 1;
     ingredient_id_seq := ingredient_id_seq db |}.

Definition bump_ingredient_id_seq (db : DB) : DB :=
  {| recipe_table := recipe_table db;
     tag_table := tag_table db;
     ingredient_table := ingredient_table db;
     recipe_tags := recipe_tags db;
     recipe_ingredients := recipe_ingredients db;
     recipe_id_seq := recipe_id_seq db;
     tag_id_seq := tag_id_seq db;
     ingredient_id_seq := ingredient_id_seq db + 1 |}.

(** ** Text, as Python reads it *)

(** A string is the sequence of its characters; a character of the model
    is a code point below 256. *)
Definition ord (c : ascii) : Z := Z.of_N (Ascii.N_of_ascii c).

(** [str.isspace], the white space of [str.strip] and of [\s] in a
    pattern. *)
Definition isspace (c : ascii) : bool :=
  bool_decide (9 ≤ ord c ≤ 13 ∨ 28 ≤ ord c ≤ 32 ∨ ord c = 133 ∨ ord c = 160).

(** The white space [int] skips around a literal: the six characters of
    C's [isspace], and the white space above 127, which the conversion
    turns into a space first. *)
Definition int_isspace (c : ascii) : bool :=
  bool_decide (9 ≤ ord c ≤ 13 ∨ ord c = 32 ∨ ord c = 133 ∨ ord c = 160).

Fixpoint lstrip (f : ascii → bool) (s : string) : string :=
  match s with
  | String c s' => if f c then lstrip f s' else s
  | EmptyString => EmptyString
  end.

Definition rstrip (f : ascii → bool) (s : string) : string :=
  String.rev (lstrip f (String.rev s)).

(** [s.strip()] is [strip isspace s]. *)
Definition strip (f : ascii → bool) (s : string) : string :=
  rstrip f (lstrip f s).

Definition digit (c : ascii) : option Z :=
  if bool_decide (48 ≤ ord c ≤ 57) then Some (ord c - 48) else None.

Definition is_char (x c : ascii) : bool := bool_decide (c = x).

(** The digits of an integer literal: at least one digit, and single
    underscores between digits. *)
Fixpoint int_digits (acc : Z) (after_digit : bool) (s : string) : option Z :=
  match s with
  | EmptyString => if after_digit then Some acc else None
  | String c s' =>
      match digit c with
      | Some d => int_digits (10 * acc + d) true s'
      | None =>
          if is_char "_" c && after_digit then int_digits acc false s'
          else None
      end
  end.

(** [int(s)] for a string: [None] is [ValueError]. *)
Definition python_int (s : string) : option Z :=
  match strip int_isspace s with
  | String c s' =>
      if is_char "+" c then int_digits 0 false s'
      else if is_char "-" c then Z.opp <$> int_digits 0 false s'
      else int_digits 0 false (String c s')
  | EmptyString => None
  end.

(** [IntegerField.re_decimal.sub('', s)]: the pattern is a point, zeros
    and white space up to the end of the string. *)
Definition re_decimal_sub (s : string) : string :=
  match String.rev (rstrip (is_char "0") (rstrip isspace s)) with
  | String c p => if is_char "." c then String.rev p else s
  | EmptyString => s
  end.

(** The leading digits of a string and what follows them. *)
Fixpoint span_digits (s : string) : list Z * string :=
  match s with
  | String c s' =>
      match digit c with
      | Some d => let '(ds, rest) := span_digits s' in (d :: ds, rest)
      | None => ([], s)
      end
  | EmptyString => ([], EmptyString)
  end.

Definition digits_value (ds : list Z) : Z :=
  foldl (λ acc d, 10 * acc + d) 0 ds.

Fixpoint remove_underscores (s : string) : string :=
  match s with
  | String c s' =>
      if is_char "_" c then remove_underscores s'
      else String c (remove_underscores s')
  | EmptyString => EmptyString
  end.

(** The exponent part of a decimal literal: nothing, or [e] or [E], an
    optional sign and at least one digit, up to the end. *)
Definition decimal_exponent (s : string) : option Z :=
  match s with
  | EmptyString => Some 0
  | String c s' =>
      if is_char "e" c || is_char "E" c then
        let '(negative, s'') :=
          match s' with
          | String c' t =>
              if is_char "+" c' then (false, t)
              else if is_char "-" c' then (true, t)
              else (false, s')
          | EmptyString => (false, s')
          end in
        match span_digits s'' with
        | (d :: ds, EmptyString) =>
            let e := digits_value (d :: ds) in
            Some (if negative then - e else e)
        | _ => None
        end
      else None
  end.

(** The number of digits of the coefficient of a [Decimal]: one for
    zero. *)
Definition num_digits (c : Z) : Z :=
  Z.of_nat (String.length (pretty (Z.abs c))).

(** [decimal.Decimal(s)] for a string, as the coefficient (with the sign)
    and the exponent of the result: white space around the literal and
    every underscore are dropped; the literal is an optional sign, digits
    with an optional point and at least one digit, and an optional
    exponent.  [None] is [InvalidOperation], and stands as well for the
    infinities and the NaNs, which [DecimalField] refuses with the same
    error.  A finite literal is refused when its exponent is outside the
    range of the module. *)
Definition python_decimal (s : string) : option (Z * Z) :=
  let s := remove_underscores (strip isspace s) in
  let '(negative, s) :=
    match s with
    | String c t =>
        if is_char "+" c then (false, t)
        else if is_char "-" c then (true, t)
        else (false, s)
    | EmptyString => (false, s)
    end in
  let '(int_part, s) := span_digits s in
  let '(frac_part, s) :=
    match s with
    | String c t => if is_char "." c then span_digits t else ([], s)
    | EmptyString => ([], s)
    end in
  match int_part ++ frac_part with
  | [] => None
  | ds =>
      e ← decimal_exponent s;
      let c := digits_value ds in
      let exp := e - Z.of_nat (length frac_part) in
      if bool_decide (exp + num_digits c - 1 ≤ 999999999999999999
                      ∧ -1999999999999999997 ≤ exp)
      then Some (if negative then - c else c, exp)
      else None
  end.

(** [str(d)] for a [Decimal] with two places. *)
Definition decimal_text (hundredths : Z) : string :=
  (if bool_decide (hundredths < 0) then "-" else "")
  +:+ pretty (Z.abs hundredths / 100) +:+ "."
  +:+ pretty ((Z.abs hundredths / 10) `mod` 10)
  +:+ pretty (Z.abs hundredths `mod` 10).

Definition has_null_character (s : string) : bool :=
  bool_decide (Exists (λ c, ord c = 0) (String.list_ascii_of_string s)).

(** ** Serializer fields built from the model fields *)

(** Modelled from the spec: the field declarations of [core/models.py] are
    not part of the sources.  Section 3 gives the kinds: short text, a
    non-negative integer, a fixed-point decimal, optional text.  A decimal
    field has two places. *)
Inductive field_type :=
  | CharField (max_length : option nat) (allow_blank : bool)
  | IntegerField (min_value : option Z)
  | DecimalField (max_digits : nat).

Record field_decl := {
  required : bool;
  ftype : field_type
}.

Definition within_max_length (n : option nat) (s : string) : bool :=
  match n with
  | Some m => bool_decide (String.length s ≤ m)%nat
  | None => true
  end.

(** [CharField.run_validation] on the text [s] of the data: white space
    around the text is trimmed; a text that is empty then is kept as the
    empty string when the field allows blank and refused when not, before
    any validator runs; the validators see the trimmed text and every one
    that fails is reported. *)
Definition CharField_text (max_length : option nat) (allow_blank : bool)
    (s : string) : value + list string :=
  let value := strip isspace s in
  if decide (value = "") then
    if allow_blank then inl (VStr "") else inr ["blank"]
  else
    match (if within_max_length max_length value then [] else ["max_length"])
          ++ (if has_null_character value
              then ["null_characters_not_allowed"] else []) with
    | [] => inl (VStr value)
    | codes => inr codes
    end.

(** [IntegerField]: the validators of an integer that was read. *)
Definition IntegerField_value (min_value : option Z) (n : Z)
    : value + list string :=
  match min_value with
  | Some m => if decide (m ≤ n) then inl (VInt n) else inr ["min_value"]
  | None => inl (VInt n)
  end.

(** [IntegerField.to_internal_value] on the text [s] of the data:
    [int(self.re_decimal.sub('', s))]. *)
Definition IntegerField_text (min_value : option Z) (s : string)
    : value + list string :=
  match python_int (re_decimal_sub s) with
  | Some n => IntegerField_value min_value n
  | None => inr ["invalid"]
  end.

(** A string of more than 1000 characters is refused unread. *)
Definition IntegerField_str (min_value : option Z) (s : string)
    : value + list string :=
  if decide (1000 < String.length s)%nat then inr ["max_string_length"]
  else IntegerField_text min_value s.

(** [DecimalField.validate_precision] and [quantize], with two decimal
    places, on the coefficient and the exponent of the [Decimal] read. *)
Definition DecimalField_value (max_digits : nat) (c e : Z)
    : value + list string :=
  let len := num_digits c in
  let '(total_digits, whole_digits, decimal_places) :=
    if decide (0 ≤ e) then (len + e, len + e, 0)
    else if decide (- e < len) then (len, len + e, - e)
    else (- e, 0, - e) in
  if decide (Z.of_nat max_digits < total_digits) then inr ["max_digits"]
  else if decide (2 < decimal_places) then inr ["max_decimal_places"]
  else if decide (Z.of_nat max_digits - 2 < whole_digits)
    then inr ["max_whole_digits"]
  else inl (VDec (c * 10 ^ (e + 2))).

(** [DecimalField.to_internal_value] on the text [s] of the data. *)
Definition DecimalField_text (max_digits : nat) (s : string)
    : value + list string :=
  let data := strip isspace s in
  if decide (1000 < String.length data)%nat then inr ["max_string_length"]
  else
    match python_decimal data with
    | Some (c, e) => DecimalField_value max_digits c e
    | None => inr ["invalid"]
    end.

(** [Field.run_validation] for data that is present: the converted value,
    or the codes of the [ValidationError].  None of the fields allows
    null.  A number given to a text field, and a text given to a number
    field, is read through [str(data)]; a decimal is the string of its
    text; a list or an object is neither a text nor a number; the text of
    an uploaded file is its name. *)
Definition to_internal (t : field_type) (v : value) : value + list string :=
  match v with
  | VNull => inr ["null"]
  | VErrorDetail _ | VList _ | VObj _ => inr ["invalid"]
  | VStr s =>
      match t with
      | CharField n blank => CharField_text n blank s
      | IntegerField lo => IntegerField_str lo s
      | DecimalField digits => DecimalField_text digits s
      end
  | VInt n =>
      match t with
      | CharField m blank => CharField_text m blank (pretty n)
      | IntegerField lo => IntegerField_value lo n
      | DecimalField digits => DecimalField_text digits (pretty n)
      end
  | VDec h =>
      match t with
      | CharField n blank => CharField_text n blank (decimal_text h)
      | IntegerField lo => IntegerField_str lo (decimal_text h)
      | DecimalField digits => DecimalField_text digits (decimal_text h)
      end
  | VFile name _ =>
      match t with
      | CharField n blank =>
          if decide (strip isspace name = "") then
            if blank then inl (VStr "") else inr ["blank"]
          else inr ["invalid"]
      | IntegerField lo => IntegerField_text lo name
      | DecimalField digits => DecimalField_text digits name
      end
  end.

(** ** The model interface *)

Definition dict_get (k : string) (d : odict) : option value :=
  snd <$> head (filter (λ kv, kv.1 = k) d).

(** What the framework uses of a model class: the primary key and the
    [user] foreign key of an instance, attribute access by name, the
    serializer field each model field maps to, and the manager
    ([objects.all()], [objects.create], [instance.save()],
    [instance.delete()]) as functions of the store.  [objects_create] is
    [None] when the insert raises: it violates the [NOT NULL] constraint of
    [user], or a value does not fit its column; [save] is [None] when the
    update raises. *)
Class Model (M : Type) := {
  pk : M → Z;
  owner : M → Z;
  getattr : string → M → option value;
  setattr : string → value → M → M;
  model_field : string → option field_decl;
  objects_all : DB → list M;
  objects_create : odict → DB → option (M * DB);
  save : M → DB → option DB;
  delete : M → DB → DB
}.

Definition init_kwargs `{Model M} (kwargs : odict) (m : M) : M :=
  foldl (λ acc kv, setattr kv.1 kv.2 acc) m kwargs.

(** *** Recipe *)

Definition Recipe_getattr (f : string) (r : Recipe) : option value :=
  if decide (f = "id") then Some (VInt (id r))
  else if decide (f = "user") then Some (VInt (user r))
  else if decide (f = "title") then Some (VStr (title r))
  else if decide (f = "time_minutes") then Some (VInt (time_minutes r))
  else if decide (f = "price") then Some (VDec (price r))
  else if decide (f = "link") then Some (VStr (link r))
  else if decide (f = "description") then Some (VStr (description r))
  else if decide (f = "image") then Some (from_option VStr VNull (image r))
  else None.

Definition Recipe_setattr (f : string) (v : value) (r : Recipe) : Recipe :=
  let mk i u t m p l d g :=
    {| id := i; user := u; title := t; time_minutes := m; price := p;
       link := l; description := d; image := g |} in
  match v with
  | VInt n =>
      if decide (f = "id") then
        mk n (user r) (title r) (time_minutes r) (price r) (link r)
           (description r) (image r)
      else if decide (f = "user") then
        mk (id r) n (title r) (time_minutes r) (price r) (link r)
           (description r) (image r)
      else if decide (f = "time_minutes") then
        mk (id r) (user r) (title r) n (price r) (link r)
           (description r) (image r)
      else r
  | VStr s =>
      if decide (f = "title") then
        mk (id r) (user r) s (time_minutes r) (price r) (link r)
           (description r) (image r)
      else if decide (f = "link") then
        mk (id r) (user r) (title r) (time_minutes r) (price r) s
           (description r) (image r)
      else if decide (f = "description") then
        mk (id r) (user r) (title r) (time_minutes r) (price r) (link r)
           s (image r)
      else if decide (f = "image") then
        mk (id r) (user r) (title r) (time_minutes r) (price r) (link r)
           (description r) (Some s)
      else r
  | VDec h =>
      if decide (f = "price") then
        mk (id r) (user r) (title r) (time_minutes r) h (link r)
           (description r) (image r)
      else r
  | VNull =>
      if decide (f = "image") then
        mk (id r) (user r) (title r) (time_minutes r) (price r) (link r)
           (description r) None
      else r
  | _ => r
  end.

(** Modelled from the spec: the field declarations of [core/models.py] are
    not part of the sources.  Section 3: the title is a short text, taken
    here as at most 255 characters; the minutes are a non-negative integer,
    which is a constraint of the column: the serializer field built for it
    has no bound of its own; the price is a fixed-point decimal, taken as
    five digits with two places; link and description are optional.  The
    serializers never declare the owner, so no serializer field is built
    for it. *)
Definition Recipe_model_field (f : string) : option field_decl :=
  if decide (f = "id") then
    Some {| required := false; ftype := IntegerField None |}
  else if decide (f = "title") then
    Some {| required := true; ftype := CharField (Some 255%nat) false |}
  else if decide (f = "time_minutes") then
    Some {| required := true; ftype := IntegerField None |}
  else if decide (f = "price") then
    Some {| required := true; ftype := DecimalField 5 |}
  else if decide (f = "link") then
    Some {| required := false; ftype := CharField (Some 255%nat) true |}
  else if decide (f = "description") then
    Some {| required := false; ftype := CharField None true |}
  else None.

(** Modelled from the spec: the entity store is a relational database
    (section 2), which is not part of the sources.  The column of a
    non-negative integer is taken as one that holds 0 to 2^63 - 1; writing
    a value outside it raises and no row is written, and an exception no
    view catches is answered 500 (section 7). *)
Definition fits_positive_integer_column (n : Z) : bool :=
  bool_decide (0 ≤ n < 2 ^ 63).

Definition Recipe_objects_create (kwargs : odict) (db : DB)
    : option (Recipe * DB) :=
  match dict_get "user" kwargs with
  | Some (VInt u) =>
      let blank :=
        {| id := recipe_id_seq db; user := u; title := ""; time_minutes := 0;
           price := 0; link := ""; description := ""; image := None |} in
      let r := foldl (λ acc kv, Recipe_setattr kv.1 kv.2 acc) blank kwargs in
      if fits_positive_integer_column (time_minutes r)
      then Some (r, bump_recipe_id_seq (set_recipe_table (λ t, t ++ [r]) db))
      else None
  | _ => None
  end.

(** The update of the row that has the key of [r]. *)
Definition Recipe_replace (r : Recipe) : DB → DB :=
  set_recipe_table (fmap (λ x, if decide (id x = id r) then r else x)).

Definition Recipe_save (r : Recipe) (db : DB) : option DB :=
  if fits_positive_integer_column (time_minutes r) then Some (Recipe_replace r db)
  else None.

(** Deleting a recipe removes its rows of both association tables; the
    tags and ingredients themselves stay. *)
Definition Recipe_delete (r : Recipe) (db : DB) : DB :=
  set_recipe_ingredients (filter (λ a, a.1 ≠ id r))
    (set_recipe_tags (filter (λ a, a.1 ≠ id r))
       (set_recipe_table (filter (λ x, id x ≠ id r)) db)).

Global Instance Recipe_Model : Model Recipe := {|
  pk := id;
  owner := user;
  getattr := Recipe_getattr;
  setattr := Recipe_setattr;
  model_field := Recipe_model_field;
  objects_all := recipe_table;
  objects_create := Recipe_objects_create;
  save := Recipe_save;
  delete := Recipe_delete
|}.

(** *** Tag *)

Definition Tag_getattr (f : string) (t : Tag) : option value :=
  if decide (f = "id") then Some (VInt (tag_id t))
  else if decide (f = "user") then Some (VInt (tag_user t))
  else if decide (f = "name") then Some (VStr (tag_name t))
  else None.

Definition Tag_setattr (f : string) (v : value) (t : Tag) : Tag :=
  match v with
  | VInt n =>
      if decide (f = "id") then
        {| tag_id := n; tag_user := tag_user t; tag_name := tag_name t |}
      else if decide (f = "user") then
        {| tag_id := tag_id t; tag_user := n; tag_name := tag_name t |}
      else t
  | VStr s =>
      if decide (f = "name") then
        {| tag_id := tag_id t; tag_user := tag_user t; tag_name := s |}
      else t
  | _ => t
  end.

(** Modelled from the spec: a tag and an ingredient have a required name,
    a short text taken as at most 255 characters. *)
Definition attr_model_field (f : string) : option field_decl :=
  if decide (f = "id") then
    Some {| required := false; ftype := IntegerField None |}
  else if decide (f = "name") then
    Some {| required := true; ftype := CharField (Some 255%nat) false |}
  else None.

Definition Tag_objects_create (kwargs : odict) (db : DB) : option (Tag * DB) :=
  match dict_get "user" kwargs with
  | Some (VInt u) =>
      let blank := {| tag_id := tag_id_seq db; tag_user := u; tag_name := "" |} in
      let t := foldl (λ acc kv, Tag_setattr kv.1 kv.2 acc) blank kwargs in
      Some (t, bump_tag_id_seq (set_tag_table (λ l, l ++ [t]) db))
  | _ => None
  end.

Definition Tag_replace (t : Tag) : DB → DB :=
  set_tag_table (fmap (λ x, if decide (tag_id x = tag_id t) then t else x)).

Definition Tag_save (t : Tag) (db : DB) : option DB := Some (Tag_replace t db).

Definition Tag_delete (t : Tag) (db : DB) : DB :=
  set_recipe_tags (filter (λ a, a.2 ≠ tag_id t))
    (set_tag_table (filter (λ x, tag_id x ≠ tag_id t)) db).

Global Instance Tag_Model : Model Tag := {|
  pk := tag_id;
  owner := tag_user;
  getattr := Tag_getattr;
  setattr := Tag_setattr;
  model_field := attr_model_field;
  objects_all := tag_table;
  objects_create := Tag_objects_create;
  save := Tag_save;
  delete := Tag_delete
|}.

(** *** Ingredient *)

Definition Ingredient_getattr (f : string) (i : Ingredient) : option value :=
  if decide (f = "id") then Some (VInt (ingredient_id i))
  else if decide (f = "user") then Some (VInt (ingredient_user i))
  else if decide (f = "name") then Some (VStr (ingredient_name i))
  else None.

Definition Ingredient_setattr (f : string) (v : value) (i : Ingredient)
    : Ingredient :=
  match v with
  | VInt n =>
      if decide (f = "id") then
        {| ingredient_id := n; ingredient_user := ingredient_user i;
           ingredient_name := ingredient_name i |}
      else if decide (f = "user") then
        {| ingredient_id := ingredient_id i; ingredient_user := n;
           ingredient_name := ingredient_name i |}
      else i
  | VStr s =>
      if decide (f = "name") then
        {| ingredient_id := ingredient_id i;
           ingredient_user := ingredient_user i; ingredient_name := s |}
      else i
  | _ => i
  end.

Definition Ingredient_objects_create (kwargs : odict) (db : DB)
    : option (Ingredient * DB) :=
  match dict_get "user" kwargs with
  | Some (VInt u) =>
      let blank :=
        {| ingredient_id := ingredient_id_seq db; ingredient_user := u;
           ingredient_name := "" |} in
      let i := foldl (λ acc kv, Ingredient_setattr kv.1 kv.2 acc) blank kwargs in
      Some (i, bump_ingredient_id_seq (set_ingredient_table (λ l, l ++ [i]) db))
  | _ => None
  end.

Definition Ingredient_replace (i : Ingredient) : DB → DB :=
  set_ingredient_table
    (fmap (λ x, if decide (ingredient_id x = ingredient_id i) then i else x)).

Definition Ingredient_save (i : Ingredient) (db : DB) : option DB :=
  Some (Ingredient_replace i db).

Definition Ingredient_delete (i : Ingredient) (db : DB) : DB :=
  set_recipe_ingredients (filter (λ a, a.2 ≠ ingredient_id i))
    (set_ingredient_table (filter (λ x, ingredient_id x ≠ ingredient_id i)) db).

Global Instance Ingredient_Model : Model Ingredient := {|
  pk := ingredient_id;
  owner := ingredient_user;
  getattr := Ingredient_getattr;
  setattr := Ingredient_setattr;
  model_field := attr_model_field;
  objects_all := ingredient_table;
  objects_create := Ingredient_objects_create;
  save := Ingredient_save;
  delete := Ingredient_delete
|}.

(** ** Serializers ([recipe/serializers.py]) *)

(** A [ModelSerializer] class is its [Meta]: the model is the type the
    serializer is used at. *)
Record Serializer := {
  fields : list string;
  read_only_fields : list string
}.

Definition RecipeSerializer : Serializer := {|
  fields := ["id"; "title"; "time_minutes"; "price"; "link"];
  read_only_fields := ["id"]
|}.

(** [Meta(RecipeSerializer.Meta)] inherits [read_only_fields]. *)
Definition RecipeDetailSerializer : Serializer := {|
  fields := fields RecipeSerializer ++ ["description"];
  read_only_fields := read_only_fields RecipeSerializer
|}.

(** Modelled from the spec: [views.py] imports [TagSerializer] and
    [IngredientSerializer] from [recipe/serializers.py], which does not
    define them.  Section 3 gives a tag and an ingredient an identity and a
    name; section 4.3 has update as a rename. *)
Definition TagSerializer : Serializer := {|
  fields := ["id"; "name"];
  read_only_fields := ["id"]
|}.

Definition IngredientSerializer : Serializer := {|
  fields := ["id"; "name"];
  read_only_fields := ["id"]
|}.

Section serializer.
Context {M : Type} `{!Model M}.

Definition writable_fields (s : Serializer) : list string :=
  filter (λ f, f ∉ read_only_fields s) (fields s).

(** [Serializer.to_representation]: one entry per declared field, in
    order. *)
Definition to_representation (s : Serializer) (m : M) : odict :=
  omap (λ f, pair f <$> getattr f m) (fields s).

(** [Serializer.to_internal_value] over the writable fields: keys of the
    payload that are not writable fields are never looked at.  A missing
    field is skipped on a partial update and when it is not required.
    The result is the errors, the codes of each failing field, and the
    validated data, both in the order of the fields. *)
Fixpoint run_fields (partial : bool) (payload : gmap string value)
    (fs : list string) : list (string * list string) * odict :=
  match fs with
  | [] => ([], [])
  | f :: fs' =>
      let '(errs, vd) := run_fields partial payload fs' in
      match model_field f with
      | None => (errs, vd)
      | Some d =>
          match payload !! f with
          | None =>
              if partial then (errs, vd)
              else if required d then ((f, ["required"]) :: errs, vd)
              else (errs, vd)
          | Some v =>
              match to_internal (ftype d) v with
              | inl v' => (errs, (f, v') :: vd)
              | inr codes => ((f, codes) :: errs, vd)
              end
          end
      end
  end.

(** [serializer.is_valid()]: [inl validated_data] or [inr errors]. *)
Definition is_valid (s : Serializer) (partial : bool)
    (payload : gmap string value) : odict + list (string * list string) :=
  let '(errs, vd) := run_fields partial payload (writable_fields s) in
  match errs with
  | [] => inl vd
  | _ => inr errs
  end.

(** [serializer.save] with keyword arguments and no instance:
    [ModelSerializer.create] on the merged dictionary. *)
Definition save_new (validated kwargs : odict) (db : DB) : option (M * DB) :=
  objects_create (dict_merge validated kwargs) db.

(** [serializer.save()] with an instance: [ModelSerializer.update] sets
    every validated attribute and saves the row. *)
Definition save_instance (instance : M) (validated : odict) (db : DB)
    : option (M * DB) :=
  let m := init_kwargs validated instance in
  pair m <$> save m db.

(** [serializer.errors]: the list of [ErrorDetail] of each failing
    field. *)
Definition errors_body (errs : list (string * list string)) : value :=
  VObj ((λ e, (e.1, VList (VErrorDetail <$> e.2))) <$> errs).
End serializer.

(** The data of the response the exception handler makes of an
    [APIException]. *)
Definition detail_body (code : string) : value :=
  VObj [("detail", VErrorDetail code)].

Definition NotAuthenticated : value := detail_body "not_authenticated".
Definition NotFound : value := detail_body "not_found".
Definition MethodNotAllowed : value := detail_body "method_not_allowed".

(** ** Views ([recipe/views.py]) *)

Inductive permission := IsAuthenticated | AllowAny.

Definition has_permission (p : permission) (req : Request) : bool :=
  match p with
  | IsAuthenticated => bool_decide (is_Some (auth req))
  | AllowAny => true
  end.

(** The view-set instance the framework creates for one request.
    [serializer_class] starts as the class attribute. *)
Record View := {
  request : Request;
  action : option string;
  kwargs_pk : option Z;
  serializer_class : Serializer
}.

Definition ok (status : Z) (b : value) (db : DB) : Response * DB :=
  ({| status_code := status; body := b |}, db).

(** An [@action]-decorated method of a view set. *)
Record ExtraAction := {
  ea_name : string;
  ea_methods : list http_method;
  ea_url_path : string;
  ea_handler : View → DB → Response * DB
}.

(** A view-set class: its attributes, the methods the source overrides,
    the action methods it inherits from its mixins and its extra actions. *)
Record ViewSetClass (M : Type) := {
  cls_serializer_class : Serializer;
  cls_permission_classes : list permission;
  cls_get_queryset : View → DB → list M;
  cls_get_serializer_class : View → View * Serializer;
  cls_perform_create : View → odict → DB → option (M * DB);
  cls_action_methods : list string;
  cls_extra_actions : list ExtraAction
}.
Arguments cls_serializer_class {M}.
Arguments cls_permission_classes {M}.
Arguments cls_get_queryset {M}.
Arguments cls_get_serializer_class {M}.
Arguments cls_perform_create {M}.
Arguments cls_action_methods {M}.
Arguments cls_extra_actions {M}.

(** [order_by('-key')] *)
Definition order_by_desc {A K : Type} (R : relation K) `{!RelDecision R}
    (key : A → K) : list A → list A :=
  @merge_sort A (λ a b, R (key b) (key a))
    (λ a b, decide_rel R (key b) (key a)).

(** What [GenericAPIView] and [CreateModelMixin] do when a class does not
    override them. *)
Definition GenericAPIView_get_serializer_class (self : View)
    : View * Serializer :=
  (self, serializer_class self).

Definition CreateModelMixin_perform_create {M : Type} `{!Model M}
    (self : View) (validated : odict) (db : DB) : option (M * DB) :=
  save_new validated [] db.

Definition ModelViewSet_methods : list string :=
  ["create"; "retrieve"; "update"; "partial_update"; "destroy"; "list"].

Module RecipeViewSet.

(** [self.queryset.filter(user=self.request.user).order_by('-id')] *)
Definition get_queryset (self : View) (db : DB) : list Recipe :=
  order_by_desc Z.le id
    (filter (λ r, Some (user r) = auth (request self)) (objects_all db)).

(** The assignment writes the instance attribute. *)
Definition get_serializer_class (self : View) : View * Serializer :=
  let self :=
    if decide (action self = Some "list") then
      {| request := request self; action := action self;
         kwargs_pk := kwargs_pk self; serializer_class := RecipeSerializer |}
    else self in
  (self, serializer_class self).

(** [serializer.save(user=self.request.user)] *)
Definition perform_create (self : View) (validated : odict) (db : DB)
    : option (Recipe * DB) :=
  match auth (request self) with
  | Some u => save_new validated [("user", VInt u)] db
  | None => None
  end.

Definition cls : ViewSetClass Recipe := {|
  cls_serializer_class := RecipeDetailSerializer;
  cls_permission_classes := [IsAuthenticated];
  cls_get_queryset := get_queryset;
  cls_get_serializer_class := get_serializer_class;
  cls_perform_create := perform_create;
  cls_action_methods := ModelViewSet_methods;
  cls_extra_actions := []
|}.

End RecipeViewSet.

Module BaseRecipeAttrViewSet.

(** [mixins.UpdateModelMixin], [mixins.ListModelMixin] and
    [mixins.DestroyModelMixin]. *)
Definition action_methods : list string :=
  ["update"; "partial_update"; "list"; "destroy"].

(** [self.queryset.filter(user=self.request.user).order_by('-name')] *)
Definition get_queryset {M : Type} `{!Model M} (name : M → string)
    (self : View) (db : DB) : list M :=
  order_by_desc String.le name
    (filter (λ m, Some (owner m) = auth (request self)) (objects_all db)).

Definition cls {M : Type} `{!Model M} (name : M → string)
    (serializer : Serializer) : ViewSetClass M := {|
  cls_serializer_class := serializer;
  cls_permission_classes := [IsAuthenticated];
  cls_get_queryset := get_queryset name;
  cls_get_serializer_class := GenericAPIView_get_serializer_class;
  cls_perform_create := CreateModelMixin_perform_create;
  cls_action_methods := action_methods;
  cls_extra_actions := []
|}.

End BaseRecipeAttrViewSet.

Definition TagViewSet : ViewSetClass Tag :=
  BaseRecipeAttrViewSet.cls tag_name TagSerializer.

Definition IngredientViewSet : ViewSetClass Ingredient :=
  BaseRecipeAttrViewSet.cls ingredient_name IngredientSerializer.

(** ** The generic mixins and the dispatch of the framework *)

Section mixins.
Context {M : Type} `{!Model M} (cls : ViewSetClass M).

(** [GenericAPIView.get_object]: the row of [get_queryset()] with the
    primary key of the URL; [None] is [Http404], which the exception
    handler answers as [NotFound]. *)
Definition get_object (self : View) (db : DB) : option M :=
  k ← kwargs_pk self;
  head (filter (λ m, pk m = k) (cls_get_queryset cls self db)).

Definition ListModelMixin_list (self : View) (db : DB) : Response * DB :=
  let queryset := cls_get_queryset cls self db in
  let '(self, serializer) := cls_get_serializer_class cls self in
  ok HTTP_200_OK
    (VList ((λ m, VObj (to_representation serializer m)) <$> queryset)) db.

Definition RetrieveModelMixin_retrieve (self : View) (db : DB)
    : Response * DB :=
  match get_object self db with
  | None => ok HTTP_404_NOT_FOUND NotFound db
  | Some instance =>
      let '(self, serializer) := cls_get_serializer_class cls self in
      ok HTTP_200_OK (VObj (to_representation serializer instance)) db
  end.

Definition CreateModelMixin_create (self : View) (db : DB)
    : Response * DB :=
  let '(self, serializer) := cls_get_serializer_class cls self in
  match is_valid serializer false (data (request self)) with
  | inr errs => ok HTTP_400_BAD_REQUEST (errors_body errs) db
  | inl validated =>
      match cls_perform_create cls self validated db with
      | Some (instance, db') =>
          ok HTTP_201_CREATED
            (VObj (to_representation serializer instance)) db'
      | None => ok HTTP_500_INTERNAL_SERVER_ERROR VNull db
      end
  end.

(** [update] and, with [partial = true], [partial_update]. *)
Definition UpdateModelMixin_update (partial : bool) (self : View) (db : DB)
    : Response * DB :=
  match get_object self db with
  | None => ok HTTP_404_NOT_FOUND NotFound db
  | Some instance =>
      let '(self, serializer) := cls_get_serializer_class cls self in
      match is_valid serializer partial (data (request self)) with
      | inr errs => ok HTTP_400_BAD_REQUEST (errors_body errs) db
      | inl validated =>
          match save_instance instance validated db with
          | Some (instance, db') =>
              ok HTTP_200_OK
                (VObj (to_representation serializer instance)) db'
          | None => ok HTTP_500_INTERNAL_SERVER_ERROR VNull db
          end
      end
  end.

Definition DestroyModelMixin_destroy (self : View) (db : DB)
    : Response * DB :=
  match get_object self db with
  | None => ok HTTP_404_NOT_FOUND NotFound db
  | Some instance => ok HTTP_204_NO_CONTENT VNull (delete instance db)
  end.

(** The action methods the class inherits from its mixins. *)
Definition mixin_method (name : string)
    : option (View → DB → Response * DB) :=
  if decide (name = "list") then Some ListModelMixin_list
  else if decide (name = "create") then Some CreateModelMixin_create
  else if decide (name = "retrieve") then Some RetrieveModelMixin_retrieve
  else if decide (name = "update") then Some (UpdateModelMixin_update false)
  else if decide (name = "partial_update")
    then Some (UpdateModelMixin_update true)
  else if decide (name = "destroy") then Some DestroyModelMixin_destroy
  else None.

(** [getattr(viewset, name)] for an action name. *)
Definition handler (name : string) : option (View → DB → Response * DB) :=
  if decide (name ∈ cls_action_methods cls) then mixin_method name
  else
    ea_handler <$>
      head (filter (λ ea, ea_name ea = name) (cls_extra_actions cls)).

(** The routes of [SimpleRouter]: the method map of the list route and of
    the detail route, and one route per extra action. *)
Definition action_map (p : path) : list (http_method * string) :=
  match p with
  | Collection _ => [(GET, "list"); (POST, "create")]
  | Detail _ _ =>
      [(GET, "retrieve"); (PUT, "update"); (PATCH, "partial_update");
       (DELETE, "destroy")]
  | Extra _ _ url_path =>
      ea ← filter (λ ea, ea_url_path ea = url_path) (cls_extra_actions cls);
      (λ m, (m, ea_name ea)) <$> ea_methods ea
  end.

(** [get_method_map]: only the actions the class has are bound. *)
Definition bound_methods (p : path) : list (http_method * string) :=
  filter (λ ma, is_Some (handler ma.2)) (action_map p).

Definition path_pk (p : path) : option Z :=
  match p with
  | Collection _ => None
  | Detail _ k | Extra _ k _ => Some k
  end.

(** The instance [as_view] creates for a request. *)
Definition as_view (req : Request) : View :=
  {| request := req;
     action :=
       snd <$> head (filter (λ ma, ma.1 = method req)
                       (bound_methods (url req)));
     kwargs_pk := path_pk (url req);
     serializer_class := cls_serializer_class cls |}.

(** [APIView.dispatch]: a URL with no bound method is not routed, and
    Django answers 404 itself; [initial] checks the permissions (401)
    before the handler is looked up; a method the route does not bind
    is 405.  Content negotiation, the first step of [initial], is not
    part of the model (see [Request]). *)
Definition dispatch (req : Request) (db : DB) : Response * DB :=
  match bound_methods (url req) with
  | [] => ok HTTP_404_NOT_FOUND VNull db
  | _ =>
      let self := as_view req in
      if forallb (λ p, has_permission p req) (cls_permission_classes cls)
      then
        match action self ≫= handler with
        | Some h => h self db
        | None => ok HTTP_405_METHOD_NOT_ALLOWED MethodNotAllowed db
        end
      else ok HTTP_401_UNAUTHORIZED NotAuthenticated db
  end.
End mixins.

Definition path_prefix (p : path) : string :=
  match p with
  | Collection s | Detail s _ | Extra s _ _ => s
  end.

(** Modelled from the spec: [recipe/urls.py] is not part of the sources.
    Section 6 registers the three view sets under [recipes], [tags] and
    [ingredients]. *)
Definition handle (req : Request) (db : DB) : Response * DB :=
  let prefix := path_prefix (url req) in
  if decide (prefix = "recipes") then dispatch RecipeViewSet.cls req db
  else if decide (prefix = "tags") then dispatch TagViewSet req db
  else if decide (prefix = "ingredients") then dispatch IngredientViewSet req db
  else ok HTTP_404_NOT_FOUND VNull db.

(** ** Requests and store invariants used in the statements *)
Definition http (m : http_method) (p : path) (a : option Z)
    (q : list (string * string)) (d : gmap string value) : Request :=
  {| method := m; url := p; auth := a; query_params := q; data := d |}.

Definition with_data (f : gmap string value → gmap string value)
    (req : Request) : Request :=
  http (method req) (url req) (auth req) (query_params req) (f (data req)).

(** The primary keys of a table are unique and were issued by its
    sequence. *)
Definition pk_unique {M : Type} `{!Model M} (db : DB) : Prop :=
  NoDup (pk <$> objects_all (M:=M) db).

(** The payload keys some serializer of the application can write. *)
Definition payload_fields : list string :=
  ["title"; "time_minutes"; "price"; "link"; "description"; "name"].

(** Two requests the views cannot tell apart: they differ at most in
    what [query_params] holds and in payload keys no serializer writes. *)
Definition same_call (r1 r2 : Request) : Prop :=
  method r1 = method r2 ∧ url r1 = url r2 ∧ auth r1 = auth r2
  ∧ ∀ f, f ∈ payload_fields → data r1 !! f = data r2 !! f.

Definition view_of (req : Request) (a : option string) (k : option Z)
    (s : Serializer) : View :=
  {| request := req; action := a; kwargs_pk := k; serializer_class := s |}.

Definition detail_view (req : Request) (name : string) (k : Z)
    (s : Serializer) : View :=
  view_of req (Some name) (Some k) s.


(** The invariant of the store: primary keys are unique, and every recipe
    key was issued by the sequence. *)
Record db_ok (db : DB) : Prop := {
  recipe_pk_unique : pk_unique (M:=Recipe) db;
  recipe_pk_issued : Forall (λ r, id r < recipe_id_seq db) (recipe_table db);
  tag_pk_unique : pk_unique (M:=Tag) db;
  ingredient_pk_unique : pk_unique (M:=Ingredient) db
}.

(** Ownership scoping: the query set of a view holds exactly the rows of
    the table whose [user] is the caller. *)
Definition scoped {M : Type} `{!Model M} (cls : ViewSetClass M) : Prop :=
  ∀ self db x,
    x ∈ cls_get_queryset cls self db
    ↔ x ∈ objects_all db ∧ Some (owner x) = auth (request self).

(** What the detail URL of an attribute answers to each method: [update],
    [partial_update] and [destroy] are bound, [retrieve] is not.  A rename
    stores the name trimmed, and is refused when nothing is left of it,
    when it is longer than 255 characters or holds a null character.
    [links] is the association table of the attribute and [rest] the
    other tables and the sequences. *)
Definition attr_detail_contract {M R : Type} `{!Model M} (prefix : string)
    (rename : string → M → M) (links : DB → list (Z * Z)) (rest : DB → R)
    (db : DB) (x : M) : Prop :=
  ∀ q,
  let at_ m a d := handle (http m (Detail prefix (pk x)) a q d) db in
  (∀ n d m, m ∈ [PUT; PATCH] →
     let out := at_ m (Some (owner x)) (<["name" := VStr n]> d) in
     let name := strip isspace n in
     (name ≠ "" → (String.length name ≤ 255)%nat →
      has_null_character name = false →
        out.1 = {| status_code := HTTP_200_OK;
                   body := VObj [("id", VInt (pk x)); ("name", VStr name)] |}
        ∧ objects_all out.2
          = (λ y, if decide (pk y = pk x) then rename name x else y)
              <$> objects_all db
        ∧ links out.2 = links db
        ∧ rest out.2 = rest db)
     ∧ (name = "" →
          out = ({| status_code := HTTP_400_BAD_REQUEST;
                    body := VObj [("name", VList [VErrorDetail "blank"])] |},
                 db))
     ∧ ((255 < String.length name)%nat ∨ has_null_character name = true →
          status_code out.1 = HTTP_400_BAD_REQUEST ∧ out.2 = db))
  ∧ (∀ d,
       let out := at_ DELETE (Some (owner x)) d in
       out.1 = {| status_code := HTTP_204_NO_CONTENT; body := VNull |}
       ∧ objects_all out.2 = filter (λ y, pk y ≠ pk x) (objects_all db)
       ∧ links out.2 = filter (λ a, a.2 ≠ pk x) (links db)
       ∧ rest out.2 = rest db)
  ∧ (∀ d, at_ GET (Some (owner x)) d
          = ({| status_code := HTTP_405_METHOD_NOT_ALLOWED;
                body := MethodNotAllowed |}, db))
  ∧ (∀ b m d, b ≠ owner x → m ∈ [PUT; PATCH; DELETE] →
       at_ m (Some b) d
       = ({| status_code := HTTP_404_NOT_FOUND; body := NotFound |}, db))
  ∧ (∀ m d, at_ m None d
            = ({| status_code := HTTP_401_UNAUTHORIZED;
                  body := NotAuthenticated |}, db)).

(** What a request on a tag leaves alone, and what a request on an
    ingredient does. *)
Definition tag_rest (db : DB) :=
  (recipe_table db, ingredient_table db, recipe_ingredients db,
   recipe_id_seq db, tag_id_seq db, ingredient_id_seq db).

Definition ingredient_rest (db : DB) :=
  (recipe_table db, tag_table db, recipe_tags db,
   recipe_id_seq db, tag_id_seq db, ingredient_id_seq db).

Definition rename_tag (n : string) (t : Tag) : Tag :=
  {| tag_id := tag_id t; tag_user := tag_user t; tag_name := n |}.

Definition rename_ingredient (n : string) (i : Ingredient) : Ingredient :=
  {| ingredient_id := ingredient_id i; ingredient_user := ingredient_user i;
     ingredient_name := n |}.

(** The store before any request, and the store after a sequence of
    requests. *)
Definition empty_db : DB :=
  {| recipe_table := []; tag_table := []; ingredient_table := [];
     recipe_tags := []; recipe_ingredients := [];
     recipe_id_seq := 1; tag_id_seq := 1; ingredient_id_seq := 1 |}.

Fixpoint run (reqs : list Request) (db : DB) : DB :=
  match reqs with
  | [] => db
  | req :: rest => run rest (handle req db).2
  end.

(** The creates of a run that were answered 201: the key the sequence
    issued and the caller. *)
Fixpoint creates (reqs : list Request) (db : DB) : list (Z * Z) :=
  match reqs with
  | [] => []
  | req :: rest =>
      let out := handle req db in
      match auth req with
      | Some u =>
          if decide (status_code out.1 = HTTP_201_CREATED)
          then (recipe_id_seq db, u) :: creates rest out.2
          else creates rest out.2
      | None => creates rest out.2
      end
  end.

(** The claim of the specification that a single tag or ingredient can be
    retrieved: a GET of the detail URL by the owner answers 200 with the
    entity. *)
Definition supports_retrieve {M : Type} `{!Model M} (prefix : string)
    (s : Serializer) (db : DB) (x : M) : Prop :=
  ∀ q d,
    handle (http GET (Detail prefix (pk x)) (Some (owner x)) q d) db
    = ({| status_code := HTTP_200_OK;
          body := VObj (to_representation s x) |}, db).

(** ** The fixtures of [recipe/tests/test_recipe_api.py] *)

Module Scenario.

(** [self.user] and the second user the tests create. *)
Definition api_user : Z := 1.
Definition test_user : Z := 2.

(** The helper [create_recipe] with its defaults. *)
Definition create_recipe (i u : Z) (t : string) : Recipe :=
  {| id := i; user := u; title := t; time_minutes := 22; price := 525;
     link := "http://example.com/recipe.pdf";
     description := "Sample Description"; image := None |}.

(** [test_filter_recipe_by_tags] and [test_filter_recipe_by_ingredients]:
    three recipes, the first two with one tag and one ingredient each. *)
Definition r1 : Recipe := create_recipe 1 api_user "7 Cheese Pizza".
Definition r2 : Recipe := create_recipe 2 api_user "Manchurian Dry".
Definition r3 : Recipe := create_recipe 3 api_user "Veg Fried Rice".

Definition filter_db : DB :=
  {| recipe_table := [r1; r2; r3];
     tag_table :=
       [{| tag_id := 1; tag_user := api_user; tag_name := "Italian" |};
        {| tag_id := 2; tag_user := api_user; tag_name := "Chinese" |}];
     ingredient_table :=
       [{| ingredient_id := 1; ingredient_user := api_user;
           ingredient_name := "Cheese" |};
        {| ingredient_id := 2; ingredient_user := api_user;
           ingredient_name := "Manchurian" |}];
     recipe_tags := [(1, 1); (2, 2)];
     recipe_ingredients := [(1, 1); (2, 2)];
     recipe_id_seq := 4; tag_id_seq := 3; ingredient_id_seq := 3 |}.

(** [test_create_recipe_with_existing_tags] and
    [test_create_recipe_with_existing_ingredients]. *)
Definition tag_indian : Tag :=
  {| tag_id := 1; tag_user := api_user; tag_name := "Indian" |}.

Definition ingredient_indian : Ingredient :=
  {| ingredient_id := 1; ingredient_user := api_user;
     ingredient_name := "Indian Chat Masala" |}.

Definition existing_db : DB :=
  {| recipe_table := []; tag_table := [tag_indian];
     ingredient_table := [ingredient_indian];
     recipe_tags := []; recipe_ingredients := [];
     recipe_id_seq := 1; tag_id_seq := 2; ingredient_id_seq := 2 |}.

Definition names (l : list string) : value :=
  VList ((λ n, VObj [("name", VStr n)]) <$> l).

Definition existing_payload : gmap string value :=
  list_to_map
    [("title", VStr "Peri Peri Paneer Indian Masala Sandwich");
     ("time_minutes", VInt 22); ("price", VDec 725);
     ("tags", names ["Indian"; "Lunch"]);
     ("ingredients", names ["Indian Chat Masala"; "Paneer"])].

(** [test_clear_recipe_tags] and [test_clear_recipe_ingredients]. *)
Definition recipe : Recipe := create_recipe 1 api_user "Sample recipe title".

Definition tagged_db : DB :=
  {| recipe_table := [recipe];
     tag_table :=
       [{| tag_id := 1; tag_user := api_user;
           tag_name := "Coffee Category" |}];
     ingredient_table :=
       [{| ingredient_id := 1; ingredient_user := api_user;
           ingredient_name := "Coffee Beans" |}];
     recipe_tags := [(1, 1)]; recipe_ingredients := [(1, 1)];
     recipe_id_seq := 2; tag_id_seq := 2; ingredient_id_seq := 2 |}.

Definition clear_payload : gmap string value :=
  list_to_map [("tags", VList []); ("ingredients", VList [])].

(** [test_delete_other_users_recipe_error]: the recipe of [test_user]. *)
Definition others_recipe : Recipe :=
  create_recipe 1 test_user "Sample recipe title".

Definition others_db : DB :=
  {| recipe_table := [others_recipe]; tag_table := [];
     ingredient_table := []; recipe_tags := []; recipe_ingredients := [];
     recipe_id_seq := 2; tag_id_seq := 1; ingredient_id_seq := 1 |}.

(** [test_create_recipe], with a [user] and an [id] added to the
    payload. *)
Definition create_payload : gmap string value :=
  list_to_map
    [("title", VStr "New Sample Recipe Title"); ("time_minutes", VInt 77);
     ("price", VDec 1825);
     ("description", VStr "Creating a sample recipe description");
     ("user", VInt test_user); ("id", VInt 99)].

(** [test_upload_image]: the multipart payload. *)
Definition image_payload : gmap string value :=
  list_to_map [("image", VFile "tmp.jpg" "JFIF")].

Definition not_image_payload : gmap string value :=
  list_to_map [("image", VStr "notanimagefile")].

End Scenario.

(** ** Validation of a payload, field by field *)

(** What the serializer field built for [f] makes of a raw value: the
    validated value, if there is one, and the codes of the errors. *)
Definition validate_field {M : Type} `{!Model M} (f : string) (raw : value)
    : option value :=
  decl ← model_field (M:=M) f;
  match to_internal (ftype decl) raw with
  | inl v => Some v
  | inr _ => None
  end.

Definition field_codes {M : Type} `{!Model M} (f : string) (raw : value)
    : list string :=
  match model_field (M:=M) f with
  | Some decl =>
      match to_internal (ftype decl) raw with
      | inl _ => []
      | inr codes => codes
      end
  | None => []
  end.

(** The payload is acceptable: every writable field that is present
    validates, and on a full update no required field is missing. *)
Definition acceptable {M : Type} `{!Model M} (s : Serializer) (partial : bool)
    (d : gmap string value) : Prop :=
  ∀ f, f ∈ writable_fields s →
    match d !! f with
    | Some raw => is_Some (validate_field (M:=M) f raw)
    | None =>
        partial = true
        ∨ (∀ decl, model_field (M:=M) f = Some decl → required decl = false)
    end.

(** The payload is refused at field [f] with [codes]: the field is present
    with a value that does not validate, or it is required and missing
    from a payload that is not partial. *)
Definition refused_at {M : Type} `{!Model M} (partial : bool)
    (d : gmap string value) (f : string) (codes : list string) : Prop :=
  match d !! f with
  | Some raw =>
      validate_field (M:=M) f raw = None ∧ codes = field_codes (M:=M) f raw
  | None =>
      partial = false ∧ codes = ["required"]
      ∧ ∃ decl, model_field (M:=M) f = Some decl ∧ required decl = true
  end.

(** The value a writable field has after a save of payload [d] over a row
    where it was [old]. *)
Definition field_after {M : Type} `{!Model M} (d : gmap string value)
    (f : string) (old : option value) : option value :=
  match d !! f with
  | Some raw => validate_field (M:=M) f raw
  | None => old
  end.

(** The minutes a save of payload [d] over a row that has [old] writes
    fit the column. *)
Definition minutes_fit (d : gmap string value) (old : Z) : Prop :=
  ∀ n, field_after (M:=Recipe) d "time_minutes" (Some (VInt old))
       = Some (VInt n) →
       0 ≤ n < 2 ^ 63.

(** The row [Recipe.objects.create] starts from: the key the sequence
    issues, the owner, and the defaults of the other columns. *)
Definition blank_recipe (k u : Z) : Recipe :=
  {| id := k; user := u; title := ""; time_minutes := 0; price := 0;
     link := ""; description := ""; image := None |}.

(** ** The URL configuration ([app/urls.py]) *)

(** What a pattern of the root configuration leads to. *)
Inductive url_target :=
  | AdminSite
  | SpectacularAPIView
  | SpectacularSwaggerView
  | IncludeUserUrls
  | IncludeRecipeUrls
  | MediaFile.

(** [path(route, view)] matches the whole path, [path(route, include(..))]
    and [admin.site.urls] match a prefix and hand the rest to the included
    configuration. *)
Record url_pattern := {
  route : string;
  is_include : bool;
  target : url_target
}.

Fixpoint strip_prefix (p s : string) : option string :=
  match p, s with
  | EmptyString, _ => Some s
  | String a p', String b s' =>
      if decide (a = b) then strip_prefix p' s' else None
  | String _ _, EmptyString => None
  end.

(** [media] is what [static(settings.MEDIA_URL, document_root=...)]
    returns; it is added in debug mode only. *)
Definition urlpatterns (DEBUG : bool) (media : list url_pattern)
    : list url_pattern :=
  [ {| route := "admin/"; is_include := true; target := AdminSite |};
    {| route := "api/schema/"; is_include := false;
       target := SpectacularAPIView |};
    {| route := "api/docs/"; is_include := false;
       target := SpectacularSwaggerView |};
    {| route := "api/user/"; is_include := true; target := IncludeUserUrls |};
    {| route := "recipe/"; is_include := true;
       target := IncludeRecipeUrls |} ]
  ++ (if DEBUG then media else []).

(** The resolver: the first pattern that matches wins; an include matches
    when its prefix does and the included configuration, [sub], resolves
    the rest. *)
Fixpoint resolve (sub : url_target → string → bool)
    (patterns : list url_pattern) (p : string)
    : option (url_target * string) :=
  match patterns with
  | [] => None
  | pat :: rest =>
      match strip_prefix (route pat) p with
      | Some tail =>
          if is_include pat then
            if sub (target pat) tail then Some (target pat, tail)
            else resolve sub rest p
          else if decide (tail = "") then Some (target pat, tail)
          else resolve sub rest p
      | None => resolve sub rest p
      end
  end.
(** * Properties *)

(** [x ∈ l1 → x ∈ l2] for closed lists. *)
Ltac in_list H :=
  repeat (apply elem_of_cons in H as [->|H];
          [repeat first [by left | right]|]);
  by apply elem_of_nil in H.

(** ** Query sets *)

Section queryset_facts.
Context {A : Type}.

Lemma head_filter_Some (P : A → Prop) `{!∀ x, Decision (P x)}
    (l : list A) (x : A) :
  head (filter P l) = Some x → x ∈ l ∧ P x.
Proof.
  intros Hx. apply head_Some_elem_of in Hx.
  by apply list_elem_of_filter in Hx as [? ?].
Qed.

Lemma head_filter_None (P : A → Prop) `{!∀ x, Decision (P x)} (l : list A) :
  head (filter P l) = None ↔ ∀ x, x ∈ l → ¬ P x.
Proof.
  rewrite head_None. split.
  - intros Hnil x Hx HP.
    assert (x ∈ filter P l) as Hin by (apply list_elem_of_filter; done).
    rewrite Hnil in Hin. by apply not_elem_of_nil in Hin.
  - intros Hall. induction l as [|y l IH]; [done|].
    rewrite filter_cons. destruct (decide (P y)) as [HP|_].
    + exfalso. apply (Hall y); [left|done].
    + apply IH. intros x Hx. apply Hall. by right.
Qed.

Lemma order_by_desc_Permutation {K : Type} (R : relation K)
    `{!RelDecision R} (key : A → K) (l : list A) :
  order_by_desc R key l ≡ₚ l.
Proof. apply merge_sort_Permutation. Qed.

Lemma elem_of_order_by_desc {K : Type} (R : relation K) `{!RelDecision R}
    (key : A → K) (l : list A) (x : A) :
  x ∈ order_by_desc R key l ↔ x ∈ l.
Proof. by rewrite order_by_desc_Permutation. Qed.

Lemma order_by_desc_Sorted {K : Type} (R : relation K) `{!RelDecision R}
    `{!Total R} (key : A → K) (l : list A) :
  Sorted (λ a b, R (key b) (key a)) (order_by_desc R key l).
Proof.
  assert (Total (λ a b, R (key b) (key a))) as Htotal.
  { intros a b. destruct (total R (key a) (key b)); auto. }
  unfold order_by_desc. by apply Sorted_merge_sort.
Qed.
End queryset_facts.

(** ** Serializers *)

Section serializer_facts.
Context {M : Type} `{!Model M}.

(** Validated data only has keys among the fields that were run. *)
Lemma run_fields_keys (partial : bool) (payload : gmap string value)
    (fs : list string) (k : string) :
  k ∈ keys (run_fields partial payload fs).2 → k ∈ fs.
Proof.
  induction fs as [|f fs IH]; simpl; [by intros ?%not_elem_of_nil|].
  destruct (run_fields partial payload fs) as [errs vd] eqn:Hrun.
  simpl in IH. intros Hk.
  destruct (model_field f) as [d|]; [|right; auto].
  destruct (payload !! f) as [v|].
  - destruct (to_internal (ftype d) v); simpl in Hk; [|right; auto].
    apply elem_of_cons in Hk as [->|Hk]; [left|right; auto].
  - destruct partial; [right; auto|].
    destruct (required d); right; auto.
Qed.

(** The payload is read at the fields that are run and nowhere else. *)
Lemma run_fields_ext (partial : bool) (p1 p2 : gmap string value)
    (fs : list string) :
  (∀ f, f ∈ fs → p1 !! f = p2 !! f) →
  run_fields partial p1 fs = run_fields partial p2 fs.
Proof.
  induction fs as [|f fs IH]; intros Hagree; simpl; [done|].
  rewrite IH by (intros; apply Hagree; by right).
  rewrite (Hagree f) by left. done.
Qed.

Lemma is_valid_ext (s : Serializer) (partial : bool)
    (p1 p2 : gmap string value) :
  (∀ f, f ∈ writable_fields s → p1 !! f = p2 !! f) →
  is_valid s partial p1 = is_valid s partial p2.
Proof. intros Hagree. unfold is_valid. by rewrite (run_fields_ext _ p1 p2). Qed.

Lemma is_valid_keys (s : Serializer) (partial : bool)
    (payload : gmap string value) (vd : odict) (k : string) :
  is_valid s partial payload = inl vd → k ∈ keys vd →
  k ∈ fields s ∧ k ∉ read_only_fields s.
Proof.
  unfold is_valid. intros Hv Hk.
  pose proof (run_fields_keys partial payload (writable_fields s) k) as Hkeys.
  destruct (run_fields partial payload (writable_fields s)) as [errs vd'].
  destruct errs; [|done]. simplify_eq. simpl in Hkeys.
  specialize (Hkeys Hk). unfold writable_fields in Hkeys.
  by apply list_elem_of_filter in Hkeys as [? ?].
Qed.

(** Setting attributes the instance does not change leaves a projection
    alone. *)
Lemma init_kwargs_frame {B : Type} (proj : M → B) (touching : list string)
    (kwargs : odict) (m : M) :
  (∀ f v x, f ∉ touching → proj (setattr f v x) = proj x) →
  (∀ k, k ∈ keys kwargs → k ∉ touching) →
  proj (init_kwargs kwargs m) = proj m.
Proof.
  intros Hframe. revert m.
  induction kwargs as [|[k v] kwargs IH]; intros m Hkeys; [done|].
  unfold init_kwargs in *. simpl. rewrite IH.
  - apply Hframe, Hkeys. left.
  - intros k' Hk'. apply Hkeys. by right.
Qed.
End serializer_facts.

(** ** Dispatch *)

Lemma writable_RecipeSerializer :
  writable_fields RecipeSerializer = ["title"; "time_minutes"; "price"; "link"].
Proof. reflexivity. Qed.

Lemma writable_RecipeDetailSerializer :
  writable_fields RecipeDetailSerializer
  = ["title"; "time_minutes"; "price"; "link"; "description"].
Proof. reflexivity. Qed.

Lemma writable_TagSerializer : writable_fields TagSerializer = ["name"].
Proof. reflexivity. Qed.

Lemma writable_IngredientSerializer :
  writable_fields IngredientSerializer = ["name"].
Proof. reflexivity. Qed.

(** Membership in a closed list. *)
Ltac in_codes := repeat first [by left | right].

Section dispatch_facts.
Context {M : Type} `{!Model M} (cls : ViewSetClass M).

(** A request is answered by the framework itself (not routed, not
    authenticated, method not bound) or by one action method run on the
    instance [as_view] made. *)
Lemma dispatch_cases (req : Request) (db : DB) :
  (∃ code b, code ∈ [HTTP_404_NOT_FOUND; HTTP_401_UNAUTHORIZED;
                     HTTP_405_METHOD_NOT_ALLOWED]
             ∧ dispatch cls req db = ok code b db)
  ∨ (∃ name h, action (as_view cls req) = Some name
               ∧ handler cls name = Some h
               ∧ dispatch cls req db = h (as_view cls req) db).
Proof.
  unfold dispatch.
  destruct (bound_methods cls (url req));
    [left; do 2 eexists; split; [|done]; in_codes|].
  destruct (forallb _ _); [|left; do 2 eexists; split; [|done]; in_codes].
  destruct (action (as_view cls req)) as [name|] eqn:Hact; simpl;
    [|left; do 2 eexists; split; [|done]; in_codes].
  destruct (handler cls name) as [h|] eqn:Hh;
    [|left; do 2 eexists; split; [|done]; in_codes].
  right. by exists name, h.
Qed.
End dispatch_facts.

Section pk_facts.
Context {M : Type} `{!Model M}.

Lemma pk_unique_eq (l : list M) (x y : M) :
  NoDup (pk <$> l) → x ∈ l → y ∈ l → pk x = pk y → x = y.
Proof.
  induction l as [|z l IH]; [by intros _ ?%not_elem_of_nil|].
  rewrite fmap_cons, NoDup_cons. intros [Hz Hl] Hx Hy Hpk.
  apply elem_of_cons in Hx as [->|Hx]; apply elem_of_cons in Hy as [->|Hy];
    [done| | |by apply IH].
  - exfalso. apply Hz. rewrite Hpk. by apply list_elem_of_fmap_2.
  - exfalso. apply Hz. rewrite <- Hpk. by apply list_elem_of_fmap_2.
Qed.
End pk_facts.

(** ** The recipe list *)

Lemma recipes_list_routed (u : Z) (q : list (string * string))
    (d : gmap string value) (db : DB) :
  handle (http GET (Collection "recipes") (Some u) q d) db
  = ok HTTP_200_OK
      (VList ((λ r, VObj (to_representation RecipeSerializer r))
                <$> order_by_desc Z.le id
                      (filter (λ r, Some (user r) = Some u) (recipe_table db))))
      db.
Proof. reflexivity. Qed.

Lemma filter_owner (u : Z) (l : list Recipe) :
  filter (λ r, Some (user r) = Some u) l = filter (λ r, user r = u) l.
Proof. apply list_filter_iff. intros r. split; congruence. Qed.

(** ** Ownership scoping of single recipes *)

Lemma recipes_detail_routed (m : http_method) (k u : Z)
    (q : list (string * string)) (d : gmap string value) (db : DB) :
  handle (http m (Detail "recipes" k) (Some u) q d) db
  = match m with
    | GET =>
        RetrieveModelMixin_retrieve RecipeViewSet.cls
          (detail_view (http m (Detail "recipes" k) (Some u) q d)
             "retrieve" k RecipeDetailSerializer) db
    | PUT =>
        UpdateModelMixin_update RecipeViewSet.cls false
          (detail_view (http m (Detail "recipes" k) (Some u) q d)
             "update" k RecipeDetailSerializer) db
    | PATCH =>
        UpdateModelMixin_update RecipeViewSet.cls true
          (detail_view (http m (Detail "recipes" k) (Some u) q d)
             "partial_update" k RecipeDetailSerializer) db
    | DELETE =>
        DestroyModelMixin_destroy RecipeViewSet.cls
          (detail_view (http m (Detail "recipes" k) (Some u) q d)
             "destroy" k RecipeDetailSerializer) db
    | POST => ok HTTP_405_METHOD_NOT_ALLOWED MethodNotAllowed db
    end.
Proof. destruct m; reflexivity. Qed.

Section scoped_facts.
Context {M : Type} `{!Model M} (cls : ViewSetClass M) (Hscoped : scoped cls).

Lemma get_object_Some (self : View) (db : DB) (x : M) :
  get_object cls self db = Some x →
  x ∈ objects_all db ∧ Some (owner x) = auth (request self)
  ∧ kwargs_pk self = Some (pk x).
Proof.
  unfold get_object. destruct (kwargs_pk self) as [k|]; [|done]. simpl.
  intros [Hin Hk]%head_filter_Some.
  apply Hscoped in Hin as [? ?]. by subst.
Qed.

(** A row of another user is not found. *)
Lemma get_object_not_owned (self : View) (db : DB) (x : M) :
  pk_unique (M:=M) db → x ∈ objects_all db →
  auth (request self) ≠ Some (owner x) → kwargs_pk self = Some (pk x) →
  get_object cls self db = None.
Proof.
  intros Hunique Hx Hother Hk.
  destruct (get_object cls self db) as [y|] eqn:Hget; [|done].
  apply get_object_Some in Hget as (Hy & Howner & Hk').
  assert (y = x) as ->.
  { apply (pk_unique_eq (objects_all db)); [done..|]. congruence. }
  congruence.
Qed.

(** A row of the caller is found. *)
Lemma get_object_owned (self : View) (db : DB) (x : M) :
  pk_unique (M:=M) db → x ∈ objects_all db →
  auth (request self) = Some (owner x) → kwargs_pk self = Some (pk x) →
  get_object cls self db = Some x.
Proof.
  intros Hunique Hx Howner Hk.
  destruct (get_object cls self db) as [y|] eqn:Hget.
  - apply get_object_Some in Hget as (Hy & _ & Hk'). f_equal.
    apply (pk_unique_eq (objects_all db)); [done..|]. congruence.
  - exfalso. unfold get_object in Hget. rewrite Hk in Hget. simpl in Hget.
    pose proof (proj1 (head_filter_None _ _) Hget x) as Hnot.
    apply Hnot; [|done]. apply Hscoped. by rewrite Howner.
Qed.
End scoped_facts.

Lemma RecipeViewSet_scoped : scoped RecipeViewSet.cls.
Proof.
  intros self db r. simpl. unfold RecipeViewSet.get_queryset.
  by rewrite elem_of_order_by_desc, list_elem_of_filter, (comm and).
Qed.

Lemma BaseRecipeAttrViewSet_scoped {M : Type} `{!Model M} (nm : M → string)
    (s : Serializer) :
  scoped (BaseRecipeAttrViewSet.cls nm s).
Proof.
  intros self db r. simpl. unfold BaseRecipeAttrViewSet.get_queryset.
  by rewrite elem_of_order_by_desc, list_elem_of_filter, (comm and).
Qed.

(** ** What a request can make a handler read *)

Section handler_facts.
Context {M : Type} `{!Model M} (cls : ViewSetClass M).

Lemma handler_mixin (name : string) (h : View → DB → Response * DB) :
  cls_extra_actions cls = [] → handler cls name = Some h →
  h = ListModelMixin_list cls ∨ h = CreateModelMixin_create cls
  ∨ h = RetrieveModelMixin_retrieve cls
  ∨ h = UpdateModelMixin_update cls false
  ∨ h = UpdateModelMixin_update cls true
  ∨ h = DestroyModelMixin_destroy cls.
Proof.
  intros Hextra. unfold handler. rewrite Hextra.
  destruct (decide _); [|done]. unfold mixin_method.
  repeat case_decide; intros; simplify_eq; auto 10.
Qed.

Lemma dispatch_same_call (r1 r2 : Request) (db : DB) :
  same_call r1 r2 →
  (∀ name h a k, handler cls name = Some h →
     h (view_of r1 a k (cls_serializer_class cls)) db
     = h (view_of r2 a k (cls_serializer_class cls)) db) →
  dispatch cls r1 db = dispatch cls r2 db.
Proof.
  intros (Hm & Hu & Ha & _) Hh. unfold dispatch, as_view.
  rewrite Hm, Hu. destruct (bound_methods cls (url r2)); [done|].
  assert (forallb (λ p, has_permission p r1) (cls_permission_classes cls)
          = forallb (λ p, has_permission p r2) (cls_permission_classes cls))
    as ->.
  { induction (cls_permission_classes cls) as [|perm ps IH]; [done|]. simpl.
    rewrite IH. f_equal. destruct perm; simpl; [|done]. by rewrite Ha. }
  destruct (forallb _ _); [|done]. simpl.
  destruct (snd <$> _) as [name|]; [|done]. simpl.
  destruct (handler cls name) as [h|] eqn:Hname; [|done].
  by apply (Hh name).
Qed.
End handler_facts.

Lemma recipe_handlers_same_call (r1 r2 : Request) (db : DB) (name : string)
    (h : View → DB → Response * DB) (a : option string) (k : option Z) :
  same_call r1 r2 →
  handler RecipeViewSet.cls name = Some h →
  h (view_of r1 a k RecipeDetailSerializer) db
  = h (view_of r2 a k RecipeDetailSerializer) db.
Proof.
  intros (_ & _ & Ha & Hd) Hh.
  assert (∀ s partial, s = RecipeSerializer ∨ s = RecipeDetailSerializer →
            is_valid (M:=Recipe) s partial (data r1)
            = is_valid (M:=Recipe) s partial (data r2)) as Hvalid.
  { intros s partial Hs. apply (is_valid_ext (M:=Recipe)). intros f Hf. apply Hd.
    destruct Hs as [-> | ->];
      [rewrite writable_RecipeSerializer in Hf
      |rewrite writable_RecipeDetailSerializer in Hf];
      unfold payload_fields; in_list Hf. }
  apply handler_mixin in Hh; [|done].
  destruct Hh as [->|[->|[->|[->|[->| ->]]]]];
    unfold ListModelMixin_list, CreateModelMixin_create,
      RetrieveModelMixin_retrieve, UpdateModelMixin_update,
      DestroyModelMixin_destroy, get_object, view_of; simpl;
    unfold RecipeViewSet.get_queryset, RecipeViewSet.get_serializer_class,
      RecipeViewSet.perform_create; simpl; rewrite <- ?Ha;
    try (destruct (decide (a = Some "list")); simpl);
    rewrite <- ?Ha, ?Hvalid by auto.
  all: reflexivity.
Qed.

Lemma attr_handlers_same_call {M : Type} `{!Model M} (nm : M → string)
    (s : Serializer) (r1 r2 : Request) (db : DB) (name : string)
    (h : View → DB → Response * DB) (a : option string) (k : option Z) :
  writable_fields s = ["name"] →
  same_call r1 r2 →
  handler (BaseRecipeAttrViewSet.cls nm s) name = Some h →
  h (view_of r1 a k s) db = h (view_of r2 a k s) db.
Proof.
  intros Hs (_ & _ & Ha & Hd) Hh.
  assert (∀ partial, is_valid (M:=M) s partial (data r1)
                     = is_valid (M:=M) s partial (data r2)) as Hvalid.
  { intros partial. apply (is_valid_ext (M:=M)). intros f Hf. apply Hd.
    rewrite Hs in Hf. unfold payload_fields. in_list Hf. }
  apply handler_mixin in Hh; [|done].
  destruct Hh as [->|[->|[->|[->|[->| ->]]]]];
    unfold ListModelMixin_list, CreateModelMixin_create,
      RetrieveModelMixin_retrieve, UpdateModelMixin_update,
      DestroyModelMixin_destroy, get_object, view_of; simpl;
    unfold BaseRecipeAttrViewSet.get_queryset; simpl;
    rewrite <- ?Ha, ?Hvalid; reflexivity.
Qed.

(** The views read a request at its method, its URL, its caller and its
    payload at the writable fields. *)
Lemma handle_same_call (r1 r2 : Request) (db : DB) :
  same_call r1 r2 → handle r1 db = handle r2 db.
Proof.
  intros Hsame. pose proof Hsame as (_ & Hu & _ & _).
  unfold handle. rewrite Hu. repeat case_decide; [| | |done].
  - apply dispatch_same_call; [done|]. intros name h a k.
    by apply recipe_handlers_same_call.
  - apply dispatch_same_call; [done|]. intros name h a k.
    by apply (attr_handlers_same_call tag_name TagSerializer).
  - apply dispatch_same_call; [done|]. intros name h a k.
    by apply (attr_handlers_same_call ingredient_name IngredientSerializer).
Qed.

(** A payload key that is not a writable field is never read. *)
Lemma payload_key_ignored (k : string) (v : value) (req : Request) (db : DB) :
  k ∉ payload_fields →
  handle (with_data (insert k v) req) db = handle req db.
Proof.
  intros Hk. apply handle_same_call. repeat split; try done.
  intros f Hf. simpl. apply lookup_insert_ne. by intros ->.
Qed.

(** ** Dictionaries *)

Lemma dict_set_fresh (k : string) (v : value) (d : odict) :
  k ∉ keys d → dict_set k v d = d ++ [(k, v)].
Proof.
  induction d as [|[k' v'] d IH]; [done|]. simpl.
  rewrite not_elem_of_cons. intros [Hne Hd].
  destruct (decide (k' = k)); [congruence|]. by rewrite IH.
Qed.

Lemma dict_get_app_fresh (k : string) (v : value) (d : odict) :
  k ∉ keys d → dict_get k (d ++ [(k, v)]) = Some v.
Proof.
  unfold dict_get. induction d as [|[k' v'] d IH]; simpl.
  - intros _. rewrite filter_cons. simpl.
    destruct (decide (k = k)); [done|congruence].
  - rewrite not_elem_of_cons. intros [Hne Hd].
    rewrite filter_cons. simpl. destruct (decide (k' = k)); [congruence|auto].
Qed.

(** ** Attributes of a recipe *)

Lemma Recipe_setattr_id (f : string) (v : value) (r : Recipe) :
  f ∉ ["id"] → id (Recipe_setattr f v r) = id r.
Proof.
  rewrite list_elem_of_singleton. intros Hf. unfold Recipe_setattr.
  destruct v; repeat case_decide; try done.
Qed.

Lemma Recipe_setattr_user (f : string) (v : value) (r : Recipe) :
  f ∉ ["user"] → user (Recipe_setattr f v r) = user r.
Proof.
  rewrite list_elem_of_singleton. intros Hf. unfold Recipe_setattr.
  destruct v; repeat case_decide; try done.
Qed.

Lemma Recipe_setattr_image (f : string) (v : value) (r : Recipe) :
  f ∉ ["image"] → image (Recipe_setattr f v r) = image r.
Proof.
  rewrite list_elem_of_singleton. intros Hf. unfold Recipe_setattr.
  destruct v; repeat case_decide; try done.
Qed.

(** Validated recipe data never carries [id], [user] or [image]. *)
Lemma recipe_validated_keys (s : Serializer) (partial : bool)
    (payload : gmap string value) (vd : odict) (k : string) :
  s = RecipeSerializer ∨ s = RecipeDetailSerializer →
  is_valid (M:=Recipe) s partial payload = inl vd → k ∈ keys vd →
  (k ∉ ["id"]) ∧ (k ∉ ["user"]) ∧ (k ∉ ["image"]).
Proof.
  intros Hs Hvalid Hk.
  destruct (is_valid_keys (M:=Recipe) s partial payload vd k Hvalid Hk)
    as [Hfield Hro].
  rewrite !list_elem_of_singleton.
  destruct Hs as [-> | ->]; simpl in Hfield, Hro;
    rewrite list_elem_of_singleton in Hro;
    repeat (apply elem_of_cons in Hfield as [->|Hfield]; [done|]);
    by apply elem_of_nil in Hfield.
Qed.

(** ** Saving *)

Lemma save_instance_Some {M : Type} `{!Model M} (inst : M) (vd : odict)
    (db : DB) (m : M) (db' : DB) :
  save_instance inst vd db = Some (m, db') →
  m = init_kwargs vd inst ∧ save m db = Some db'.
Proof.
  unfold save_instance. destruct (save _ db) as [db0|] eqn:Hsave; [|done].
  simpl. by intros [= <- <-].
Qed.

Lemma Recipe_save_Some (r : Recipe) (db db' : DB) :
  save r db = Some db' →
  db' = Recipe_replace r db ∧ 0 ≤ time_minutes r < 2 ^ 63.
Proof.
  simpl. unfold Recipe_save, fits_positive_integer_column.
  case_bool_decide; [|done]. by intros [= <-].
Qed.

Lemma Tag_save_Some (t : Tag) (db db' : DB) :
  save t db = Some db' → db' = Tag_replace t db.
Proof. by intros [= <-]. Qed.

Lemma Ingredient_save_Some (i : Ingredient) (db db' : DB) :
  save i db = Some db' → db' = Ingredient_replace i db.
Proof. by intros [= <-]. Qed.

Lemma recipe_serializer_choice (self : View) :
  serializer_class self = RecipeDetailSerializer →
  request (RecipeViewSet.get_serializer_class self).1 = request self
  ∧ ((RecipeViewSet.get_serializer_class self).2 = RecipeSerializer
     ∨ (RecipeViewSet.get_serializer_class self).2 = RecipeDetailSerializer).
Proof.
  intros Hs. unfold RecipeViewSet.get_serializer_class.
  case_decide; simpl; auto.
Qed.

(** ** The effect of a recipe request on the recipe table *)

(** Every row after the request is a row from before with the same
    identity and owner, or the row a create just made for the caller under
    the key the sequence issued. *)
Definition recipe_rows_from (req : Request) (db : DB) (out : Response * DB)
    : Prop :=
  ∀ r', r' ∈ recipe_table out.2 →
    (∃ r, r ∈ recipe_table db ∧ id r = id r' ∧ user r = user r'
          ∧ image r = image r')
    ∨ (id r' = recipe_id_seq db ∧ auth req = Some (user r')
       ∧ status_code out.1 = HTTP_201_CREATED).

Lemma recipe_rows_from_same (req : Request) (db : DB) (resp : Response) :
  recipe_rows_from req db (resp, db).
Proof. intros r' Hr'. left. by exists r'. Qed.

Lemma recipe_update_rows (partial : bool) (self : View) (db : DB) :
  serializer_class self = RecipeDetailSerializer →
  recipe_rows_from (request self) db
    (UpdateModelMixin_update RecipeViewSet.cls partial self db).
Proof.
  intros Hs. unfold UpdateModelMixin_update.
  destruct (get_object RecipeViewSet.cls self db) as [inst|] eqn:Hget;
    [|apply recipe_rows_from_same].
  apply (get_object_Some _ RecipeViewSet_scoped) in Hget as (Hinst & _ & _).
  change (cls_get_serializer_class RecipeViewSet.cls self)
    with (RecipeViewSet.get_serializer_class self).
  destruct (recipe_serializer_choice self Hs) as [Hreq Hchoice].
  destruct (RecipeViewSet.get_serializer_class self) as [self' s].
  simpl in Hreq, Hchoice.
  destruct (is_valid s partial (data (request self'))) as [vd|errs] eqn:Hvalid;
    [|apply recipe_rows_from_same].
  destruct (save_instance inst vd db) as [[m db']|] eqn:Hsave;
    [|apply recipe_rows_from_same].
  apply save_instance_Some in Hsave as [-> Hsave].
  apply Recipe_save_Some in Hsave as [-> _].
  intros r' Hr'. left. simpl in Hr'.
  apply list_elem_of_fmap in Hr' as (x & -> & Hx).
  case_decide; [|by exists x].
  exists inst. split; [done|].
  split; [|split]; symmetry.
  - apply (init_kwargs_frame id ["id"]); [apply Recipe_setattr_id|].
    intros k Hk. by eapply recipe_validated_keys.
  - apply (init_kwargs_frame user ["user"]); [apply Recipe_setattr_user|].
    intros k Hk. by eapply recipe_validated_keys.
  - apply (init_kwargs_frame image ["image"]); [apply Recipe_setattr_image|].
    intros k Hk. by eapply recipe_validated_keys.
Qed.

Lemma recipe_destroy_rows (self : View) (db : DB) :
  recipe_rows_from (request self) db
    (DestroyModelMixin_destroy RecipeViewSet.cls self db).
Proof.
  unfold DestroyModelMixin_destroy.
  destruct (get_object RecipeViewSet.cls self db) as [inst|];
    [|apply recipe_rows_from_same].
  intros r' Hr'. left. simpl in Hr'.
  apply list_elem_of_filter in Hr' as [_ Hr']. by exists r'.
Qed.

(** The row [objects.create] makes from validated data and the caller,
    unless the insert raises. *)
Lemma recipe_create_row (vd : odict) (u : Z) (db : DB) :
  (∀ k, k ∈ keys vd → (k ∉ ["id"]) ∧ (k ∉ ["user"]) ∧ (k ∉ ["image"])) →
  save_new (M:=Recipe) vd [("user", VInt u)] db = None
  ∨ ∃ r, save_new vd [("user", VInt u)] db
         = Some (r, bump_recipe_id_seq (set_recipe_table (λ t, t ++ [r]) db))
         ∧ id r = recipe_id_seq db ∧ user r = u ∧ image r = None.
Proof.
  intros Hkeys. unfold save_new, dict_merge. simpl.
  assert ("user" ∉ keys vd) as Hfresh.
  { intros Hin. destruct (Hkeys _ Hin) as (_ & Hu & _). apply Hu. left. }
  rewrite dict_set_fresh by done. unfold Recipe_objects_create.
  rewrite dict_get_app_fresh by done.
  destruct (fits_positive_integer_column _); [right|by left].
  eexists. split; [reflexivity|]. rewrite foldl_app. simpl.
  set (blank := {| id := recipe_id_seq db; user := u; title := "";
                   time_minutes := 0; price := 0; link := "";
                   description := ""; image := None |}).
  change (foldl _ blank vd) with (init_kwargs vd blank).
  split; [|split].
  - apply (init_kwargs_frame id ["id"]); [apply Recipe_setattr_id|].
    intros k Hk. by apply Hkeys.
  - done.
  - apply (init_kwargs_frame image ["image"]); [apply Recipe_setattr_image|].
    intros k Hk. by apply Hkeys.
Qed.

Lemma recipe_create_rows (self : View) (db : DB) :
  serializer_class self = RecipeDetailSerializer →
  recipe_rows_from (request self) db
    (CreateModelMixin_create RecipeViewSet.cls self db).
Proof.
  intros Hs. unfold CreateModelMixin_create.
  change (cls_get_serializer_class RecipeViewSet.cls self)
    with (RecipeViewSet.get_serializer_class self).
  destruct (recipe_serializer_choice self Hs) as [Hreq Hchoice].
  destruct (RecipeViewSet.get_serializer_class self) as [self' s].
  simpl in Hreq, Hchoice.
  destruct (is_valid s false (data (request self'))) as [vd|errs] eqn:Hvalid;
    [|apply recipe_rows_from_same].
  simpl. unfold RecipeViewSet.perform_create. rewrite Hreq.
  destruct (auth (request self)) as [u|] eqn:Hauth;
    [|apply recipe_rows_from_same].
  destruct (recipe_create_row vd u db) as [->|(r & -> & Hid & Huser & _)];
    [|apply recipe_rows_from_same|].
  { intros k Hk. by eapply recipe_validated_keys. }
  intros r' Hr'. simpl in Hr'.
  apply elem_of_app in Hr' as [Hr'|Hr']; [left; by exists r'|].
  apply list_elem_of_singleton in Hr' as ->. right. simpl.
  by rewrite Huser.
Qed.

Lemma recipe_handlers_rows (name : string) (h : View → DB → Response * DB)
    (self : View) (db : DB) :
  serializer_class self = RecipeDetailSerializer →
  handler RecipeViewSet.cls name = Some h →
  recipe_rows_from (request self) db (h self db).
Proof.
  intros Hs Hh. apply handler_mixin in Hh; [|done].
  destruct Hh as [->|[->|[->|[->|[->| ->]]]]].
  - unfold ListModelMixin_list.
    destruct (cls_get_serializer_class _ _). apply recipe_rows_from_same.
  - by apply recipe_create_rows.
  - unfold RetrieveModelMixin_retrieve. destruct (get_object _ _ _);
      [destruct (cls_get_serializer_class _ _)|]; apply recipe_rows_from_same.
  - by apply recipe_update_rows.
  - by apply recipe_update_rows.
  - apply recipe_destroy_rows.
Qed.

(** The tag and ingredient endpoints never write the recipe table. *)
Lemma attr_handlers_keep_recipes {M : Type} `{!Model M} (nm : M → string)
    (s : Serializer) (name : string) (h : View → DB → Response * DB)
    (self : View) (db : DB) :
  (∀ m db db', save m db = Some db' → recipe_table db' = recipe_table db) →
  (∀ m db, recipe_table (delete m db) = recipe_table db) →
  (∀ kw db m db', objects_create kw db = Some (m, db') →
     recipe_table db' = recipe_table db) →
  handler (BaseRecipeAttrViewSet.cls nm s) name = Some h →
  recipe_table (h self db).2 = recipe_table db.
Proof.
  intros Hsave Hdelete Hcreate Hh.
  unfold handler in Hh. simpl in Hh.
  destruct (decide _) as [Hname|]; [|done].
  unfold BaseRecipeAttrViewSet.action_methods in Hname.
  unfold mixin_method in Hh.
  repeat (apply elem_of_cons in Hname as [->|Hname];
          [repeat case_decide; try done; simplify_eq|]);
    [..|by apply elem_of_nil in Hname].
  - unfold UpdateModelMixin_update. destruct (get_object _ _ _); [|done].
    simpl. destruct (is_valid _ _ _); [|done].
    destruct (save_instance _ _ _) as [[m0 db']|] eqn:Hs; [|done].
    apply save_instance_Some in Hs as [_ Hs]. simpl. by eapply Hsave.
  - unfold UpdateModelMixin_update. destruct (get_object _ _ _); [|done].
    simpl. destruct (is_valid _ _ _); [|done].
    destruct (save_instance _ _ _) as [[m0 db']|] eqn:Hs; [|done].
    apply save_instance_Some in Hs as [_ Hs]. simpl. by eapply Hsave.
  - done.
  - unfold DestroyModelMixin_destroy. destruct (get_object _ _ _); [|done].
    simpl. apply Hdelete.
Qed.

Lemma handle_recipe_rows (req : Request) (db : DB) :
  recipe_rows_from req db (handle req db).
Proof.
  unfold handle. repeat case_decide; [| | |apply recipe_rows_from_same].
  - destruct (dispatch_cases RecipeViewSet.cls req db)
      as [(code & b & _ & ->)|(name & h & _ & Hh & ->)];
      [apply recipe_rows_from_same|].
    by apply (recipe_handlers_rows name h (as_view RecipeViewSet.cls req)).
  - destruct (dispatch_cases TagViewSet req db)
      as [(code & b & _ & ->)|(name & h & _ & Hh & ->)];
      [apply recipe_rows_from_same|].
    intros r' Hr'. left. exists r'.
    rewrite (attr_handlers_keep_recipes tag_name TagSerializer name h) in Hr';
      try done; [by intros m db0 db' [= <-]|].
    intros kw db0 m db'. unfold objects_create. simpl.
    unfold Tag_objects_create. destruct (dict_get _ _) as [[]|]; try done.
    by intros [= <- <-].
  - destruct (dispatch_cases IngredientViewSet req db)
      as [(code & b & _ & ->)|(name & h & _ & Hh & ->)];
      [apply recipe_rows_from_same|].
    intros r' Hr'. left. exists r'.
    rewrite (attr_handlers_keep_recipes ingredient_name IngredientSerializer
               name h) in Hr'; try done; [by intros m db0 db' [= <-]|].
    intros kw db0 m db'. unfold objects_create. simpl.
    unfold Ingredient_objects_create. destruct (dict_get _ _) as [[]|]; try done.
    by intros [= <- <-].
Qed.

(** Closed decidable facts about the fixtures. *)
Ltac by_compute := apply (bool_decide_unpack _); vm_compute; exact I.

(** ** Representations *)

Lemma recipe_summary (r : Recipe) :
  to_representation RecipeSerializer r
  = [("id", VInt (id r)); ("title", VStr (title r));
     ("time_minutes", VInt (time_minutes r)); ("price", VDec (price r));
     ("link", VStr (link r))].
Proof. reflexivity. Qed.

Lemma recipe_detail (r : Recipe) :
  to_representation RecipeDetailSerializer r
  = to_representation RecipeSerializer r
    ++ [("description", VStr (description r))].
Proof. reflexivity. Qed.

(** ** The serializer of each recipe action *)

Lemma recipes_create_routed (u : Z) (q : list (string * string))
    (d : gmap string value) (db : DB) :
  let req := http POST (Collection "recipes") (Some u) q d in
  handle req db
  = CreateModelMixin_create RecipeViewSet.cls
      (view_of req (Some "create") None RecipeDetailSerializer) db.
Proof. reflexivity. Qed.

(** A fresh instance whose action is not [list] keeps the class
    attribute. *)
Lemma get_serializer_class_other (req : Request) (k : option Z) (a : string) :
  a ≠ "list" →
  RecipeViewSet.get_serializer_class
    (view_of req (Some a) k RecipeDetailSerializer)
  = (view_of req (Some a) k RecipeDetailSerializer, RecipeDetailSerializer).
Proof.
  intros Ha. unfold RecipeViewSet.get_serializer_class. simpl.
  destruct (decide (Some a = Some "list")); [congruence|done].
Qed.

(** The answer at hand is not a success. *)
Ltac refute_status H :=
  exfalso; simpl in H; rewrite !elem_of_cons, elem_of_nil in H;
  destruct H as [H|[H|[]]]; discriminate H.

(** A successful create, retrieve, update or partial update answers with
    the detail representation of a recipe. *)
Lemma recipe_detail_responses (m : http_method) (p : path) (u : Z)
    (q : list (string * string)) (d : gmap string value) (db : DB) :
  (m = POST ∧ p = Collection "recipes")
  ∨ (m ∈ [GET; PUT; PATCH] ∧ ∃ i, p = Detail "recipes" i) →
  status_code (handle (http m p (Some u) q d) db).1 ∈
    [HTTP_200_OK; HTTP_201_CREATED] →
  ∃ r : Recipe,
    body (handle (http m p (Some u) q d) db).1
    = VObj (to_representation RecipeDetailSerializer r).
Proof.
  intros [[-> ->]|[Hm [i ->]]] Hstatus.
  - rewrite recipes_create_routed in *. unfold CreateModelMixin_create in *.
    change (cls_get_serializer_class RecipeViewSet.cls)
      with RecipeViewSet.get_serializer_class in *.
    rewrite get_serializer_class_other in * by done.
    destruct (is_valid _ _ _); [|refute_status Hstatus].
    destruct (cls_perform_create _ _ _ _) as [[r db']|];
      [by exists r|refute_status Hstatus].
  - rewrite recipes_detail_routed in *.
    rewrite !elem_of_cons, elem_of_nil in Hm.
    destruct Hm as [->|[->|[->|[]]]];
      unfold RetrieveModelMixin_retrieve, UpdateModelMixin_update,
        detail_view in *;
      (destruct (get_object _ _ _) as [inst|]; [|refute_status Hstatus]);
      change (cls_get_serializer_class RecipeViewSet.cls)
        with RecipeViewSet.get_serializer_class in *;
      rewrite get_serializer_class_other in * by done.
    + by exists inst.
    + destruct (is_valid _ _ _); [|refute_status Hstatus].
      destruct (save_instance _ _ _) as [[m db']|]; [|refute_status Hstatus].
      simpl. by eexists.
    + destruct (is_valid _ _ _); [|refute_status Hstatus].
      destruct (save_instance _ _ _) as [[m db']|]; [|refute_status Hstatus].
      simpl. by eexists.
Qed.

(** ** The tag and ingredient endpoints *)

Lemma tags_detail_routed (m : http_method) (k u : Z)
    (q : list (string * string)) (d : gmap string value) (db : DB) :
  handle (http m (Detail "tags" k) (Some u) q d) db
  = match m with
    | PUT =>
        UpdateModelMixin_update TagViewSet false
          (detail_view (http m (Detail "tags" k) (Some u) q d)
             "update" k TagSerializer) db
    | PATCH =>
        UpdateModelMixin_update TagViewSet true
          (detail_view (http m (Detail "tags" k) (Some u) q d)
             "partial_update" k TagSerializer) db
    | DELETE =>
        DestroyModelMixin_destroy TagViewSet
          (detail_view (http m (Detail "tags" k) (Some u) q d)
             "destroy" k TagSerializer) db
    | GET | POST => ok HTTP_405_METHOD_NOT_ALLOWED MethodNotAllowed db
    end.
Proof. destruct m; reflexivity. Qed.

Lemma ingredients_detail_routed (m : http_method) (k u : Z)
    (q : list (string * string)) (d : gmap string value) (db : DB) :
  handle (http m (Detail "ingredients" k) (Some u) q d) db
  = match m with
    | PUT =>
        UpdateModelMixin_update IngredientViewSet false
          (detail_view (http m (Detail "ingredients" k) (Some u) q d)
             "update" k IngredientSerializer) db
    | PATCH =>
        UpdateModelMixin_update IngredientViewSet true
          (detail_view (http m (Detail "ingredients" k) (Some u) q d)
             "partial_update" k IngredientSerializer) db
    | DELETE =>
        DestroyModelMixin_destroy IngredientViewSet
          (detail_view (http m (Detail "ingredients" k) (Some u) q d)
             "destroy" k IngredientSerializer) db
    | GET | POST => ok HTTP_405_METHOD_NOT_ALLOWED MethodNotAllowed db
    end.
Proof. destruct m; reflexivity. Qed.

(** Without credentials every routed URL answers 401. *)
Lemma unauthenticated (m : http_method) (prefix : string) (k : Z)
    (q : list (string * string)) (d : gmap string value) (db : DB) :
  prefix ∈ ["recipes"; "tags"; "ingredients"] →
  handle (http m (Detail prefix k) None q d) db
  = ok HTTP_401_UNAUTHORIZED NotAuthenticated db
  ∧ handle (http m (Collection prefix) None q d) db
    = ok HTTP_401_UNAUTHORIZED NotAuthenticated db.
Proof.
  rewrite !elem_of_cons, elem_of_nil. intros [->|[->|[->|[]]]]; by split.
Qed.

(** ** Text fields *)

Lemma CharField_text_ok (n : option nat) (blank : bool) (s : string) :
  strip isspace s ≠ "" → within_max_length n (strip isspace s) = true →
  has_null_character (strip isspace s) = false →
  CharField_text n blank s = inl (VStr (strip isspace s)).
Proof.
  intros Hne Hlen Hnull. unfold CharField_text.
  rewrite decide_False by done. by rewrite Hlen, Hnull.
Qed.

Lemma CharField_text_blank (n : option nat) (blank : bool) (s : string) :
  strip isspace s = "" →
  CharField_text n blank s = if blank then inl (VStr "") else inr ["blank"].
Proof. intros Hs. unfold CharField_text. by rewrite decide_True. Qed.

Lemma CharField_text_refused (n : option nat) (blank : bool) (s : string) :
  strip isspace s ≠ "" →
  within_max_length n (strip isspace s) = false
  ∨ has_null_character (strip isspace s) = true →
  ∃ codes, CharField_text n blank s = inr codes.
Proof.
  intros Hne Hbad. unfold CharField_text. rewrite decide_False by done.
  destruct Hbad as [-> | ->]; [by eexists|].
  destruct (within_max_length _ _); by eexists.
Qed.

(** A validated text is a string, a validated integer an integer and a
    validated decimal a decimal. *)
Lemma to_internal_shape (t : field_type) (raw v : value) :
  to_internal t raw = inl v →
  match t with
  | CharField _ _ => ∃ s, v = VStr s
  | IntegerField _ => ∃ n, v = VInt n
  | DecimalField _ => ∃ h, v = VDec h
  end.
Proof.
  assert (∀ n blank s, CharField_text n blank s = inl v → ∃ s', v = VStr s')
    as Hchar.
  { intros n blank s. unfold CharField_text.
    repeat case_match; intros; simplify_eq; by eexists. }
  assert (∀ lo n, IntegerField_value lo n = inl v → ∃ n', v = VInt n')
    as Hvalue.
  { intros lo n. unfold IntegerField_value.
    repeat case_match; intros; simplify_eq; by eexists. }
  assert (∀ lo s, IntegerField_text lo s = inl v → ∃ n', v = VInt n')
    as Hint.
  { intros lo s. unfold IntegerField_text.
    destruct (python_int _); [apply Hvalue|done]. }
  assert (∀ lo s, IntegerField_str lo s = inl v → ∃ n', v = VInt n')
    as Hstr.
  { intros lo s. unfold IntegerField_str. case_decide; [done|apply Hint]. }
  assert (∀ digits c e, DecimalField_value digits c e = inl v
                        → ∃ h, v = VDec h) as Hdec.
  { intros digits c e. unfold DecimalField_value.
    repeat case_match; intros; simplify_eq; by eexists. }
  assert (∀ digits s, DecimalField_text digits s = inl v → ∃ h, v = VDec h)
    as Hdtext.
  { intros digits s. unfold DecimalField_text. case_decide; [done|].
    destruct (python_decimal _) as [[c e]|]; [apply Hdec|done]. }
  destruct raw, t; simpl; try done; eauto.
  case_decide; [|done]. destruct allow_blank; intros; simplify_eq; by eexists.
Qed.

(** ** The tag and ingredient renames *)

(** A payload with a [name] validates to what the text field makes of
    it. *)
Lemma name_is_valid {M : Type} `{!Model M} (s : Serializer) (partial : bool)
    (d : gmap string value) (raw : value) :
  writable_fields s = ["name"] →
  model_field (M:=M) "name"
  = Some {| required := true; ftype := CharField (Some 255%nat) false |} →
  d !! "name" = Some raw →
  is_valid (M:=M) s partial d
  = match to_internal (CharField (Some 255%nat) false) raw with
    | inl v => inl [("name", v)]
    | inr codes => inr [("name", codes)]
    end.
Proof.
  intros Hs Hfield Hraw. unfold is_valid. rewrite Hs. simpl.
  rewrite Hfield, Hraw. simpl. by destruct (to_internal _ _).
Qed.

Lemma tag_update_owned (partial : bool) (db : DB) (t : Tag) (raw : value)
    (name : string) (req : Request) :
  pk_unique (M:=Tag) db → t ∈ tag_table db →
  auth req = Some (tag_user t) →
  data req !! "name" = Some raw →
  UpdateModelMixin_update TagViewSet partial
    (detail_view req name (tag_id t) TagSerializer) db
  = match to_internal (CharField (Some 255%nat) false) raw with
    | inl v =>
        let t' := setattr "name" v t in
        ({| status_code := HTTP_200_OK;
            body := VObj (to_representation TagSerializer t') |},
         Tag_replace t' db)
    | inr codes =>
        ({| status_code := HTTP_400_BAD_REQUEST;
            body := errors_body [("name", codes)] |}, db)
    end.
Proof.
  intros Hunique Ht Hauth Hname. unfold UpdateModelMixin_update.
  rewrite (get_object_owned TagViewSet
             (BaseRecipeAttrViewSet_scoped tag_name TagSerializer) _ db t)
    by done.
  simpl.
  rewrite (name_is_valid (M:=Tag) _ _ _ raw) by done.
  by destruct (to_internal _ raw).
Qed.

Lemma ingredient_update_owned (partial : bool) (db : DB) (i : Ingredient)
    (raw : value) (name : string) (req : Request) :
  pk_unique (M:=Ingredient) db → i ∈ ingredient_table db →
  auth req = Some (ingredient_user i) →
  data req !! "name" = Some raw →
  UpdateModelMixin_update IngredientViewSet partial
    (detail_view req name (ingredient_id i) IngredientSerializer) db
  = match to_internal (CharField (Some 255%nat) false) raw with
    | inl v =>
        let i' := setattr "name" v i in
        ({| status_code := HTTP_200_OK;
            body := VObj (to_representation IngredientSerializer i') |},
         Ingredient_replace i' db)
    | inr codes =>
        ({| status_code := HTTP_400_BAD_REQUEST;
            body := errors_body [("name", codes)] |}, db)
    end.
Proof.
  intros Hunique Hi Hauth Hname. unfold UpdateModelMixin_update.
  rewrite (get_object_owned IngredientViewSet
             (BaseRecipeAttrViewSet_scoped ingredient_name
                IngredientSerializer) _ db i) by done.
  simpl.
  rewrite (name_is_valid (M:=Ingredient) _ _ _ raw) by done.
  by destruct (to_internal _ raw).
Qed.

(** ** The store invariant is kept *)

Section pk_kept.
Context {M : Type} `{!Model M}.

Lemma NoDup_pk_filter (P : M → Prop) `{!∀ x, Decision (P x)} (l : list M) :
  NoDup (pk <$> l) → NoDup (pk <$> filter P l).
Proof.
  induction l as [|x l IH]; [done|].
  rewrite fmap_cons, NoDup_cons. intros [Hx Hl]. rewrite filter_cons.
  destruct (decide (P x)); [|auto].
  rewrite fmap_cons, NoDup_cons. split; [|auto].
  intros (y & Hpk & Hy%list_elem_of_filter)%list_elem_of_fmap.
  apply Hx. rewrite Hpk. apply list_elem_of_fmap_2. by destruct Hy.
Qed.

(** Replacing the row that has the key of [m] by [m] keeps the keys. *)
Lemma pk_replace (m : M) (l : list M) :
  pk <$> ((λ x, if decide (pk x = pk m) then m else x) <$> l) = pk <$> l.
Proof.
  rewrite <- list_fmap_compose. apply list_fmap_ext. intros _ x _. simpl.
  by case_decide.
Qed.
End pk_kept.

Lemma db_ok_Recipe_replace (r : Recipe) (db : DB) :
  db_ok db → db_ok (Recipe_replace r db).
Proof.
  intros [Hunique Hissued Htags Hingredients]. split; try done.
  - unfold pk_unique in *.
    by rewrite <- (pk_replace (M:=Recipe) r (objects_all db)) in Hunique.
  - simpl. rewrite Forall_fmap. rewrite Forall_forall in Hissued.
    apply Forall_forall. intros x Hx. simpl. case_decide; [|by apply Hissued].
    replace (id r) with (id x) by done. by apply Hissued.
Qed.

Lemma db_ok_Recipe_delete (r : Recipe) (db : DB) :
  db_ok db → db_ok (Recipe_delete r db).
Proof.
  intros [Hunique Hissued Htags Hingredients]. split; try done.
  - by apply (NoDup_pk_filter (M:=Recipe) (λ x, id x ≠ id r)).
  - simpl. rewrite Forall_forall in Hissued. apply Forall_forall.
    intros x [_ Hx]%list_elem_of_filter. by apply Hissued.
Qed.

Lemma db_ok_recipe_insert (r : Recipe) (db : DB) :
  id r = recipe_id_seq db →
  db_ok db → db_ok (bump_recipe_id_seq (set_recipe_table (λ t, t ++ [r]) db)).
Proof.
  intros Hid [Hunique Hissued Htags Hingredients]. split; try done.
  - unfold pk_unique in *. simpl in *. rewrite fmap_app. apply NoDup_app.
    split; [done|]. split; [|apply NoDup_singleton].
    intros k (x & -> & Hx)%list_elem_of_fmap. simpl.
    rewrite list_elem_of_singleton, Hid.
    rewrite Forall_forall in Hissued. specialize (Hissued x Hx). simpl in *. lia.
  - simpl. apply Forall_app. split.
    + eapply Forall_impl; [done|]. simpl. intros; lia.
    + apply Forall_singleton. lia.
Qed.

Lemma db_ok_Tag_replace (t : Tag) (db : DB) :
  db_ok db → db_ok (Tag_replace t db).
Proof.
  intros [Hunique Hissued Htags Hingredients]. split; try done.
  unfold pk_unique in *.
  by rewrite <- (pk_replace (M:=Tag) t (objects_all db)) in Htags.
Qed.

Lemma db_ok_Tag_delete (t : Tag) (db : DB) : db_ok db → db_ok (Tag_delete t db).
Proof.
  intros [Hunique Hissued Htags Hingredients]. split; try done.
  by apply (NoDup_pk_filter (M:=Tag) (λ x, tag_id x ≠ tag_id t)).
Qed.

Lemma db_ok_Ingredient_replace (i : Ingredient) (db : DB) :
  db_ok db → db_ok (Ingredient_replace i db).
Proof.
  intros [Hunique Hissued Htags Hingredients]. split; try done.
  unfold pk_unique in *.
  by rewrite <- (pk_replace (M:=Ingredient) i (objects_all db)) in Hingredients.
Qed.

Lemma db_ok_Ingredient_delete (i : Ingredient) (db : DB) :
  db_ok db → db_ok (Ingredient_delete i db).
Proof.
  intros [Hunique Hissued Htags Hingredients]. split; try done.
  by apply (NoDup_pk_filter (M:=Ingredient)
              (λ x, ingredient_id x ≠ ingredient_id i)).
Qed.

(** What a recipe action does to the store: nothing, an insert under the
    issued key, a save or a delete. *)
Lemma recipe_handlers_effect (name : string)
    (h : View → DB → Response * DB) (self : View) (db : DB) :
  serializer_class self = RecipeDetailSerializer →
  handler RecipeViewSet.cls name = Some h →
  (h self db).2 = db
  ∨ (∃ r, id r = recipe_id_seq db
          ∧ (h self db).2
            = bump_recipe_id_seq (set_recipe_table (λ t, t ++ [r]) db))
  ∨ (∃ r, (h self db).2 = Recipe_replace r db)
  ∨ (∃ r, (h self db).2 = Recipe_delete r db).
Proof.
  intros Hs Hh. apply handler_mixin in Hh; [|done].
  destruct Hh as [->|[->|[->|[->|[->| ->]]]]].
  - left. unfold ListModelMixin_list. by destruct (cls_get_serializer_class _ _).
  - unfold CreateModelMixin_create.
    change (cls_get_serializer_class RecipeViewSet.cls self)
      with (RecipeViewSet.get_serializer_class self).
    destruct (recipe_serializer_choice self Hs) as [Hreq Hchoice].
    destruct (RecipeViewSet.get_serializer_class self) as [self' s].
    simpl in Hreq, Hchoice.
    destruct (is_valid s false (data (request self'))) as [vd|errs] eqn:Hvalid;
      [|by left].
    simpl. unfold RecipeViewSet.perform_create.
    destruct (auth (request self')) as [u|]; [|by left].
    destruct (recipe_create_row vd u db) as [->|(r & -> & Hid & _)];
      [|by left|].
    { intros k Hk. by eapply recipe_validated_keys. }
    right. left. by exists r.
  - left. unfold RetrieveModelMixin_retrieve. destruct (get_object _ _ _);
      [by destruct (cls_get_serializer_class _ _)|done].
  - unfold UpdateModelMixin_update. destruct (get_object _ _ _); [|by left].
    destruct (cls_get_serializer_class _ _).
    destruct (is_valid _ _ _); [|by left].
    destruct (save_instance _ _ _) as [[m db']|] eqn:Hsave; [|by left].
    apply save_instance_Some in Hsave as [_ [-> _]%Recipe_save_Some].
    right. right. left. by eexists.
  - unfold UpdateModelMixin_update. destruct (get_object _ _ _); [|by left].
    destruct (cls_get_serializer_class _ _).
    destruct (is_valid _ _ _); [|by left].
    destruct (save_instance _ _ _) as [[m db']|] eqn:Hsave; [|by left].
    apply save_instance_Some in Hsave as [_ [-> _]%Recipe_save_Some].
    right. right. left. by eexists.
  - unfold DestroyModelMixin_destroy. destruct (get_object _ _ _); [|by left].
    right. right. right. by eexists.
Qed.

(** What a tag or ingredient action does to the store: nothing, a save or
    a delete. *)
Lemma attr_handlers_effect {M : Type} `{!Model M} (nm : M → string)
    (s : Serializer) (name : string) (h : View → DB → Response * DB)
    (self : View) (db : DB) :
  handler (BaseRecipeAttrViewSet.cls nm s) name = Some h →
  (h self db).2 = db
  ∨ (∃ m, save m db = Some (h self db).2)
  ∨ (∃ m, (h self db).2 = delete m db).
Proof.
  intros Hh. unfold handler in Hh. simpl in Hh.
  destruct (decide _) as [Hname|]; [|done].
  unfold BaseRecipeAttrViewSet.action_methods in Hname.
  unfold mixin_method in Hh.
  repeat (apply elem_of_cons in Hname as [->|Hname];
          [repeat case_decide; try done; simplify_eq|]);
    [..|by apply elem_of_nil in Hname].
  - unfold UpdateModelMixin_update. destruct (get_object _ _ _); [|by left].
    simpl. destruct (is_valid _ _ _); [|by left].
    destruct (save_instance _ _ _) as [[m0 db']|] eqn:Hsave; [|by left].
    apply save_instance_Some in Hsave as [_ Hsave].
    right. left. by eexists.
  - unfold UpdateModelMixin_update. destruct (get_object _ _ _); [|by left].
    simpl. destruct (is_valid _ _ _); [|by left].
    destruct (save_instance _ _ _) as [[m0 db']|] eqn:Hsave; [|by left].
    apply save_instance_Some in Hsave as [_ Hsave].
    right. left. by eexists.
  - by left.
  - unfold DestroyModelMixin_destroy. destruct (get_object _ _ _); [|by left].
    right. right. by eexists.
Qed.

(** Every request keeps the invariant of the store. *)
Lemma handle_db_ok (req : Request) (db : DB) :
  db_ok db → db_ok (handle req db).2.
Proof.
  intros Hok. unfold handle. repeat case_decide; [| | |done].
  - destruct (dispatch_cases RecipeViewSet.cls req db)
      as [(code & b & _ & ->)|(name & h & _ & Hh & ->)]; [done|].
    destruct (recipe_handlers_effect name h (as_view RecipeViewSet.cls req) db)
      as [->|[(r & Hid & ->)|[(r & ->)|(r & ->)]]]; try done.
    + by apply db_ok_recipe_insert.
    + by apply db_ok_Recipe_replace.
    + by apply db_ok_Recipe_delete.
  - destruct (dispatch_cases TagViewSet req db)
      as [(code & b & _ & ->)|(name & h & _ & Hh & ->)]; [done|].
    destruct (attr_handlers_effect tag_name TagSerializer name h
                (as_view TagViewSet req) db Hh)
      as [->|[(t & ->%Tag_save_Some)|(t & ->)]]; [done| |].
    + by apply db_ok_Tag_replace.
    + by apply db_ok_Tag_delete.
  - destruct (dispatch_cases IngredientViewSet req db)
      as [(code & b & _ & ->)|(name & h & _ & Hh & ->)]; [done|].
    destruct (attr_handlers_effect ingredient_name IngredientSerializer name h
                (as_view IngredientViewSet req) db Hh)
      as [->|[(i & ->%Ingredient_save_Some)|(i & ->)]]; [done| |].
    + by apply db_ok_Ingredient_replace.
    + by apply db_ok_Ingredient_delete.
Qed.

(** Along every run each recipe is a row of the first store with its owner
    kept, or was made by a create of its owner. *)
Lemma run_owner_is_creator (reqs : list Request) (db : DB) (r : Recipe) :
  r ∈ recipe_table (run reqs db) →
  (∃ r0, r0 ∈ recipe_table db ∧ id r0 = id r ∧ user r0 = user r)
  ∨ (id r, user r) ∈ creates reqs db.
Proof.
  revert db. induction reqs as [|req rest IH]; intros db Hr; simpl in *.
  { left. by exists r. }
  destruct (IH _ Hr) as [(r1 & Hr1 & Hid1 & Huser1)|Hlog].
  - destruct (handle_recipe_rows req db r1 Hr1)
      as [(r0 & Hr0 & Hid0 & Huser0 & _)|(Hnew & Hauth & Hstatus)].
    + left. exists r0. split; [done|]. split; congruence.
    + right. rewrite Hauth. rewrite decide_True by done.
      rewrite <- Hid1, <- Huser1, Hnew. left.
  - right. destruct (auth req); [case_decide; [right|]|]; done.
Qed.

Lemma run_db_ok (reqs : list Request) (db : DB) :
  db_ok db → db_ok (run reqs db).
Proof.
  revert db. induction reqs as [|req rest IH]; intros db Hok; [done|].
  simpl. by apply IH, handle_db_ok.
Qed.

Lemma db_ok_empty_db : db_ok empty_db.
Proof. split; unfold pk_unique; simpl; constructor. Qed.

(** No create or update of a recipe writes a tag, an ingredient or an
    association row. *)
Lemma recipe_write_attaches_nothing (m : http_method) (p : path)
    (a : option Z) (q : list (string * string)) (d : gmap string value)
    (db : DB) :
  (m = POST ∧ p = Collection "recipes")
  ∨ (m ∈ [PUT; PATCH] ∧ ∃ k, p = Detail "recipes" k) →
  let db' := (handle (http m p a q d) db).2 in
  tag_table db' = tag_table db
  ∧ ingredient_table db' = ingredient_table db
  ∧ recipe_tags db' = recipe_tags db
  ∧ recipe_ingredients db' = recipe_ingredients db.
Proof.
  intros [[-> ->]|[Hm [k ->]]]; (destruct a as [u|]; [|done]); cbv zeta.
  - rewrite recipes_create_routed. unfold CreateModelMixin_create.
    destruct (cls_get_serializer_class _ _) as [self s].
    destruct (is_valid _ _ _) as [vd|]; [|done]. simpl.
    unfold RecipeViewSet.perform_create. destruct (auth _); [|done].
    unfold save_new. simpl. unfold Recipe_objects_create.
    destruct (dict_get _ _) as [[]|]; try done.
    by destruct (fits_positive_integer_column _).
  - rewrite recipes_detail_routed. rewrite !elem_of_cons, elem_of_nil in Hm.
    destruct Hm as [->|[->|[]]]; unfold UpdateModelMixin_update;
      (destruct (get_object _ _ _); [|done]);
      destruct (cls_get_serializer_class _ _) as [self s];
      (destruct (is_valid _ _ _); [|done]);
      (destruct (save_instance _ _ _) as [[r0 db']|] eqn:Hsave; [|done]);
      by apply save_instance_Some in Hsave as [_ [-> _]%Recipe_save_Some].
Qed.


(** ** The tag and ingredient lists *)

Lemma tags_list_routed (u : Z) (q : list (string * string))
    (d : gmap string value) (db : DB) :
  handle (http GET (Collection "tags") (Some u) q d) db
  = ok HTTP_200_OK
      (VList ((λ t, VObj (to_representation TagSerializer t))
                <$> order_by_desc String.le tag_name
                      (filter (λ t, Some (tag_user t) = Some u)
                         (tag_table db))))
      db.
Proof. reflexivity. Qed.

Lemma ingredients_list_routed (u : Z) (q : list (string * string))
    (d : gmap string value) (db : DB) :
  handle (http GET (Collection "ingredients") (Some u) q d) db
  = ok HTTP_200_OK
      (VList ((λ i, VObj (to_representation IngredientSerializer i))
                <$> order_by_desc String.le ingredient_name
                      (filter (λ i, Some (ingredient_user i) = Some u)
                         (ingredient_table db))))
      db.
Proof. reflexivity. Qed.

(** ** Requests that do not write *)

Section no_write_facts.
Context {M : Type} `{!Model M} (cls : ViewSetClass M).

(** An action method answers 200, 201 or 204, or returns the store it
    was given. *)
Lemma handler_success_or_same (name : string)
    (h : View → DB → Response * DB) (self : View) (db : DB) :
  cls_extra_actions cls = [] → handler cls name = Some h →
  (h self db).2 = db
  ∨ status_code (h self db).1
    ∈ [HTTP_200_OK; HTTP_201_CREATED; HTTP_204_NO_CONTENT].
Proof.
  intros Hextra Hh. apply handler_mixin in Hh; [|done].
  destruct Hh as [->|[->|[->|[->|[->| ->]]]]].
  - left. unfold ListModelMixin_list.
    by destruct (cls_get_serializer_class _ _).
  - unfold CreateModelMixin_create.
    destruct (cls_get_serializer_class _ _).
    destruct (is_valid _ _ _); [|by left].
    destruct (cls_perform_create _ _ _ _) as [[]|]; [|by left].
    right. simpl. in_codes.
  - left. unfold RetrieveModelMixin_retrieve.
    destruct (get_object _ _ _); [|done].
    by destruct (cls_get_serializer_class _ _).
  - unfold UpdateModelMixin_update. destruct (get_object _ _ _); [|by left].
    destruct (cls_get_serializer_class _ _).
    destruct (is_valid _ _ _); [|by left].
    destruct (save_instance _ _ _) as [[]|]; [|by left].
    right. simpl. in_codes.
  - unfold UpdateModelMixin_update. destruct (get_object _ _ _); [|by left].
    destruct (cls_get_serializer_class _ _).
    destruct (is_valid _ _ _); [|by left].
    destruct (save_instance _ _ _) as [[]|]; [|by left].
    right. simpl. in_codes.
  - unfold DestroyModelMixin_destroy. destruct (get_object _ _ _); [|by left].
    right. simpl. in_codes.
Qed.

Lemma dispatch_success_or_same (req : Request) (db : DB) :
  cls_extra_actions cls = [] →
  (dispatch cls req db).2 = db
  ∨ status_code (dispatch cls req db).1
    ∈ [HTTP_200_OK; HTTP_201_CREATED; HTTP_204_NO_CONTENT].
Proof.
  intros Hextra.
  destruct (dispatch_cases cls req db)
    as [(code & b & _ & ->)|(name & h & _ & Hh & ->)]; [by left|].
  by apply (handler_success_or_same name).
Qed.

(** Without extra actions a GET is bound to [list] or [retrieve] only. *)
Lemma dispatch_GET_same (req : Request) (db : DB) :
  cls_extra_actions cls = [] → method req = GET →
  (dispatch cls req db).2 = db.
Proof.
  intros Hextra Hm. unfold dispatch.
  destruct (bound_methods cls (url req)) as [|b bs] eqn:Hbound; [done|].
  destruct (forallb _ _); [|done].
  destruct (action (as_view cls req)) as [name|] eqn:Hact; [|done].
  simpl. destruct (handler cls name) as [h|] eqn:Hh; [|done].
  assert (name = "list" ∨ name = "retrieve") as Hname.
  { unfold as_view in Hact. simpl in Hact. rewrite Hm in Hact.
    destruct (head _) as [[m' n']|] eqn:Hhead; [|done].
    simpl in Hact. simplify_eq.
    apply head_filter_Some in Hhead as [Hin Hget]. simpl in Hget. subst m'.
    unfold bound_methods in Hin.
    apply list_elem_of_filter in Hin as [_ Hin].
    unfold action_map in Hin. rewrite Hextra in Hin.
    destruct (url req); simpl in Hin;
      repeat (apply elem_of_cons in Hin as [Hin|Hin]; [simplify_eq; auto|]);
      by apply elem_of_nil in Hin. }
  unfold handler in Hh. rewrite Hextra in Hh.
  destruct (decide _); [|done]. unfold mixin_method in Hh.
  destruct Hname as [-> | ->]; repeat case_decide; simplify_eq.
  - unfold ListModelMixin_list. by destruct (cls_get_serializer_class _ _).
  - unfold RetrieveModelMixin_retrieve. destruct (get_object _ _ _); [|done].
    by destruct (cls_get_serializer_class _ _).
Qed.

(** A request without a user is stopped by [IsAuthenticated]. *)
Lemma dispatch_unauthenticated (req : Request) (db : DB) :
  cls_permission_classes cls = [IsAuthenticated] → auth req = None →
  dispatch cls req db
  = if bound_methods cls (url req) is [] then ok HTTP_404_NOT_FOUND VNull db
    else ok HTTP_401_UNAUTHORIZED NotAuthenticated db.
Proof.
  intros Hperm Hauth. unfold dispatch. rewrite Hperm. simpl. rewrite Hauth.
  by destruct (bound_methods cls (url req)).
Qed.
End no_write_facts.

(** ** What the tag and ingredient endpoints can do to the store *)

Lemma Tag_replace_ids (t : Tag) (db : DB) :
  tag_id <$> tag_table (Tag_replace t db) = tag_id <$> tag_table db.
Proof. exact (pk_replace (M:=Tag) t (tag_table db)). Qed.

Lemma Ingredient_replace_ids (i : Ingredient) (db : DB) :
  ingredient_id <$> ingredient_table (Ingredient_replace i db)
  = ingredient_id <$> ingredient_table db.
Proof. exact (pk_replace (M:=Ingredient) i (ingredient_table db)). Qed.

Lemma Recipe_replace_ids (r : Recipe) (db : DB) :
  id <$> recipe_table (Recipe_replace r db) = id <$> recipe_table db.
Proof. exact (pk_replace (M:=Recipe) r (recipe_table db)). Qed.

Lemma tags_request_effect (req : Request) (db : DB) :
  path_prefix (url req) = "tags" →
  (handle req db).2 = db
  ∨ (∃ t, (handle req db).2 = Tag_replace t db)
  ∨ (∃ t, (handle req db).2 = Tag_delete t db).
Proof.
  intros Hp. unfold handle. rewrite Hp. simpl.
  destruct (dispatch_cases TagViewSet req db)
    as [(code & b & _ & ->)|(name & h & _ & Hh & ->)]; [by left|].
  destruct (attr_handlers_effect tag_name TagSerializer name h
              (as_view TagViewSet req) db Hh)
    as [?|[(t & ?%Tag_save_Some)|?]]; eauto.
Qed.

Lemma ingredients_request_effect (req : Request) (db : DB) :
  path_prefix (url req) = "ingredients" →
  (handle req db).2 = db
  ∨ (∃ i, (handle req db).2 = Ingredient_replace i db)
  ∨ (∃ i, (handle req db).2 = Ingredient_delete i db).
Proof.
  intros Hp. unfold handle. rewrite Hp. simpl.
  destruct (dispatch_cases IngredientViewSet req db)
    as [(code & b & _ & ->)|(name & h & _ & Hh & ->)]; [by left|].
  destruct (attr_handlers_effect ingredient_name IngredientSerializer name h
              (as_view IngredientViewSet req) db Hh)
    as [?|[(i & ?%Ingredient_save_Some)|?]]; eauto.
Qed.

Lemma attr_post_is_refused (p : path) (a : option Z)
    (q : list (string * string)) (d : gmap string value) (db : DB) :
  path_prefix p ∈ ["tags"; "ingredients"] →
  (handle (http POST p a q d) db).2 = db
  ∧ status_code (handle (http POST p a q d) db).1
    ∈ [HTTP_401_UNAUTHORIZED; HTTP_404_NOT_FOUND;
       HTTP_405_METHOD_NOT_ALLOWED].
Proof.
  rewrite !elem_of_cons, elem_of_nil. intros [Hp|[Hp|[]]];
    destruct p as [s|s k|s k n]; simpl in Hp; subst s;
    destruct a as [u|]; (split; [reflexivity|vm_compute; in_codes]).
Qed.

(** ** Validated data and the attributes it sets *)

Section validation_facts.
Context {M : Type} `{!Model M}.

(** The validated data hold, for each field that is run, is declared and
    is present with a valid value, that value: whatever the errors. *)
Lemma run_fields_validated (partial : bool) (d : gmap string value)
    (fs : list string) :
  (run_fields (M:=M) partial d fs).2
  = omap (λ f, raw ← d !! f; pair f <$> validate_field (M:=M) f raw) fs.
Proof.
  induction fs as [|f fs IH]; [done|]. simpl.
  destruct (run_fields partial d fs) as [errs vd]. simpl in IH. subst vd.
  unfold validate_field.
  destruct (model_field f) as [decl|]; simpl.
  - destruct (d !! f) as [raw|]; simpl.
    + by destruct (to_internal (ftype decl) raw).
    + destruct partial; [done|]. by destruct (required decl).
  - by destruct (d !! f).
Qed.

Lemma run_fields_no_errors (partial : bool) (d : gmap string value)
    (fs : list string) :
  (∀ f, f ∈ fs →
     match d !! f with
     | Some raw => is_Some (validate_field (M:=M) f raw)
     | None =>
         partial = true
         ∨ (∀ decl, model_field (M:=M) f = Some decl → required decl = false)
     end) →
  (run_fields (M:=M) partial d fs).1 = [].
Proof.
  induction fs as [|f fs IH]; intros Hok; [done|]. simpl.
  specialize (IH (λ g Hg, Hok g (list_elem_of_further _ _ _ Hg))).
  pose proof (Hok f (list_elem_of_here _ _)) as Hf.
  destruct (run_fields partial d fs) as [errs vd]. simpl in IH. subst errs.
  unfold validate_field in Hf.
  destruct (model_field f) as [decl|]; [|done].
  destruct (d !! f) as [raw|]; simpl in Hf.
  - destruct (to_internal (ftype decl) raw); [done|]. by destruct Hf.
  - destruct Hf as [->|Hreq]; [done|].
    destruct partial; [done|]. by rewrite (Hreq decl).
Qed.

(** A present field that does not validate is reported with its
    codes. *)
Lemma run_fields_error (partial : bool) (d : gmap string value)
    (fs : list string) (f : string) (raw : value) :
  f ∈ fs → is_Some (model_field (M:=M) f) → d !! f = Some raw →
  validate_field (M:=M) f raw = None →
  (f, field_codes (M:=M) f raw) ∈ (run_fields (M:=M) partial d fs).1.
Proof.
  intros Hf [decl Hdecl] Hraw Hbad.
  induction fs as [|g fs IH]; [by apply elem_of_nil in Hf|]. simpl.
  destruct (run_fields partial d fs) as [errs vd]. simpl in IH.
  apply elem_of_cons in Hf as [<-|Hf].
  - rewrite Hdecl, Hraw. unfold validate_field in Hbad.
    unfold field_codes. rewrite Hdecl in *. simpl in Hbad.
    destruct (to_internal (ftype decl) raw); [done|left].
  - specialize (IH Hf).
    destruct (model_field g) as [dg|]; [|done].
    destruct (d !! g) as [rg|].
    + destruct (to_internal _ _); [done|by right].
    + destruct partial; [done|]. destruct (required dg); [by right|done].
Qed.

(** A required field that a full payload does not have is reported. *)
Lemma run_fields_required (d : gmap string value) (fs : list string)
    (f : string) (decl : field_decl) :
  f ∈ fs → model_field (M:=M) f = Some decl → required decl = true →
  d !! f = None →
  (f, ["required"]) ∈ (run_fields (M:=M) false d fs).1.
Proof.
  intros Hf Hdecl Hreq Hraw.
  induction fs as [|g fs IH]; [by apply elem_of_nil in Hf|]. simpl.
  destruct (run_fields false d fs) as [errs vd]. simpl in IH.
  apply elem_of_cons in Hf as [<-|Hf].
  - rewrite Hdecl, Hraw, Hreq. left.
  - specialize (IH Hf).
    destruct (model_field g) as [dg|]; [|done].
    destruct (d !! g) as [rg|].
    + destruct (to_internal _ _); [done|by right].
    + destruct (required dg); [by right|done].
Qed.

Lemma is_valid_acceptable (s : Serializer) (partial : bool)
    (d : gmap string value) :
  acceptable (M:=M) s partial d →
  is_valid (M:=M) s partial d
  = inl (omap (λ f, raw ← d !! f; pair f <$> validate_field (M:=M) f raw)
           (writable_fields s)).
Proof.
  intros Hok. unfold is_valid.
  pose proof (run_fields_validated partial d (writable_fields s)) as Hvd.
  pose proof (run_fields_no_errors partial d (writable_fields s) Hok) as He.
  destruct (run_fields partial d (writable_fields s)) as [errs vd].
  simpl in *. by subst.
Qed.

Lemma is_valid_error (s : Serializer) (partial : bool)
    (d : gmap string value) (f : string) (raw : value) :
  f ∈ writable_fields s → is_Some (model_field (M:=M) f) →
  d !! f = Some raw → validate_field (M:=M) f raw = None →
  ∃ errs, (f, field_codes (M:=M) f raw) ∈ errs
          ∧ is_valid (M:=M) s partial d = inr errs.
Proof.
  intros Hf Hdecl Hraw Hbad. unfold is_valid.
  pose proof (run_fields_error partial d (writable_fields s) f raw
                Hf Hdecl Hraw Hbad) as Hin.
  destruct (run_fields partial d (writable_fields s)) as [errs vd].
  simpl in Hin. exists errs. split; [done|].
  destruct errs; [by apply elem_of_nil in Hin|done].
Qed.

Lemma is_valid_required (s : Serializer) (d : gmap string value)
    (f : string) (decl : field_decl) :
  f ∈ writable_fields s → model_field (M:=M) f = Some decl →
  required decl = true → d !! f = None →
  ∃ errs, (f, ["required"]) ∈ errs ∧ is_valid (M:=M) s false d = inr errs.
Proof.
  intros Hf Hdecl Hreq Hraw. unfold is_valid.
  pose proof (run_fields_required d (writable_fields s) f decl
                Hf Hdecl Hreq Hraw) as Hin.
  destruct (run_fields false d (writable_fields s)) as [errs vd].
  simpl in Hin. exists errs. split; [done|].
  destruct errs; [by apply elem_of_nil in Hin|done].
Qed.

Lemma is_valid_refused (s : Serializer) (partial : bool)
    (d : gmap string value) (f : string) (codes : list string) :
  f ∈ writable_fields s → is_Some (model_field (M:=M) f) →
  refused_at (M:=M) partial d f codes →
  ∃ errs, (f, codes) ∈ errs ∧ is_valid (M:=M) s partial d = inr errs.
Proof.
  intros Hf Hdecl. unfold refused_at.
  destruct (d !! f) as [raw|] eqn:Hraw.
  - intros [Hbad ->]. by apply is_valid_error.
  - intros (-> & -> & decl & Hfield & Hreq). by eapply is_valid_required.
Qed.
End validation_facts.

Lemma init_kwargs_cons {M : Type} `{!Model M} (k : string) (v : value)
    (kwargs : odict) (x : M) :
  init_kwargs ((k, v) :: kwargs) x = init_kwargs kwargs (setattr k v x).
Proof. reflexivity. Qed.

Section attribute_facts.
Context {M : Type} `{!Model M} (fs : list string).
Local Arguments init_kwargs : simpl never.
Hypothesis set_other :
  ∀ f g v (x : M), f ≠ g → getattr g (setattr f v x) = getattr g x.
Hypothesis set_same :
  ∀ f raw v (x : M), f ∈ fs → validate_field (M:=M) f raw = Some v →
    getattr f (setattr f v x) = Some v.

(** After the validated data of an acceptable payload are set, a field
    that was run holds its validated value when the payload has it and
    its old value when not. *)
Lemma getattr_init_kwargs (d : gmap string value) (gs : list string)
    (g : string) (x : M) :
  NoDup gs → gs ⊆ fs → g ∈ gs →
  (∀ f raw, f ∈ gs → d !! f = Some raw →
     is_Some (validate_field (M:=M) f raw)) →
  getattr g
    (init_kwargs
       (omap (λ f, raw ← d !! f; pair f <$> validate_field (M:=M) f raw) gs)
       x)
  = field_after (M:=M) d g (getattr g x).
Proof.
  revert x. induction gs as [|f gs IH]; intros x Hnodup Hsub Hg Hvalid.
  { by apply elem_of_nil in Hg. }
  apply NoDup_cons in Hnodup as [Hf Hnodup].
  assert (gs ⊆ fs) as Hsub' by (intros k Hk; apply Hsub; by right).
  assert (∀ f' raw, f' ∈ gs → d !! f' = Some raw →
            is_Some (validate_field (M:=M) f' raw)) as Hvalid'
    by (intros f' raw Hf'; apply Hvalid; by right).
  simpl. apply elem_of_cons in Hg as [->|Hg].
  - (* the head is the field asked for: the rest does not set it *)
    assert (∀ y, getattr f
              (init_kwargs
                 (omap (λ f0, raw ← d !! f0;
                              pair f0 <$> validate_field (M:=M) f0 raw) gs)
                 y) = getattr f y) as Hrest.
    { intros y. apply (init_kwargs_frame (getattr f) [f]).
      - intros f' v z Hf'. apply set_other. intros ->. apply Hf'. left.
      - intros k Hk. rewrite list_elem_of_singleton. intros ->.
        apply Hf. unfold keys in Hk.
        apply list_elem_of_fmap in Hk as ([k' v'] & -> & Hk).
        apply list_elem_of_omap in Hk as (f' & Hf' & Heq).
        destruct (d !! f') as [raw|]; [|done]. simpl in Heq.
        destruct (validate_field f' raw); [|done].
        simpl in Heq. by simplify_eq. }
    unfold field_after. destruct (d !! f) as [raw|] eqn:Hraw; simpl.
    + destruct (Hvalid f raw) as [v Hv]; [by left|done|].
      rewrite Hv. simpl. rewrite init_kwargs_cons, Hrest.
      apply (set_same f raw); [|done]. apply Hsub. left.
    + apply Hrest.
  - assert (f ≠ g) as Hne by (intros ->; done).
    destruct (d !! f) as [raw|] eqn:Hraw; simpl; [|by apply IH].
    destruct (validate_field f raw) as [v|]; simpl; [|by apply IH].
    rewrite init_kwargs_cons, IH by done. by rewrite set_other.
Qed.
End attribute_facts.

(** ** Attributes of a recipe: what is set is what is read *)

Lemma Recipe_set_other (f g : string) (v : value) (r : Recipe) :
  f ≠ g → getattr g (setattr f v r) = getattr g r.
Proof.
  intros Hne. simpl. unfold Recipe_setattr.
  destruct v; try done; repeat case_decide; subst; try done;
    unfold Recipe_getattr; simpl; repeat case_decide; congruence.
Qed.

Lemma Recipe_set_same (f : string) (raw v : value) (r : Recipe) :
  f ∈ writable_fields RecipeDetailSerializer →
  validate_field (M:=Recipe) f raw = Some v →
  getattr f (setattr f v r) = Some v.
Proof.
  rewrite writable_RecipeDetailSerializer, !elem_of_cons, elem_of_nil.
  unfold validate_field.
  intros [->|[->|[->|[->|[->|[]]]]]]; cbn [model_field Recipe_Model mbind
    option_bind Recipe_model_field]; simpl;
    (destruct (to_internal _ raw) as [v'|] eqn:Hv; [|done]);
    intros [= <-]; apply to_internal_shape in Hv as [x ->]; done.
Qed.

(** ** The owner's requests on a recipe *)

Lemma recipe_get_object_owned (req : Request) (name : string) (db : DB)
    (r : Recipe) :
  pk_unique (M:=Recipe) db → r ∈ recipe_table db →
  auth req = Some (user r) →
  get_object RecipeViewSet.cls
    (detail_view req name (id r) RecipeDetailSerializer) db = Some r.
Proof.
  intros Hunique Hr Hauth.
  by apply (get_object_owned RecipeViewSet.cls RecipeViewSet_scoped).
Qed.

Lemma recipe_get_object_missing (req : Request) (name : string) (db : DB)
    (k : Z) :
  (∀ x, x ∈ recipe_table db → Some (user x) = auth req → id x ≠ k) →
  get_object RecipeViewSet.cls
    (detail_view req name k RecipeDetailSerializer) db = None.
Proof.
  intros Hmissing.
  destruct (get_object _ _ _) as [x|] eqn:Hget; [|done].
  apply (get_object_Some _ RecipeViewSet_scoped) in Hget as (Hx & Hu & Hk).
  simpl in Hk, Hu. destruct (Hmissing x Hx Hu). congruence.
Qed.

Lemma recipe_validated_omap_keys (d : gmap string value) (k : string) :
  k ∈ keys (omap (λ f, raw ← d !! f;
                       pair f <$> validate_field (M:=Recipe) f raw)
              (writable_fields RecipeDetailSerializer)) →
  k ∈ writable_fields RecipeDetailSerializer.
Proof.
  unfold keys. intros ([k' v] & -> & Hk)%list_elem_of_fmap.
  apply list_elem_of_omap in Hk as (f & Hf & Heq).
  destruct (d !! f) as [raw|]; [|done]. simpl in Heq.
  destruct (validate_field f raw); [|done]. simpl in Heq. by simplify_eq.
Qed.

Lemma writable_not_protected (k : string) :
  k ∈ writable_fields RecipeDetailSerializer →
  (k ∉ ["id"]) ∧ (k ∉ ["user"]) ∧ (k ∉ ["image"]).
Proof.
  rewrite writable_RecipeDetailSerializer, !list_elem_of_singleton.
  intros Hk.
  repeat (apply elem_of_cons in Hk as [->|Hk]; [done|]).
  by apply elem_of_nil in Hk.
Qed.

Lemma NoDup_writable_RecipeDetailSerializer :
  NoDup (writable_fields RecipeDetailSerializer).
Proof. rewrite writable_RecipeDetailSerializer. by_compute. Qed.

Lemma recipe_writable_declared (f : string) :
  f ∈ writable_fields RecipeDetailSerializer →
  is_Some (model_field (M:=Recipe) f).
Proof.
  rewrite writable_RecipeDetailSerializer. intros Hf.
  repeat (apply elem_of_cons in Hf as [->|Hf]; [by eexists|]).
  by apply elem_of_nil in Hf.
Qed.

(** ** Creating a recipe *)

Lemma recipe_save_new_explicit (vd : odict) (u : Z) (db : DB) :
  "user" ∉ keys vd →
  let r := setattr "user" (VInt u)
             (init_kwargs vd (blank_recipe (recipe_id_seq db) u)) in
  save_new vd [("user", VInt u)] db
  = if fits_positive_integer_column (time_minutes r)
    then Some (r, bump_recipe_id_seq (set_recipe_table (λ t, t ++ [r]) db))
    else None.
Proof.
  intros Hfresh. unfold save_new, dict_merge. simpl.
  rewrite dict_set_fresh by done. unfold Recipe_objects_create.
  rewrite dict_get_app_fresh by done. by rewrite foldl_app.
Qed.

(** A create by an authenticated caller answers 400 or 500 and stores
    nothing, or answers 201 with the detail representation of the row it
    appends: the row has the key the sequence issued, the caller as owner,
    no image. *)
Lemma recipe_create_cases (u : Z) (q : list (string * string))
    (d : gmap string value) (db : DB) :
  (∃ errs,
     handle (http POST (Collection "recipes") (Some u) q d) db
     = ({| status_code := HTTP_400_BAD_REQUEST; body := errors_body errs |},
        db))
  ∨ handle (http POST (Collection "recipes") (Some u) q d) db
    = ({| status_code := HTTP_500_INTERNAL_SERVER_ERROR; body := VNull |}, db)
  ∨ (∃ r,
       handle (http POST (Collection "recipes") (Some u) q d) db
       = ({| status_code := HTTP_201_CREATED;
             body := VObj (to_representation RecipeDetailSerializer r) |},
          bump_recipe_id_seq (set_recipe_table (λ t, t ++ [r]) db))
       ∧ id r = recipe_id_seq db ∧ user r = u ∧ image r = None).
Proof.
  rewrite recipes_create_routed. unfold CreateModelMixin_create.
  change (cls_get_serializer_class RecipeViewSet.cls)
    with RecipeViewSet.get_serializer_class.
  rewrite get_serializer_class_other by done. simpl.
  destruct (is_valid RecipeDetailSerializer false d) as [vd|errs] eqn:Hvalid;
    [|left; by exists errs].
  right. unfold RecipeViewSet.perform_create.
  change (auth (request (view_of _ _ _ _))) with (Some u). cbv iota beta.
  destruct (recipe_create_row vd u db)
    as [->|(r & -> & Hid & Huser & Himage)]; [|by left|].
  { intros k Hk. eapply recipe_validated_keys; [by right|done..]. }
  right. by exists r.
Qed.





#[local] Arguments CharField_text : simpl never.
#[local] Arguments IntegerField_value : simpl never.
#[local] Arguments IntegerField_str : simpl never.
#[local] Arguments DecimalField_text : simpl never.


(** The minutes of a row that holds what a save of [d] writes fit the
    column when [d] says so. *)
Lemma minutes_fit_row (d : gmap string value) (old : Z) (r : Recipe) :
  minutes_fit d old →
  getattr "time_minutes" r
  = field_after (M:=Recipe) d "time_minutes" (Some (VInt old)) →
  fits_positive_integer_column (time_minutes r) = true.
Proof.
  intros Hfit Hr. apply bool_decide_eq_true, Hfit. by rewrite <- Hr.
Qed.

(** A create with an acceptable payload makes the row of the validated
    data, and answers 201 unless the insert raises. *)
Lemma recipe_create_acceptable (db : DB) (u : Z) (q : list (string * string))
    (d : gmap string value) :
  acceptable (M:=Recipe) RecipeDetailSerializer false d →
  ∃ r,
    handle (http POST (Collection "recipes") (Some u) q d) db
    = (if fits_positive_integer_column (time_minutes r)
       then ({| status_code := HTTP_201_CREATED;
                body := VObj (to_representation RecipeDetailSerializer r) |},
             bump_recipe_id_seq (set_recipe_table (λ t, t ++ [r]) db))
       else ({| status_code := HTTP_500_INTERNAL_SERVER_ERROR;
                body := VNull |}, db))
    ∧ id r = recipe_id_seq db ∧ user r = u ∧ image r = None
    ∧ (∀ f, f ∈ writable_fields RecipeDetailSerializer →
         getattr f r
         = field_after (M:=Recipe) d f
             (getattr f (blank_recipe (recipe_id_seq db) u))).
Proof.
  intros Hok.
  set (vd := omap (λ f, raw ← d !! f;
                        pair f <$> validate_field (M:=Recipe) f raw)
               (writable_fields RecipeDetailSerializer)).
  assert (∀ k, k ∈ keys vd → (k ∉ ["id"]) ∧ (k ∉ ["user"]) ∧ (k ∉ ["image"]))
    as Hkeys.
  { intros k Hk.
    by apply writable_not_protected, (recipe_validated_omap_keys d). }
  assert ("user" ∉ keys vd) as Hfresh.
  { intros Hin. destruct (Hkeys _ Hin) as (_ & Hu & _). apply Hu. left. }
  exists (setattr "user" (VInt u)
            (init_kwargs vd (blank_recipe (recipe_id_seq db) u))).
  split; [|split; [|split; [|split]]].
  - rewrite recipes_create_routed. unfold CreateModelMixin_create.
    change (cls_get_serializer_class RecipeViewSet.cls)
      with RecipeViewSet.get_serializer_class.
    rewrite get_serializer_class_other by done. simpl.
    rewrite (is_valid_acceptable (M:=Recipe)) by done.
    unfold RecipeViewSet.perform_create.
    change (auth (request (view_of _ _ _ _))) with (Some u). cbv iota beta.
    fold vd. rewrite recipe_save_new_explicit by done. cbv zeta.
    by destruct (fits_positive_integer_column _).
  - simpl.
    apply (init_kwargs_frame id ["id"]
             vd (blank_recipe (recipe_id_seq db) u)); [|apply Hkeys].
    apply Recipe_setattr_id.
  - done.
  - simpl.
    apply (init_kwargs_frame image ["image"]
             vd (blank_recipe (recipe_id_seq db) u)); [|apply Hkeys].
    apply Recipe_setattr_image.
  - intros f Hf. rewrite Recipe_set_other.
    + apply (getattr_init_kwargs (writable_fields RecipeDetailSerializer)
               Recipe_set_other Recipe_set_same d);
        [apply NoDup_writable_RecipeDetailSerializer|done|done|].
      intros g raw Hg Hraw. specialize (Hok g Hg). by rewrite Hraw in Hok.
    + intros <-. destruct (writable_not_protected _ Hf) as (_ & Hu & _).
      apply Hu. left.
Qed.

(** An update by the owner with an acceptable payload sets the validated
    data on the row, and answers 200 unless the save raises. *)
Lemma recipe_update_acceptable (db : DB) (r : Recipe) (m : http_method)
    (q : list (string * string)) (d : gmap string value) :
  pk_unique (M:=Recipe) db → r ∈ recipe_table db → m ∈ [PUT; PATCH] →
  acceptable (M:=Recipe) RecipeDetailSerializer (bool_decide (m = PATCH)) d →
  ∃ r',
    handle (http m (Detail "recipes" (id r)) (Some (user r)) q d) db
    = (if fits_positive_integer_column (time_minutes r')
       then ({| status_code := HTTP_200_OK;
                body := VObj (to_representation RecipeDetailSerializer r') |},
             Recipe_replace r' db)
       else ({| status_code := HTTP_500_INTERNAL_SERVER_ERROR;
                body := VNull |}, db))
    ∧ id r' = id r ∧ user r' = user r ∧ image r' = image r
    ∧ (∀ f, f ∈ writable_fields RecipeDetailSerializer →
         getattr f r' = field_after (M:=Recipe) d f (getattr f r)).
Proof.
  intros Hunique Hr Hm Hok.
  set (vd := omap (λ f, raw ← d !! f;
                        pair f <$> validate_field (M:=Recipe) f raw)
               (writable_fields RecipeDetailSerializer)).
  exists (init_kwargs vd r).
  split; [|split; [|split; [|split]]].
  - rewrite recipes_detail_routed.
    rewrite !elem_of_cons, elem_of_nil in Hm.
    destruct Hm as [->|[->|[]]]; unfold UpdateModelMixin_update;
      rewrite recipe_get_object_owned by done;
      change (cls_get_serializer_class RecipeViewSet.cls)
        with RecipeViewSet.get_serializer_class;
      unfold detail_view; rewrite get_serializer_class_other by done;
      simpl; rewrite (is_valid_acceptable (M:=Recipe)) by done;
      fold vd; unfold save_instance; simpl; unfold Recipe_save;
      by destruct (fits_positive_integer_column _).
  - apply (init_kwargs_frame id ["id"]); [apply Recipe_setattr_id|].
    intros k Hk. by apply writable_not_protected, (recipe_validated_omap_keys d).
  - apply (init_kwargs_frame user ["user"]); [apply Recipe_setattr_user|].
    intros k Hk. by apply writable_not_protected, (recipe_validated_omap_keys d).
  - apply (init_kwargs_frame image ["image"]); [apply Recipe_setattr_image|].
    intros k Hk. by apply writable_not_protected, (recipe_validated_omap_keys d).
  - intros f Hf.
    apply (getattr_init_kwargs (writable_fields RecipeDetailSerializer)
             Recipe_set_other Recipe_set_same d);
      [apply NoDup_writable_RecipeDetailSerializer|done|done|].
    intros g raw Hg Hraw. specialize (Hok g Hg). by rewrite Hraw in Hok.
Qed.

(** A create, and an update by the owner, of a payload that is refused at
    a field is a bad request that names the field. *)
Lemma recipe_create_refused (db : DB) (u : Z) (q : list (string * string))
    (d : gmap string value) (f : string) (codes : list string) :
  f ∈ writable_fields RecipeDetailSerializer →
  refused_at (M:=Recipe) false d f codes →
  ∃ errs, (f, codes) ∈ errs
    ∧ handle (http POST (Collection "recipes") (Some u) q d) db
      = ({| status_code := HTTP_400_BAD_REQUEST; body := errors_body errs |},
         db).
Proof.
  intros Hf Hbad. pose proof (recipe_writable_declared f Hf) as Hdecl.
  rewrite recipes_create_routed. unfold CreateModelMixin_create.
  change (cls_get_serializer_class RecipeViewSet.cls)
    with RecipeViewSet.get_serializer_class.
  rewrite get_serializer_class_other by done. simpl.
  destruct (is_valid_refused (M:=Recipe) RecipeDetailSerializer false d f
              codes Hf Hdecl Hbad) as (errs & Hin & ->).
  by exists errs.
Qed.

Lemma recipe_update_refused (db : DB) (r : Recipe) (m : http_method)
    (q : list (string * string)) (d : gmap string value) (f : string)
    (codes : list string) :
  pk_unique (M:=Recipe) db → r ∈ recipe_table db → m ∈ [PUT; PATCH] →
  f ∈ writable_fields RecipeDetailSerializer →
  refused_at (M:=Recipe) (bool_decide (m = PATCH)) d f codes →
  ∃ errs, (f, codes) ∈ errs
    ∧ handle (http m (Detail "recipes" (id r)) (Some (user r)) q d) db
      = ({| status_code := HTTP_400_BAD_REQUEST; body := errors_body errs |},
         db).
Proof.
  intros Hunique Hr Hm Hf Hbad.
  pose proof (recipe_writable_declared f Hf) as Hdecl.
  rewrite recipes_detail_routed.
  rewrite !elem_of_cons, elem_of_nil in Hm.
  destruct Hm as [->|[->|[]]]; unfold UpdateModelMixin_update;
    rewrite recipe_get_object_owned by done;
    change (cls_get_serializer_class RecipeViewSet.cls)
      with RecipeViewSet.get_serializer_class;
    unfold detail_view; rewrite get_serializer_class_other by done;
    simpl.
  - destruct (is_valid_refused (M:=Recipe) RecipeDetailSerializer false d f
                codes Hf Hdecl Hbad) as (errs & Hin & ->).
    by exists errs.
  - destruct (is_valid_refused (M:=Recipe) RecipeDetailSerializer true d f
                codes Hf Hdecl Hbad) as (errs & Hin & ->).
    by exists errs.
Qed.

(** The entry of a failing field in the data of a 400. *)
Lemma errors_body_entry (errs : list (string * list string)) (f : string)
    (codes : list string) :
  (f, codes) ∈ errs →
  ∃ kvs, errors_body errs = VObj kvs
         ∧ (f, VList (VErrorDetail <$> codes)) ∈ kvs.
Proof.
  intros Hin. eexists. split; [reflexivity|].
  apply list_elem_of_fmap. by exists (f, codes).
Qed.

(** Sorting by descending key puts a row with the largest key first. *)
Lemma order_by_desc_id_snoc (l : list Recipe) (r : Recipe) :
  NoDup (id <$> l) → Forall (λ x, id x < id r) l →
  order_by_desc Z.le id (l ++ [r]) = r :: order_by_desc Z.le id l.
Proof.
  intros Hnodup Hlt. rewrite Forall_forall in Hlt.
  assert (Transitive (λ a b : Recipe, id b ≤ id a)) as Htrans.
  { intros a b c ??. lia. }
  apply (Sorted_unique_strong (λ a b : Recipe, id b ≤ id a)).
  - intros x1 x2 Hx1 Hx2 H12 H21.
    apply elem_of_order_by_desc in Hx1.
    assert (x2 ∈ l ++ [r]) as Hx2'.
    { apply elem_of_cons in Hx2 as [->|Hx2].
      - apply elem_of_app. right. left.
      - apply elem_of_app. left. by apply elem_of_order_by_desc in Hx2. }
    apply (pk_unique_eq (M:=Recipe) (l ++ [r])); [|done..|simpl; lia].
    rewrite fmap_app. apply NoDup_app. split; [done|].
    split; [|apply NoDup_singleton].
    intros k (x & -> & Hx)%list_elem_of_fmap. simpl.
    rewrite list_elem_of_singleton. specialize (Hlt x Hx). simpl in *. lia.
  - apply (order_by_desc_Sorted Z.le id).
  - apply Sorted_cons; [apply (order_by_desc_Sorted Z.le id)|].
    destruct (order_by_desc Z.le id l) as [|x l'] eqn:Hsorted;
      constructor.
    assert (x ∈ l) as Hx.
    { apply (elem_of_order_by_desc Z.le id). rewrite Hsorted. left. }
    specialize (Hlt x Hx). simpl in *. lia.
  - rewrite !order_by_desc_Permutation. by rewrite Permutation_app_comm.
Qed.

(** ** Requests of one user and the rows of another *)

Section isolation_facts.
Context {M : Type} `{!Model M}.

(** Replacing the row of key [pk m] does not change the rows selected by
    [P] when neither the replaced rows nor [m] are selected. *)
Lemma filter_replace (P : M → Prop) `{!∀ x, Decision (P x)} (m : M)
    (l : list M) :
  ¬ P m → (∀ x, x ∈ l → pk x = pk m → ¬ P x) →
  filter P ((λ x, if decide (pk x = pk m) then m else x) <$> l)
  = filter P l.
Proof.
  intros Hm Hl. induction l as [|x l IH]; [done|].
  rewrite fmap_cons, !filter_cons.
  rewrite IH by (intros y Hy; apply Hl; by right).
  destruct (decide (pk x = pk m)) as [Heq|Hne]; [|done].
  rewrite decide_False by done.
  rewrite decide_False; [done|]. apply Hl; [left|done].
Qed.

Lemma filter_remove (P : M → Prop) `{!∀ x, Decision (P x)} (k : Z)
    (l : list M) :
  (∀ x, x ∈ l → pk x = k → ¬ P x) →
  filter P (filter (λ x, pk x ≠ k) l) = filter P l.
Proof.
  intros Hl. induction l as [|x l IH]; [done|].
  rewrite !filter_cons.
  specialize (IH (λ y Hy, Hl y (list_elem_of_further _ _ _ Hy))).
  destruct (decide (pk x ≠ k)) as [Hne|Heq].
  - rewrite filter_cons. by rewrite IH.
  - rewrite IH. rewrite decide_False; [done|].
    apply Hl; [left|]. by destruct (decide (pk x = k)).
Qed.

(** With unique keys the rows of key [pk x] are [x] alone. *)
Lemma same_key_same_owner (l : list M) (x y : M) :
  NoDup (pk <$> l) → x ∈ l → y ∈ l → pk y = pk x → owner y = owner x.
Proof.
  intros Hunique Hx Hy Hpk. f_equal.
  by apply (pk_unique_eq l).
Qed.
End isolation_facts.

(** What a recipe action run for caller [a] does to the store, with the
    owner of every row it writes. *)
Lemma recipe_handlers_effect_owned (name : string)
    (h : View → DB → Response * DB) (self : View) (db : DB) (a : Z) :
  serializer_class self = RecipeDetailSerializer →
  auth (request self) = Some a →
  handler RecipeViewSet.cls name = Some h →
  (h self db).2 = db
  ∨ (∃ r, user r = a ∧ id r = recipe_id_seq db
          ∧ (h self db).2
            = bump_recipe_id_seq (set_recipe_table (λ t, t ++ [r]) db))
  ∨ (∃ inst r', inst ∈ recipe_table db ∧ user inst = a
                ∧ id r' = id inst ∧ user r' = a
                ∧ (h self db).2 = Recipe_replace r' db)
  ∨ (∃ inst, inst ∈ recipe_table db ∧ user inst = a
             ∧ (h self db).2 = Recipe_delete inst db).
Proof.
  intros Hs Hauth Hh. apply handler_mixin in Hh; [|done].
  assert (∀ partial,
    (UpdateModelMixin_update RecipeViewSet.cls partial self db).2 = db
    ∨ (∃ inst r', inst ∈ recipe_table db ∧ user inst = a
                  ∧ id r' = id inst ∧ user r' = a
                  ∧ (UpdateModelMixin_update RecipeViewSet.cls partial self
                       db).2 = Recipe_replace r' db)) as Hupdate.
  { intros partial. unfold UpdateModelMixin_update.
    destruct (get_object RecipeViewSet.cls self db) as [inst|] eqn:Hget;
      [|by left].
    apply (get_object_Some _ RecipeViewSet_scoped) in Hget as (Hin & Hown & _).
    rewrite Hauth in Hown. simpl in Hown, Hin.
    change (cls_get_serializer_class RecipeViewSet.cls self)
      with (RecipeViewSet.get_serializer_class self).
    destruct (recipe_serializer_choice self Hs) as [_ Hchoice].
    destruct (RecipeViewSet.get_serializer_class self) as [self' s].
    simpl in Hchoice.
    destruct (is_valid s partial (data (request self'))) as [vd|] eqn:Hvalid;
      [|by left].
    destruct (save_instance inst vd db) as [[m db']|] eqn:Hsave; [|by left].
    apply save_instance_Some in Hsave as [-> [-> _]%Recipe_save_Some].
    right. exists inst, (init_kwargs vd inst).
    split; [done|]. split; [congruence|]. split; [|split; [|done]].
    - apply (init_kwargs_frame id ["id"]); [apply Recipe_setattr_id|].
      intros k Hk. by eapply recipe_validated_keys.
    - transitivity (user inst); [|congruence].
      apply (init_kwargs_frame user ["user"]); [apply Recipe_setattr_user|].
      intros k Hk. by eapply recipe_validated_keys. }
  destruct Hh as [->|[->|[->|[->|[->| ->]]]]].
  - left. unfold ListModelMixin_list. by destruct (cls_get_serializer_class _ _).
  - unfold CreateModelMixin_create.
    change (cls_get_serializer_class RecipeViewSet.cls self)
      with (RecipeViewSet.get_serializer_class self).
    destruct (recipe_serializer_choice self Hs) as [Hreq Hchoice].
    destruct (RecipeViewSet.get_serializer_class self) as [self' s].
    simpl in Hreq, Hchoice.
    destruct (is_valid s false (data (request self'))) as [vd|errs] eqn:Hvalid;
      [|by left].
    simpl. unfold RecipeViewSet.perform_create. rewrite Hreq, Hauth.
    destruct (recipe_create_row vd a db) as [->|(r & -> & Hid & Huser & _)];
      [|by left|].
    { intros k Hk. by eapply recipe_validated_keys. }
    right. left. by exists r.
  - left. unfold RetrieveModelMixin_retrieve. destruct (get_object _ _ _);
      [by destruct (cls_get_serializer_class _ _)|done].
  - destruct (Hupdate false) as [?|?]; auto.
  - destruct (Hupdate true) as [?|?]; auto.
  - unfold DestroyModelMixin_destroy.
    destruct (get_object RecipeViewSet.cls self db) as [inst|] eqn:Hget;
      [|by left].
    apply (get_object_Some _ RecipeViewSet_scoped) in Hget as (Hin & Hown & _).
    rewrite Hauth in Hown. simpl in Hown, Hin.
    right. right. right. exists inst. split; [done|]. split; [congruence|done].
Qed.

Section attr_effect_owned.
Context {M : Type} `{!Model M} (nm : M → string) (s : Serializer).
Hypothesis writable_name : writable_fields s = ["name"].
Hypothesis setattr_pk :
  ∀ f v (x : M), f ∉ ["id"] → pk (setattr f v x) = pk x.
Hypothesis setattr_owner :
  ∀ f v (x : M), f ∉ ["user"] → owner (setattr f v x) = owner x.

(** What a tag or ingredient action run for caller [a] does to the
    store, with the owner of every row it writes. *)
Lemma attr_handlers_effect_owned (name : string)
    (h : View → DB → Response * DB) (self : View) (db : DB) (a : Z) :
  serializer_class self = s →
  auth (request self) = Some a →
  handler (BaseRecipeAttrViewSet.cls nm s) name = Some h →
  (h self db).2 = db
  ∨ (∃ inst m', inst ∈ objects_all db ∧ owner inst = a
                ∧ pk m' = pk inst ∧ owner m' = a
                ∧ save m' db = Some (h self db).2)
  ∨ (∃ inst, inst ∈ objects_all db ∧ owner inst = a
             ∧ (h self db).2 = delete inst db).
Proof.
  intros Hs Hauth Hh.
  assert (∀ partial,
    (UpdateModelMixin_update (BaseRecipeAttrViewSet.cls nm s) partial self
       db).2 = db
    ∨ (∃ inst m', inst ∈ objects_all db ∧ owner inst = a
                  ∧ pk m' = pk inst ∧ owner m' = a
                  ∧ save m' db
                    = Some (UpdateModelMixin_update
                              (BaseRecipeAttrViewSet.cls nm s) partial self
                              db).2)) as Hupdate.
  { intros partial. unfold UpdateModelMixin_update.
    destruct (get_object _ self db) as [inst|] eqn:Hget; [|by left].
    apply (get_object_Some _ (BaseRecipeAttrViewSet_scoped nm s)) in Hget
      as (Hin & Hown & _).
    rewrite Hauth in Hown. simpl. rewrite Hs.
    destruct (is_valid s partial (data (request self))) as [vd|] eqn:Hvalid;
      [|by left].
    assert (∀ k, k ∈ keys vd → k = "name") as Hkeys.
    { intros k Hk.
      destruct (is_valid_keys s partial _ vd k Hvalid Hk) as [Hfield Hro].
      assert (k ∈ writable_fields s) as Hw
        by (unfold writable_fields; by apply list_elem_of_filter).
      rewrite writable_name in Hw. by apply list_elem_of_singleton in Hw. }
    destruct (save_instance inst vd db) as [[m db']|] eqn:Hsave; [|by left].
    apply save_instance_Some in Hsave as [-> Hsave].
    right. exists inst, (init_kwargs vd inst).
    split; [done|]. split; [congruence|]. split; [|split; [|done]].
    - apply (init_kwargs_frame pk ["id"]); [apply setattr_pk|].
      intros k ->%Hkeys. by rewrite list_elem_of_singleton.
    - transitivity (owner inst); [|congruence].
      apply (init_kwargs_frame owner ["user"]); [apply setattr_owner|].
      intros k ->%Hkeys. by rewrite list_elem_of_singleton. }
  unfold handler in Hh. simpl in Hh.
  destruct (decide _) as [Hname|]; [|done].
  unfold BaseRecipeAttrViewSet.action_methods in Hname.
  unfold mixin_method in Hh.
  repeat (apply elem_of_cons in Hname as [->|Hname];
          [repeat case_decide; try done; simplify_eq|]);
    [..|by apply elem_of_nil in Hname].
  - destruct (Hupdate false) as [?|?]; auto.
  - destruct (Hupdate true) as [?|?]; auto.
  - by left.
  - unfold DestroyModelMixin_destroy.
    destruct (get_object _ self db) as [inst|] eqn:Hget; [|by left].
    apply (get_object_Some _ (BaseRecipeAttrViewSet_scoped nm _)) in Hget
      as (Hin & Hown & _).
    rewrite Hauth in Hown.
    right. right. exists inst. split; [done|]. split; [congruence|done].
Qed.
End attr_effect_owned.

Lemma Tag_setattr_pk (f : string) (v : value) (t : Tag) :
  f ∉ ["id"] → pk (setattr f v t) = pk t.
Proof.
  rewrite list_elem_of_singleton. intros Hf. simpl. unfold Tag_setattr.
  destruct v; repeat case_decide; done.
Qed.

Lemma Tag_setattr_owner (f : string) (v : value) (t : Tag) :
  f ∉ ["user"] → owner (setattr f v t) = owner t.
Proof.
  rewrite list_elem_of_singleton. intros Hf. simpl. unfold Tag_setattr.
  destruct v; repeat case_decide; done.
Qed.

Lemma Ingredient_setattr_pk (f : string) (v : value) (i : Ingredient) :
  f ∉ ["id"] → pk (setattr f v i) = pk i.
Proof.
  rewrite list_elem_of_singleton. intros Hf. simpl. unfold Ingredient_setattr.
  destruct v; repeat case_decide; done.
Qed.

Lemma Ingredient_setattr_owner (f : string) (v : value) (i : Ingredient) :
  f ∉ ["user"] → owner (setattr f v i) = owner i.
Proof.
  rewrite list_elem_of_singleton. intros Hf. simpl. unfold Ingredient_setattr.
  destruct v; repeat case_decide; done.
Qed.

Lemma recipes_request_effect_owned (req : Request) (db : DB) (a : Z) :
  auth req = Some a → path_prefix (url req) = "recipes" →
  (handle req db).2 = db
  ∨ (∃ r, user r = a ∧ id r = recipe_id_seq db
          ∧ (handle req db).2
            = bump_recipe_id_seq (set_recipe_table (λ t, t ++ [r]) db))
  ∨ (∃ inst r', inst ∈ recipe_table db ∧ user inst = a
                ∧ id r' = id inst ∧ user r' = a
                ∧ (handle req db).2 = Recipe_replace r' db)
  ∨ (∃ inst, inst ∈ recipe_table db ∧ user inst = a
             ∧ (handle req db).2 = Recipe_delete inst db).
Proof.
  intros Hauth Hp. unfold handle. rewrite Hp. simpl.
  destruct (dispatch_cases RecipeViewSet.cls req db)
    as [(code & b & _ & ->)|(name & h & _ & Hh & ->)]; [by left|].
  by apply (recipe_handlers_effect_owned name).
Qed.

Lemma tags_request_effect_owned (req : Request) (db : DB) (a : Z) :
  auth req = Some a → path_prefix (url req) = "tags" →
  (handle req db).2 = db
  ∨ (∃ inst t', inst ∈ tag_table db ∧ tag_user inst = a
                ∧ tag_id t' = tag_id inst ∧ tag_user t' = a
                ∧ (handle req db).2 = Tag_replace t' db)
  ∨ (∃ inst, inst ∈ tag_table db ∧ tag_user inst = a
             ∧ (handle req db).2 = Tag_delete inst db).
Proof.
  intros Hauth Hp. unfold handle. rewrite Hp. simpl.
  destruct (dispatch_cases TagViewSet req db)
    as [(code & b & _ & ->)|(name & h & _ & Hh & ->)]; [by left|].
  destruct (attr_handlers_effect_owned tag_name TagSerializer
              writable_TagSerializer Tag_setattr_pk Tag_setattr_owner name h
              (as_view TagViewSet req) db a)
    as [?|[(inst & t' & ? & ? & ? & ? & ->%Tag_save_Some)|?]]; eauto 10.
Qed.

Lemma ingredients_request_effect_owned (req : Request) (db : DB) (a : Z) :
  auth req = Some a → path_prefix (url req) = "ingredients" →
  (handle req db).2 = db
  ∨ (∃ inst i', inst ∈ ingredient_table db ∧ ingredient_user inst = a
                ∧ ingredient_id i' = ingredient_id inst
                ∧ ingredient_user i' = a
                ∧ (handle req db).2 = Ingredient_replace i' db)
  ∨ (∃ inst, inst ∈ ingredient_table db ∧ ingredient_user inst = a
             ∧ (handle req db).2 = Ingredient_delete inst db).
Proof.
  intros Hauth Hp. unfold handle. rewrite Hp. simpl.
  destruct (dispatch_cases IngredientViewSet req db)
    as [(code & b & _ & ->)|(name & h & _ & Hh & ->)]; [by left|].
  destruct (attr_handlers_effect_owned ingredient_name IngredientSerializer
              writable_IngredientSerializer Ingredient_setattr_pk
              Ingredient_setattr_owner name h (as_view IngredientViewSet req)
              db a)
    as [?|[(inst & i' & ? & ? & ? & ? & ->%Ingredient_save_Some)|?]];
    eauto 10.
Qed.

(** A request that is routed to none of the three view sets writes
    nothing. *)
Lemma unrouted_request_effect (req : Request) (db : DB) :
  path_prefix (url req) ∉ ["recipes"; "tags"; "ingredients"] →
  (handle req db).2 = db.
Proof.
  rewrite !not_elem_of_cons. intros (? & ? & ? & _). unfold handle.
  by repeat case_decide.
Qed.

(** The answer to a GET of caller [b] is read off the rows of [b]. *)
Lemma reads_depend_on_own_rows (db1 db2 : DB) (b : Z) (p : path)
    (q : list (string * string)) (d : gmap string value) :
  filter (λ r, user r = b) (recipe_table db1)
  = filter (λ r, user r = b) (recipe_table db2) →
  filter (λ t, tag_user t = b) (tag_table db1)
  = filter (λ t, tag_user t = b) (tag_table db2) →
  filter (λ i, ingredient_user i = b) (ingredient_table db1)
  = filter (λ i, ingredient_user i = b) (ingredient_table db2) →
  (handle (http GET p (Some b) q d) db1).1
  = (handle (http GET p (Some b) q d) db2).1.
Proof.
  intros Hr Ht Hi.
  assert (∀ db, filter (λ t, Some (tag_user t) = Some b) (tag_table db)
                = filter (λ t, tag_user t = b) (tag_table db)) as Htag.
  { intros db. apply list_filter_iff. intros t. split; congruence. }
  assert (∀ db, filter (λ i, Some (ingredient_user i) = Some b)
                  (ingredient_table db)
                = filter (λ i, ingredient_user i = b) (ingredient_table db))
    as Hing.
  { intros db. apply list_filter_iff. intros i. split; congruence. }
  destruct (decide (path_prefix p = "recipes")) as [Hp|Hnr];
    [|destruct (decide (path_prefix p = "tags")) as [Hp|Hnt];
      [|destruct (decide (path_prefix p = "ingredients")) as [Hp|Hni]]].
  - destruct p as [s|s k|s k n]; simpl in Hp; subst s; [| |done].
    + rewrite !recipes_list_routed. simpl. by rewrite !filter_owner, Hr.
    + rewrite !recipes_detail_routed.
      unfold RetrieveModelMixin_retrieve, get_object. simpl.
      unfold RecipeViewSet.get_queryset. simpl.
      rewrite !filter_owner, Hr. by destruct (head _).
  - destruct p as [s|s k|s k n]; simpl in Hp; subst s; [|done..].
    rewrite !tags_list_routed. simpl. by rewrite !Htag, Ht.
  - destruct p as [s|s k|s k n]; simpl in Hp; subst s; [|done..].
    rewrite !ingredients_list_routed. simpl. by rewrite !Hing, Hi.
  - unfold handle. simpl. by rewrite !decide_False.
Qed.

(** ** The URL configuration *)

Lemma resolve_app (sub : url_target → string → bool)
    (l1 l2 : list url_pattern) (p : string) :
  resolve sub (l1 ++ l2) p
  = match resolve sub l1 p with
    | Some hit => Some hit
    | None => resolve sub l2 p
    end.
Proof.
  induction l1 as [|pat l1 IH]; [done|]. simpl.
  destruct (strip_prefix (route pat) p) as [tail|]; [|done].
  destruct (is_include pat).
  - by destruct (sub (target pat) tail).
  - by destruct (decide (tail = "")).
Qed.



(** * The claims of the specification *)

(** C1: on the store of [test_filter_recipe_by_tags] the list request with
    [tags=1, 2] (and the one with [ingredients=1, 2]) answers with all three
    recipes of the caller: [get_queryset] does not read the query string,
    and the recipe with no tag and no ingredient is not excluded. *)
Theorem C1_filter_parameters_are_not_applied :
  let summary r := VObj (to_representation RecipeSerializer r) in
  let everything :=
    {| status_code := HTTP_200_OK;
       body := VList [summary Scenario.r3; summary Scenario.r2;
                      summary Scenario.r1] |} in
  (handle (http GET (Collection "recipes") (Some Scenario.api_user)
             [("tags", "1, 2")] ∅) Scenario.filter_db).1 = everything
  ∧ (handle (http GET (Collection "recipes") (Some Scenario.api_user)
               [("ingredients", "1, 2")] ∅) Scenario.filter_db).1 = everything
  ∧ (∀ t, (id Scenario.r3, t) ∉ recipe_tags Scenario.filter_db)
  ∧ (∀ i, (id Scenario.r3, i) ∉ recipe_ingredients Scenario.filter_db).
Proof.
  repeat split; try (vm_compute; reflexivity);
    intros x; simpl; rewrite !not_elem_of_cons;
    (repeat split; [intros [= ? ?]; lia..|apply not_elem_of_nil]).
Qed.

(** C2: a retrieve, update, partial update or delete by a user who does not
    own the recipe answers 404 and leaves the store as it was. *)
Theorem C2_other_users_recipe_is_not_found (db : DB) (r : Recipe) (b : Z)
    (m : http_method) (q : list (string * string)) (d : gmap string value) :
  pk_unique (M:=Recipe) db →
  r ∈ recipe_table db →
  user r ≠ b →
  m ∈ [GET; PUT; PATCH; DELETE] →
  handle (http m (Detail "recipes" (id r)) (Some b) q d) db
  = ({| status_code := HTTP_404_NOT_FOUND; body := NotFound |}, db).
Proof.
  intros Hunique Hr Hother Hm. rewrite recipes_detail_routed.
  assert (∀ name,
    get_object RecipeViewSet.cls
      (detail_view (http m (Detail "recipes" (id r)) (Some b) q d) name
         (id r) RecipeDetailSerializer) db = None) as Hnone.
  { intros name.
    apply (get_object_not_owned _ RecipeViewSet_scoped _ _ r); [done..| |done].
    simpl. congruence. }
  destruct m; simpl;
    unfold RetrieveModelMixin_retrieve, UpdateModelMixin_update,
      DestroyModelMixin_destroy; rewrite ?Hnone; try done.
  revert Hm. rewrite !elem_of_cons, elem_of_nil.
  intros [?|[?|[?|[?|[]]]]]; discriminate.
Qed.

Lemma C2_witness :
  handle (http DELETE (Detail "recipes" 1) (Some Scenario.api_user) [] ∅)
    Scenario.others_db
  = ({| status_code := HTTP_404_NOT_FOUND; body := NotFound |},
     Scenario.others_db).
Proof.
  apply (C2_other_users_recipe_is_not_found Scenario.others_db
           Scenario.others_recipe Scenario.api_user DELETE [] ∅).
  - unfold pk_unique. simpl. apply NoDup_singleton.
  - simpl. left.
  - simpl. unfold Scenario.test_user, Scenario.api_user. lia.
  - by_compute.
Defined.

(** C3: the list operation returns exactly the caller's recipes, by
    descending id, whatever recipes other users own. *)
Theorem C3_list_owned_by_descending_id (u : Z) (q : list (string * string))
    (d : gmap string value) (db : DB) :
  ∃ rs : list Recipe,
    handle (http GET (Collection "recipes") (Some u) q d) db
    = ({| status_code := HTTP_200_OK;
          body := VList ((λ r, VObj (to_representation RecipeSerializer r))
                           <$> rs) |}, db)
    ∧ rs ≡ₚ filter (λ r, user r = u) (recipe_table db)
    ∧ (∀ r, r ∈ rs ↔ r ∈ recipe_table db ∧ user r = u)
    ∧ Sorted (λ a b, id b ≤ id a) rs
    ∧ ∀ others : list Recipe,
        Forall (λ r, user r ≠ u) others →
        handle (http GET (Collection "recipes") (Some u) q d)
          (set_recipe_table (λ t, t ++ others) db)
        = ({| status_code := HTTP_200_OK;
              body := VList ((λ r, VObj (to_representation RecipeSerializer r))
                               <$> rs) |},
           set_recipe_table (λ t, t ++ others) db).
Proof.
  exists (order_by_desc Z.le id (filter (λ r, user r = u) (recipe_table db))).
  split; [|split; [|split; [|split]]].
  - rewrite recipes_list_routed, filter_owner. done.
  - apply order_by_desc_Permutation.
  - intros r. rewrite elem_of_order_by_desc, list_elem_of_filter. tauto.
  - apply (order_by_desc_Sorted Z.le id).
  - intros others Hothers. rewrite recipes_list_routed. simpl.
    rewrite filter_owner, filter_app.
    assert (filter (λ r, user r = u) others = []) as ->; [|by rewrite app_nil_r].
    induction Hothers as [|r l Hr _ IH]; [done|].
    rewrite filter_cons. by destruct (decide (user r = u)).
Qed.

(** C4: the owner of a recipe is the caller who created it and no request
    changes it.  A row that was there keeps its owner; a new row belongs to
    the caller of the create that made it; a [user] key in the payload of
    any request changes neither the answer nor the store; along every run
    from the empty store each recipe was made by a create of its owner.
    A create does make the row: when it is answered 201 the table is the
    old one with one row more, under the issued key and owned by the
    caller, and a create with an acceptable payload is answered 201
    whatever [user] the payload names.  An update by the owner with an
    acceptable payload that names another [user] is answered 200 and the
    row still belongs to the owner. *)
Theorem C4_owner_is_the_creator_and_is_kept (req : Request) (db : DB) :
  db_ok db →
  (∀ r r', r ∈ recipe_table db → r' ∈ recipe_table (handle req db).2 →
     id r' = id r → user r' = user r)
  ∧ (∀ r', r' ∈ recipe_table (handle req db).2 →
       (∀ r, r ∈ recipe_table db → id r ≠ id r') →
       auth req = Some (user r')
       ∧ status_code (handle req db).1 = HTTP_201_CREATED)
  ∧ (∀ v, handle (with_data (insert "user" v) req) db = handle req db)
  ∧ (∀ reqs r, r ∈ recipe_table (run reqs empty_db) →
       (id r, user r) ∈ creates reqs empty_db)
  ∧ (∀ u q d,
       let out := handle (http POST (Collection "recipes") (Some u) q d) db in
       status_code out.1 = HTTP_201_CREATED →
       ∃ r, recipe_table out.2 = recipe_table db ++ [r]
            ∧ id r = recipe_id_seq db ∧ user r = u)
  ∧ (∀ u q d v,
       acceptable (M:=Recipe) RecipeDetailSerializer false d →
       minutes_fit d 0 →
       status_code
         (handle (http POST (Collection "recipes") (Some u) q
                    (<["user" := v]> d)) db).1
       = HTTP_201_CREATED)
  ∧ (∀ r m q d v,
       r ∈ recipe_table db → m ∈ [PUT; PATCH] →
       acceptable (M:=Recipe) RecipeDetailSerializer (bool_decide (m = PATCH))
         d →
       minutes_fit d (time_minutes r) →
       let out :=
         handle (http m (Detail "recipes" (id r)) (Some (user r)) q
                   (<["user" := v]> d)) db in
       status_code out.1 = HTTP_200_OK
       ∧ ∃ r', r' ∈ recipe_table out.2 ∧ id r' = id r ∧ user r' = user r).
Proof.
  intros [Hunique Hissued Htags Hingredients].
  assert (∀ m p a q d v,
            handle (http m p a q (<["user" := v]> d)) db
            = handle (http m p a q d) db) as Huser.
  { intros m p a q d v.
    apply (payload_key_ignored "user" v (http m p a q d)).
    unfold payload_fields.
    rewrite !not_elem_of_cons. repeat split; try done. apply not_elem_of_nil. }
  split; [|split; [|split; [|split; [|split; [|split]]]]].
  - intros r r' Hr Hr' Hid.
    destruct (handle_recipe_rows req db r' Hr')
      as [(r0 & Hr0 & Hid0 & Huser0 & _)|(Hnew & _)].
    + rewrite <- Huser0. f_equal.
      apply (pk_unique_eq (recipe_table db)); [done..|]. simpl. congruence.
    + rewrite Forall_forall in Hissued. specialize (Hissued r Hr). simpl in *.
      lia.
  - intros r' Hr' Hfresh.
    destruct (handle_recipe_rows req db r' Hr')
      as [(r0 & Hr0 & Hid0 & _)|(_ & Hauth & Hstatus)]; [|done].
    by destruct (Hfresh r0 Hr0).
  - intros v. apply payload_key_ignored. unfold payload_fields.
    rewrite !not_elem_of_cons. repeat split; try done. apply not_elem_of_nil.
  - intros reqs r Hr.
    destruct (run_owner_is_creator reqs empty_db r Hr)
      as [(r0 & Hr0 & _)|Hlog]; [|done].
    simpl in Hr0. by apply elem_of_nil in Hr0.
  - intros u q d. cbv zeta. intros Hstatus.
    destruct (recipe_create_cases u q d db)
      as [(errs & Hbad)|[Hbad|(r & Hcreate & Hid & Hu & _)]];
      [rewrite Hbad in Hstatus; discriminate Hstatus..|].
    exists r. by rewrite Hcreate.
  - intros u q d v Hok Hfit. rewrite Huser.
    destruct (recipe_create_acceptable db u q d Hok)
      as (r & Hcreate & _ & _ & _ & Hfields).
    rewrite Hcreate, (minutes_fit_row d 0 r); [done..|].
    apply (Hfields "time_minutes"). by_compute.
  - intros r m q d v Hr Hm Hok Hfit. cbv zeta. rewrite Huser.
    destruct (recipe_update_acceptable db r m q d Hunique Hr Hm Hok)
      as (r' & Hupdate & Hid & Hu & _ & Hfields).
    rewrite Hupdate, (minutes_fit_row d (time_minutes r) r');
      [|done|apply (Hfields "time_minutes"); by_compute].
    split; [done|]. exists r'. split; [|done]. simpl.
    apply list_elem_of_fmap. exists r. split; [|done].
    by rewrite decide_True.
Qed.

(** The create of [test_create_recipe], with another [user] and an [id] in
    its payload, on a store where the caller has a recipe: the new row is
    the caller's, under the issued key, and the row that was there is
    still the caller's. *)
Lemma C4_witness :
  let req := http POST (Collection "recipes") (Some Scenario.api_user) []
               Scenario.create_payload in
  (∃ r, recipe_table (handle req Scenario.tagged_db).2
        = [Scenario.recipe; r]
        ∧ id r = 2 ∧ user r = Scenario.api_user)
  ∧ (∀ r', r' ∈ recipe_table (handle req Scenario.tagged_db).2 →
       id r' = 1 → user r' = Scenario.api_user).
Proof.
  destruct (C4_owner_is_the_creator_and_is_kept
              (http POST (Collection "recipes") (Some Scenario.api_user) []
                 Scenario.create_payload) Scenario.tagged_db)
    as (Hkept & _ & _ & _ & Hmade & _).
  - split; unfold pk_unique; simpl; by_compute.
  - split.
    + apply (Hmade Scenario.api_user [] Scenario.create_payload).
      vm_compute. reflexivity.
    + intros r' Hr' Hid.
      apply (Hkept Scenario.recipe r'); [left|exact Hr'|exact Hid].
Defined.

(** The create of [test_create_recipe] with [user] and [id] keys added to
    the payload: the row belongs to the caller and carries the issued key. *)
Example create_ignores_user_and_id :
  handle (http POST (Collection "recipes") (Some Scenario.api_user) []
            Scenario.create_payload) empty_db
  = ({| status_code := HTTP_201_CREATED;
        body := VObj [("id", VInt 1);
                      ("title", VStr "New Sample Recipe Title");
                      ("time_minutes", VInt 77); ("price", VDec 1825);
                      ("link", VStr "");
                      ("description",
                       VStr "Creating a sample recipe description")] |},
     {| recipe_table :=
          [{| id := 1; user := Scenario.api_user;
              title := "New Sample Recipe Title"; time_minutes := 77;
              price := 1825; link := "";
              description := "Creating a sample recipe description";
              image := None |}];
        tag_table := []; ingredient_table := [];
        recipe_tags := []; recipe_ingredients := [];
        recipe_id_seq := 2; tag_id_seq := 1; ingredient_id_seq := 1 |}).
Proof. vm_compute. reflexivity. Qed.

(** C5: the serializer has no [tags] and no [ingredients] field, so no
    create of a recipe writes a tag, an ingredient or an association row.
    On the store of [test_create_recipe_with_existing_tags] the create with
    both keys in the payload answers 201 and makes the recipe, the existing
    tag is not attached and the new names are not created. *)
Theorem C5_inline_tags_are_dropped_on_create :
  (∀ a q d db,
     let db' := (handle (http POST (Collection "recipes") a q d) db).2 in
     tag_table db' = tag_table db
     ∧ ingredient_table db' = ingredient_table db
     ∧ recipe_tags db' = recipe_tags db
     ∧ recipe_ingredients db' = recipe_ingredients db)
  ∧ let out :=
      handle (http POST (Collection "recipes") (Some Scenario.api_user) []
                Scenario.existing_payload) Scenario.existing_db in
    status_code out.1 = HTTP_201_CREATED
    ∧ id <$> recipe_table out.2 = [1]
    ∧ recipe_tags out.2 = []
    ∧ recipe_ingredients out.2 = []
    ∧ tag_table out.2 = [Scenario.tag_indian]
    ∧ ingredient_table out.2 = [Scenario.ingredient_indian].
Proof.
  split.
  - intros a q d db. apply recipe_write_attaches_nothing. by left.
  - vm_compute. repeat split.
Qed.

(** C6: no update and no partial update of a recipe writes an association
    row.  On the store of [test_clear_recipe_tags] the partial update with
    [tags: []] and [ingredients: []] answers 200 and leaves both association
    tables, and the whole store, as they were. *)
Theorem C6_associations_are_not_replaced_on_update :
  (∀ m k a q d db, m ∈ [PUT; PATCH] →
     let db' := (handle (http m (Detail "recipes" k) a q d) db).2 in
     recipe_tags db' = recipe_tags db
     ∧ recipe_ingredients db' = recipe_ingredients db)
  ∧ let out :=
      handle (http PATCH (Detail "recipes" 1) (Some Scenario.api_user) []
                Scenario.clear_payload) Scenario.tagged_db in
    status_code out.1 = HTTP_200_OK
    ∧ recipe_tags out.2 = [(1, 1)]
    ∧ recipe_ingredients out.2 = [(1, 1)]
    ∧ out.2 = Scenario.tagged_db.
Proof.
  split.
  - intros m k a q d db Hm.
    destruct (recipe_write_attaches_nothing m (Detail "recipes" k) a q d db)
      as (_ & _ & Htags & Hingredients); [right; eauto|done].
  - vm_compute. repeat split.
Qed.

(** C7: the recipe view set has no upload action, so the upload URL is not
    routed: whatever the method, the caller and the payload, the answer is
    404 and the store is unchanged; a valid image is not answered 201 and a
    payload that is not an image is not answered 400. *)
Theorem C7_upload_image_is_not_routed (m : http_method) (k : Z)
    (a : option Z) (q : list (string * string)) (d : gmap string value)
    (db : DB) :
  handle (http m (Extra "recipes" k "upload-image") a q d) db
  = ({| status_code := HTTP_404_NOT_FOUND; body := VNull |}, db)
  ∧ handle (http POST (Extra "recipes" 1 "upload-image")
              (Some Scenario.api_user) [] Scenario.image_payload)
      Scenario.tagged_db
    = ({| status_code := HTTP_404_NOT_FOUND; body := VNull |},
       Scenario.tagged_db)
  ∧ handle (http POST (Extra "recipes" 1 "upload-image")
              (Some Scenario.api_user) [] Scenario.not_image_payload)
      Scenario.tagged_db
    = ({| status_code := HTTP_404_NOT_FOUND; body := VNull |},
       Scenario.tagged_db).
Proof. repeat split. Qed.

(** C8: a list item has exactly the fields id, title, time_minutes, price
    and link, a detail item those and description; the id is read-only: an
    [id] key in a payload changes nothing, and every stored identity is one
    that was there or the one the sequence issued. *)
Theorem C8_summary_and_detail_fields (r : Recipe) :
  to_representation RecipeSerializer r
  = [("id", VInt (id r)); ("title", VStr (title r));
     ("time_minutes", VInt (time_minutes r)); ("price", VDec (price r));
     ("link", VStr (link r))]
  ∧ keys (to_representation RecipeSerializer r)
    = ["id"; "title"; "time_minutes"; "price"; "link"]
  ∧ to_representation RecipeDetailSerializer r
    = to_representation RecipeSerializer r
      ++ [("description", VStr (description r))]
  ∧ keys (to_representation RecipeDetailSerializer r)
    = keys (to_representation RecipeSerializer r) ++ ["description"]
  ∧ ("id" ∉ writable_fields RecipeSerializer)
  ∧ ("id" ∉ writable_fields RecipeDetailSerializer)
  ∧ (∀ req db v, handle (with_data (insert "id" v) req) db = handle req db)
  ∧ (∀ req db r', r' ∈ recipe_table (handle req db).2 →
       (∃ r0, r0 ∈ recipe_table db ∧ id r0 = id r')
       ∨ id r' = recipe_id_seq db).
Proof.
  repeat split; try reflexivity.
  - rewrite writable_RecipeSerializer, !not_elem_of_cons.
    repeat split; try done. apply not_elem_of_nil.
  - rewrite writable_RecipeDetailSerializer, !not_elem_of_cons.
    repeat split; try done. apply not_elem_of_nil.
  - intros req db v. apply payload_key_ignored. unfold payload_fields.
    rewrite !not_elem_of_cons. repeat split; try done. apply not_elem_of_nil.
  - intros req db r' Hr'.
    destruct (handle_recipe_rows req db r' Hr')
      as [(r0 & Hr0 & Hid0 & _)|(Hnew & _)]; [left; by exists r0|by right].
Qed.

Lemma C8_witness :
  to_representation RecipeSerializer Scenario.recipe
  = [("id", VInt 1); ("title", VStr "Sample recipe title");
     ("time_minutes", VInt 22); ("price", VDec 525);
     ("link", VStr "http://example.com/recipe.pdf")].
Proof.
  exact (proj1 (C8_summary_and_detail_fields Scenario.recipe)).
Defined.

(** The detail URL of an attribute does not retrieve it. *)
Lemma C9_counterexample :
  Scenario.tag_indian ∈ tag_table Scenario.existing_db
  ∧ Scenario.ingredient_indian ∈ ingredient_table Scenario.existing_db
  ∧ ¬ supports_retrieve "tags" TagSerializer Scenario.existing_db
        Scenario.tag_indian
  ∧ ¬ supports_retrieve "ingredients" IngredientSerializer
        Scenario.existing_db Scenario.ingredient_indian
  ∧ (handle (http GET (Detail "tags" 1) (Some Scenario.api_user) [] ∅)
       Scenario.existing_db).1
    = {| status_code := HTTP_405_METHOD_NOT_ALLOWED;
         body := MethodNotAllowed |}
  ∧ (handle (http GET (Detail "ingredients" 1) (Some Scenario.api_user) [] ∅)
       Scenario.existing_db).1
    = {| status_code := HTTP_405_METHOD_NOT_ALLOWED;
         body := MethodNotAllowed |}.
Proof.
  split; [left|]. split; [left|].
  split; [|split; [|split; reflexivity]].
  - intros Hget. specialize (Hget [] ∅). vm_compute in Hget. discriminate Hget.
  - intros Hget. specialize (Hget [] ∅). vm_compute in Hget. discriminate Hget.
Qed.

(** C9 (as amended): for a tag or an ingredient of the caller the detail
    URL supports PUT and PATCH (rename) and DELETE, answers 404 to another
    user and 401 without credentials, and does not support GET: a GET of a
    single entity is answered 405.  A rename stores the name with the white
    space around it trimmed and changes that row alone; it is refused with
    400 when the trimmed name is empty, longer than 255 characters or holds
    a null character.  A delete removes the row and its association rows
    and nothing else. *)
Theorem C9_attr_detail_update_delete_no_retrieve (db : DB) :
  db_ok db →
  (∀ t, t ∈ tag_table db →
     attr_detail_contract "tags" rename_tag recipe_tags tag_rest db t)
  ∧ (∀ i, i ∈ ingredient_table db →
       attr_detail_contract "ingredients" rename_ingredient
         recipe_ingredients ingredient_rest db i).
Proof.
  intros [_ _ Htags Hingredients]. split.
  - intros t Ht q. cbv zeta.
    change (pk t) with (tag_id t). change (owner t) with (tag_user t).
    split; [|split; [|split; [|split]]].
    + intros n d m Hm.
      assert (handle (http m (Detail "tags" (tag_id t)) (Some (tag_user t)) q
                        (<["name" := VStr n]> d)) db
              = match CharField_text (Some 255%nat) false n with
                | inl v =>
                    ({| status_code := HTTP_200_OK;
                        body := VObj (to_representation TagSerializer
                                        (setattr "name" v t)) |},
                     Tag_replace (setattr "name" v t) db)
                | inr codes =>
                    ({| status_code := HTTP_400_BAD_REQUEST;
                        body := errors_body [("name", codes)] |}, db)
                end) as ->.
      { rewrite tags_detail_routed. rewrite !elem_of_cons, elem_of_nil in Hm.
        destruct Hm as [->|[->|[]]];
          by rewrite (tag_update_owned _ db t (VStr n))
            by (done || apply lookup_insert_eq). }
      split; [|split].
      * intros Hne Hlen Hnull.
        rewrite CharField_text_ok by (done || by apply bool_decide_eq_true_2).
        done.
      * intros Hblank. by rewrite CharField_text_blank.
      * intros Hbad.
        destruct (decide (strip isspace n = "")) as [Hblank|Hne];
          [by rewrite CharField_text_blank|].
        destruct (CharField_text_refused (Some 255%nat) false n Hne)
          as [codes ->]; [|done].
        destruct Hbad as [Hlong|Hnull]; [left|by right].
        apply bool_decide_eq_false. lia.
    + intros d. rewrite tags_detail_routed. unfold DestroyModelMixin_destroy.
      by rewrite (get_object_owned TagViewSet
                    (BaseRecipeAttrViewSet_scoped tag_name TagSerializer)
                    _ db t).
    + intros d. by rewrite tags_detail_routed.
    + intros b m d Hb Hm. rewrite tags_detail_routed.
      assert (∀ name,
        get_object TagViewSet
          (detail_view (http m (Detail "tags" (tag_id t)) (Some b) q d) name
             (tag_id t) TagSerializer) db = None) as Hnone.
      { intros name.
        apply (get_object_not_owned TagViewSet
                 (BaseRecipeAttrViewSet_scoped tag_name TagSerializer)
                 _ db t); [done..| |done].
        simpl. congruence. }
      rewrite !elem_of_cons, elem_of_nil in Hm.
      destruct Hm as [->|[->|[->|[]]]];
        unfold UpdateModelMixin_update, DestroyModelMixin_destroy;
        by rewrite Hnone.
    + intros m d. apply unauthenticated. right. left.
  - intros i Hi q. cbv zeta.
    change (pk i) with (ingredient_id i).
    change (owner i) with (ingredient_user i).
    split; [|split; [|split; [|split]]].
    + intros n d m Hm.
      assert (handle (http m (Detail "ingredients" (ingredient_id i))
                        (Some (ingredient_user i)) q
                        (<["name" := VStr n]> d)) db
              = match CharField_text (Some 255%nat) false n with
                | inl v =>
                    ({| status_code := HTTP_200_OK;
                        body := VObj (to_representation IngredientSerializer
                                        (setattr "name" v i)) |},
                     Ingredient_replace (setattr "name" v i) db)
                | inr codes =>
                    ({| status_code := HTTP_400_BAD_REQUEST;
                        body := errors_body [("name", codes)] |}, db)
                end) as ->.
      { rewrite ingredients_detail_routed.
        rewrite !elem_of_cons, elem_of_nil in Hm.
        destruct Hm as [->|[->|[]]];
          by rewrite (ingredient_update_owned _ db i (VStr n))
            by (done || apply lookup_insert_eq). }
      split; [|split].
      * intros Hne Hlen Hnull.
        rewrite CharField_text_ok by (done || by apply bool_decide_eq_true_2).
        done.
      * intros Hblank. by rewrite CharField_text_blank.
      * intros Hbad.
        destruct (decide (strip isspace n = "")) as [Hblank|Hne];
          [by rewrite CharField_text_blank|].
        destruct (CharField_text_refused (Some 255%nat) false n Hne)
          as [codes ->]; [|done].
        destruct Hbad as [Hlong|Hnull]; [left|by right].
        apply bool_decide_eq_false. lia.
    + intros d. rewrite ingredients_detail_routed.
      unfold DestroyModelMixin_destroy.
      by rewrite (get_object_owned IngredientViewSet
                    (BaseRecipeAttrViewSet_scoped ingredient_name
                       IngredientSerializer) _ db i).
    + intros d. by rewrite ingredients_detail_routed.
    + intros b m d Hb Hm. rewrite ingredients_detail_routed.
      assert (∀ name,
        get_object IngredientViewSet
          (detail_view
             (http m (Detail "ingredients" (ingredient_id i)) (Some b) q d)
             name (ingredient_id i) IngredientSerializer) db = None)
        as Hnone.
      { intros name.
        apply (get_object_not_owned IngredientViewSet
                 (BaseRecipeAttrViewSet_scoped ingredient_name
                    IngredientSerializer) _ db i); [done..| |done].
        simpl. congruence. }
      rewrite !elem_of_cons, elem_of_nil in Hm.
      destruct Hm as [->|[->|[->|[]]]];
        unfold UpdateModelMixin_update, DestroyModelMixin_destroy;
        by rewrite Hnone.
    + intros m d. apply unauthenticated. right. right. left.
Qed.

Lemma C9_witness :
  (∀ t, t ∈ tag_table Scenario.existing_db →
     attr_detail_contract "tags" rename_tag recipe_tags tag_rest
       Scenario.existing_db t)
  ∧ (∀ i, i ∈ ingredient_table Scenario.existing_db →
       attr_detail_contract "ingredients" rename_ingredient
         recipe_ingredients ingredient_rest Scenario.existing_db i).
Proof.
  apply (C9_attr_detail_update_delete_no_retrieve Scenario.existing_db).
  split; unfold pk_unique; simpl;
    first [apply NoDup_nil_2 | apply Forall_nil_2 | apply NoDup_singleton].
Defined.

(** The rename and the delete of [tag_indian] by its owner; a rename to a
    name with white space around it, and one to a blank name. *)
Example rename_tag_indian :
  handle (http PATCH (Detail "tags" 1) (Some Scenario.api_user) []
            {[ "name" := VStr "Thai" ]}) Scenario.existing_db
  = ({| status_code := HTTP_200_OK;
        body := VObj [("id", VInt 1); ("name", VStr "Thai")] |},
     set_tag_table (λ _, [rename_tag "Thai" Scenario.tag_indian])
       Scenario.existing_db).
Proof. vm_compute. reflexivity. Qed.

Example rename_tag_trimmed :
  handle (http PATCH (Detail "tags" 1) (Some Scenario.api_user) []
            {[ "name" := VStr " Thai " ]}) Scenario.existing_db
  = ({| status_code := HTTP_200_OK;
        body := VObj [("id", VInt 1); ("name", VStr "Thai")] |},
     set_tag_table (λ _, [rename_tag "Thai" Scenario.tag_indian])
       Scenario.existing_db).
Proof. vm_compute. reflexivity. Qed.

Example rename_tag_blank :
  handle (http PUT (Detail "tags" 1) (Some Scenario.api_user) []
            {[ "name" := VStr "   " ]}) Scenario.existing_db
  = ({| status_code := HTTP_400_BAD_REQUEST;
        body := VObj [("name", VList [VErrorDetail "blank"])] |},
     Scenario.existing_db).
Proof. vm_compute. reflexivity. Qed.

Example delete_tag_indian :
  handle (http DELETE (Detail "tags" 1) (Some Scenario.api_user) [] ∅)
    Scenario.existing_db
  = ({| status_code := HTTP_204_NO_CONTENT; body := VNull |},
     set_tag_table (λ _, []) Scenario.existing_db).
Proof. vm_compute. reflexivity. Qed.

(** C10: every action of the recipe view set but [list] uses the detail
    serializer and [list] alone the summary one, so the answers of create,
    retrieve, update and partial update carry [description] and list items
    never do. *)
Theorem C10_detail_serializer_unless_list (req : Request) (k : option Z)
    (a : string) :
  a ≠ "list" →
  (RecipeViewSet.get_serializer_class
     (view_of req (Some a) k (cls_serializer_class RecipeViewSet.cls))).2
  = RecipeDetailSerializer
  ∧ (RecipeViewSet.get_serializer_class
       (view_of req (Some "list") k (cls_serializer_class RecipeViewSet.cls))).2
    = RecipeSerializer
  ∧ (∀ r : Recipe,
       "description" ∈ keys (to_representation RecipeDetailSerializer r)
       ∧ ("description" ∉ keys (to_representation RecipeSerializer r)))
  ∧ (∀ u q d db, ∃ rs : list Recipe,
       (handle (http GET (Collection "recipes") (Some u) q d) db).1
       = {| status_code := HTTP_200_OK;
            body := VList ((λ r, VObj (to_representation RecipeSerializer r))
                             <$> rs) |})
  ∧ (∀ m p u q d db,
       (m = POST ∧ p = Collection "recipes")
       ∨ (m ∈ [GET; PUT; PATCH] ∧ ∃ i, p = Detail "recipes" i) →
       status_code (handle (http m p (Some u) q d) db).1 ∈
         [HTTP_200_OK; HTTP_201_CREATED] →
       ∃ r : Recipe,
         body (handle (http m p (Some u) q d) db).1
         = VObj (to_representation RecipeDetailSerializer r)).
Proof.
  intros Ha. split; [|split; [|split; [|split]]].
  - change (cls_serializer_class RecipeViewSet.cls) with RecipeDetailSerializer.
    by rewrite get_serializer_class_other.
  - reflexivity.
  - intros r. rewrite recipe_detail, recipe_summary. split.
    + unfold keys. rewrite fmap_app. apply elem_of_app. right. left.
    + unfold keys. simpl. rewrite !not_elem_of_cons.
      repeat split; try done. apply not_elem_of_nil.
  - intros u q d db. eexists. by rewrite recipes_list_routed.
  - apply recipe_detail_responses.
Qed.

Lemma C10_witness :
  (RecipeViewSet.get_serializer_class
     (view_of (http POST (Collection "recipes") (Some Scenario.api_user) []
                 Scenario.create_payload)
        (Some "create") None (cls_serializer_class RecipeViewSet.cls))).2
  = RecipeDetailSerializer.
Proof.
  refine (proj1 (C10_detail_serializer_unless_list _ None "create" _)).
  intros Heq. discriminate Heq.
Defined.

(** * Further properties of the views and the serializers *)

(** X1: the tag list and the ingredient list hold exactly the rows of the
    caller, by descending name, each shown as its id and name; the store is
    not changed. *)
Theorem attr_list_owned_by_descending_name (u : Z)
    (q : list (string * string)) (d : gmap string value) (db : DB) :
  (∃ ts : list Tag,
     handle (http GET (Collection "tags") (Some u) q d) db
     = ({| status_code := HTTP_200_OK;
           body := VList ((λ t, VObj [("id", VInt (tag_id t));
                                      ("name", VStr (tag_name t))]) <$> ts) |},
        db)
     ∧ ts ≡ₚ filter (λ t, tag_user t = u) (tag_table db)
     ∧ Sorted (λ a b, String.le (tag_name b) (tag_name a)) ts)
  ∧ (∃ gs : list Ingredient,
       handle (http GET (Collection "ingredients") (Some u) q d) db
       = ({| status_code := HTTP_200_OK;
             body := VList ((λ i, VObj [("id", VInt (ingredient_id i));
                                        ("name", VStr (ingredient_name i))])
                              <$> gs) |}, db)
       ∧ gs ≡ₚ filter (λ i, ingredient_user i = u) (ingredient_table db)
       ∧ Sorted (λ a b, String.le (ingredient_name b) (ingredient_name a)) gs).
Proof.
  split.
  - exists (order_by_desc String.le tag_name
              (filter (λ t, Some (tag_user t) = Some u) (tag_table db))).
    split; [by rewrite tags_list_routed|]. split.
    + rewrite order_by_desc_Permutation.
      erewrite list_filter_iff; [done|]. intros t. split; congruence.
    + apply (order_by_desc_Sorted String.le tag_name).
  - exists (order_by_desc String.le ingredient_name
              (filter (λ i, Some (ingredient_user i) = Some u)
                 (ingredient_table db))).
    split; [by rewrite ingredients_list_routed|]. split.
    + rewrite order_by_desc_Permutation.
      erewrite list_filter_iff; [done|]. intros i. split; congruence.
    + apply (order_by_desc_Sorted String.le ingredient_name).
Qed.

(** X2: a request without credentials changes nothing: it is answered 401
    with the detail of [NotAuthenticated], or, when its URL is not routed,
    with the 404 of Django; the list and detail URLs of the three view sets
    are routed, so they answer 401. *)
Theorem unauthenticated_request_is_refused (req : Request) (db : DB) :
  auth req = None →
  (handle req db
   = ({| status_code := HTTP_401_UNAUTHORIZED;
         body := VObj [("detail", VErrorDetail "not_authenticated")] |}, db)
   ∨ handle req db
     = ({| status_code := HTTP_404_NOT_FOUND; body := VNull |}, db))
  ∧ (path_prefix (url req) ∈ ["recipes"; "tags"; "ingredients"] →
     (∀ p k s, url req ≠ Extra p k s) →
     handle req db
     = ({| status_code := HTTP_401_UNAUTHORIZED;
           body := VObj [("detail", VErrorDetail "not_authenticated")] |},
        db)).
Proof.
  intros Hauth.
  assert (∀ {M : Type} `{!Model M} (cls : ViewSetClass M),
            cls_permission_classes cls = [IsAuthenticated] →
            dispatch cls req db
            = ({| status_code := HTTP_401_UNAUTHORIZED;
                  body := VObj [("detail", VErrorDetail "not_authenticated")]
               |}, db)
            ∨ dispatch cls req db
              = ({| status_code := HTTP_404_NOT_FOUND; body := VNull |}, db))
    as Hany.
  { intros M ? cls Hperm. rewrite dispatch_unauthenticated by done.
    destruct (bound_methods cls (url req)); auto. }
  split.
  - unfold handle. repeat case_decide; [by apply Hany..|by right].
  - intros Hprefix Hshape. unfold handle.
    rewrite !elem_of_cons, elem_of_nil in Hprefix.
    destruct Hprefix as [Hp|[Hp|[Hp|[]]]]; rewrite Hp; simpl;
      rewrite dispatch_unauthenticated by done;
      (destruct (url req) as [p|p k|p k s]; [done..|]);
      by destruct (Hshape p k s).
Qed.

Lemma unauthenticated_request_is_refused_witness :
  handle (http GET (Collection "recipes") None [] ∅) Scenario.filter_db
  = ({| status_code := HTTP_401_UNAUTHORIZED;
        body := VObj [("detail", VErrorDetail "not_authenticated")] |},
     Scenario.filter_db).
Proof.
  destruct (unauthenticated_request_is_refused
              (http GET (Collection "recipes") None [] ∅) Scenario.filter_db)
    as (_ & Hrouted); [reflexivity|].
  apply Hrouted.
  - simpl. left.
  - intros p k s. simpl. discriminate.
Defined.

(** X3: a GET never changes the store, and neither does a request that is
    not answered 200, 201 or 204: a validation error, a missing or foreign
    object, an unbound method or a missing token leave no trace. *)
Theorem reads_and_failures_do_not_write (req : Request) (db : DB) :
  method req = GET
  ∨ status_code (handle req db).1
    ∉ [HTTP_200_OK; HTTP_201_CREATED; HTTP_204_NO_CONTENT] →
  (handle req db).2 = db.
Proof.
  intros [Hget|Hfail].
  - unfold handle. repeat case_decide; [by apply dispatch_GET_same..|done].
  - revert Hfail. unfold handle. repeat case_decide; [| | |done].
    + destruct (dispatch_success_or_same RecipeViewSet.cls req db); done.
    + destruct (dispatch_success_or_same TagViewSet req db); done.
    + destruct (dispatch_success_or_same IngredientViewSet req db); done.
Qed.

Lemma reads_and_failures_do_not_write_witness :
  (handle (http PUT (Detail "recipes" 1) (Some Scenario.api_user) []
             Scenario.clear_payload) Scenario.tagged_db).2
  = Scenario.tagged_db.
Proof.
  apply reads_and_failures_do_not_write. right.
  rewrite !not_elem_of_cons.
  repeat split; [vm_compute; discriminate..|apply not_elem_of_nil].
Defined.

(** X4: a request to the tag or ingredient endpoints never creates an
    entity and writes no other table: the keys of both tables after the
    request are a sublist of the keys before, the recipes are untouched, a
    tag request leaves the ingredients alone and an ingredient request the
    tags, and a POST is refused without any change. *)
Theorem attr_endpoints_never_create (req : Request) (db : DB) :
  path_prefix (url req) ∈ ["tags"; "ingredients"] →
  tag_id <$> tag_table (handle req db).2 `sublist_of` tag_id <$> tag_table db
  ∧ ingredient_id <$> ingredient_table (handle req db).2
    `sublist_of` ingredient_id <$> ingredient_table db
  ∧ recipe_table (handle req db).2 = recipe_table db
  ∧ (path_prefix (url req) = "tags" →
     ingredient_table (handle req db).2 = ingredient_table db)
  ∧ (path_prefix (url req) = "ingredients" →
     tag_table (handle req db).2 = tag_table db)
  ∧ (method req = POST →
     (handle req db).2 = db
     ∧ status_code (handle req db).1
       ∈ [HTTP_401_UNAUTHORIZED; HTTP_404_NOT_FOUND;
          HTTP_405_METHOD_NOT_ALLOWED]).
Proof.
  intros Hprefix.
  assert ((handle req db).2 = db
          ∨ (∃ t, (handle req db).2 = Tag_replace t db)
          ∨ (∃ t, (handle req db).2 = Tag_delete t db)
          ∨ (∃ i, (handle req db).2 = Ingredient_replace i db)
          ∨ (∃ i, (handle req db).2 = Ingredient_delete i db)) as Heffect.
  { pose proof Hprefix as Hp. rewrite !elem_of_cons, elem_of_nil in Hp.
    destruct Hp as [Hp|[Hp|[]]].
    - destruct (tags_request_effect req db Hp) as [?|[?|?]]; auto.
    - destruct (ingredients_request_effect req db Hp) as [?|[?|?]]; auto 6. }
  assert (path_prefix (url req) = "tags" →
          (handle req db).2 = db
          ∨ (∃ t, (handle req db).2 = Tag_replace t db)
          ∨ (∃ t, (handle req db).2 = Tag_delete t db)) as Htags
    by apply tags_request_effect.
  assert (path_prefix (url req) = "ingredients" →
          (handle req db).2 = db
          ∨ (∃ i, (handle req db).2 = Ingredient_replace i db)
          ∨ (∃ i, (handle req db).2 = Ingredient_delete i db)) as Hingredients
    by apply ingredients_request_effect.
  split; [|split; [|split; [|split; [|split]]]].
  - destruct Heffect as [->|[(t & ->)|[(t & ->)|[(i & ->)|(i & ->)]]]];
      try done.
    + by rewrite Tag_replace_ids.
    + simpl. apply fmap_sublist, sublist_filter.
  - destruct Heffect as [->|[(t & ->)|[(t & ->)|[(i & ->)|(i & ->)]]]];
      try done.
    + by rewrite Ingredient_replace_ids.
    + simpl. apply fmap_sublist, sublist_filter.
  - by destruct Heffect as [->|[(t & ->)|[(t & ->)|[(i & ->)|(i & ->)]]]].
  - intros Hp. by destruct (Htags Hp) as [->|[(t & ->)|(t & ->)]].
  - intros Hp. by destruct (Hingredients Hp) as [->|[(i & ->)|(i & ->)]].
  - intros Hpost. destruct req as [m p a q d]. simpl in *. subst m.
    by apply attr_post_is_refused.
Qed.

Lemma attr_endpoints_never_create_witness :
  tag_id <$> tag_table
    (handle (http DELETE (Detail "tags" 1) (Some Scenario.api_user) [] ∅)
       Scenario.filter_db).2
  `sublist_of` tag_id <$> tag_table Scenario.filter_db.
Proof.
  refine (proj1 (attr_endpoints_never_create
                   (http DELETE (Detail "tags" 1) (Some Scenario.api_user)
                      [] ∅) Scenario.filter_db _)).
  simpl. left.
Defined.

(** X5: a GET of a recipe of the caller answers 200 with its detail
    representation; a GET of a key the key column can hold and under which
    the caller owns no recipe, whatever the store holds, answers 404 with
    the detail of [NotFound].  Neither changes the store. *)
Theorem owner_retrieves_own_recipe (db : DB) (q : list (string * string))
    (d : gmap string value) :
  (∀ r, pk_unique (M:=Recipe) db → r ∈ recipe_table db →
     handle (http GET (Detail "recipes" (id r)) (Some (user r)) q d) db
     = ({| status_code := HTTP_200_OK;
           body := VObj [("id", VInt (id r)); ("title", VStr (title r));
                         ("time_minutes", VInt (time_minutes r));
                         ("price", VDec (price r)); ("link", VStr (link r));
                         ("description", VStr (description r))] |}, db))
  ∧ (∀ k u,
       - 2 ^ 63 ≤ k < 2 ^ 63 →
       (∀ x, x ∈ recipe_table db → user x = u → id x ≠ k) →
       handle (http GET (Detail "recipes" k) (Some u) q d) db
       = ({| status_code := HTTP_404_NOT_FOUND;
             body := VObj [("detail", VErrorDetail "not_found")] |}, db)).
Proof.
  split.
  - intros r Hunique Hr. rewrite recipes_detail_routed.
    unfold RetrieveModelMixin_retrieve.
    by rewrite recipe_get_object_owned.
  - intros k u _ Hmissing. rewrite recipes_detail_routed.
    unfold RetrieveModelMixin_retrieve.
    rewrite recipe_get_object_missing; [done|].
    intros x Hx [= Hu]. by apply Hmissing.
Qed.

(** Recipe 2 of the filter tests, read by its owner; key 9, which nobody
    has; and any key on the empty store. *)
Lemma owner_retrieves_own_recipe_witness :
  handle (http GET (Detail "recipes" 2) (Some Scenario.api_user) [] ∅)
    Scenario.filter_db
  = ({| status_code := HTTP_200_OK;
        body := VObj [("id", VInt 2); ("title", VStr "Manchurian Dry");
                      ("time_minutes", VInt 22); ("price", VDec 525);
                      ("link", VStr "http://example.com/recipe.pdf");
                      ("description", VStr "Sample Description")] |},
     Scenario.filter_db)
  ∧ handle (http GET (Detail "recipes" 9) (Some Scenario.api_user) [] ∅)
      Scenario.filter_db
    = ({| status_code := HTTP_404_NOT_FOUND;
          body := VObj [("detail", VErrorDetail "not_found")] |},
       Scenario.filter_db)
  ∧ handle (http GET (Detail "recipes" 1) (Some Scenario.api_user) [] ∅)
      empty_db
    = ({| status_code := HTTP_404_NOT_FOUND;
          body := VObj [("detail", VErrorDetail "not_found")] |}, empty_db).
Proof.
  split; [|split].
  - refine (proj1 (owner_retrieves_own_recipe Scenario.filter_db [] ∅)
              Scenario.r2 _ _); by_compute.
  - refine (proj2 (owner_retrieves_own_recipe Scenario.filter_db [] ∅)
              9 Scenario.api_user ltac:(lia) _).
    intros x Hx _. simpl in Hx. rewrite !elem_of_cons, elem_of_nil in Hx.
    destruct Hx as [->|[->|[->|[]]]]; simpl; lia.
  - refine (proj2 (owner_retrieves_own_recipe empty_db [] ∅)
              1 Scenario.api_user ltac:(lia) _).
    intros x Hx. simpl in Hx. by apply elem_of_nil in Hx.
Defined.

(** X6: a DELETE of a recipe of the caller answers 204 and removes that
    row and no other; afterwards the key is not found and the recipe is not
    listed. *)
Theorem owner_deletes_own_recipe (db : DB) (r : Recipe)
    (q : list (string * string)) (d : gmap string value) :
  pk_unique (M:=Recipe) db → r ∈ recipe_table db →
  ∃ db',
    handle (http DELETE (Detail "recipes" (id r)) (Some (user r)) q d) db
    = ({| status_code := HTTP_204_NO_CONTENT; body := VNull |}, db')
    ∧ (∀ x, x ∈ recipe_table db' ↔ x ∈ recipe_table db ∧ x ≠ r)
    ∧ (∀ q' d',
         handle (http GET (Detail "recipes" (id r)) (Some (user r)) q' d') db'
         = ({| status_code := HTTP_404_NOT_FOUND; body := NotFound |}, db'))
    ∧ (∀ q' d' rs,
         (handle (http GET (Collection "recipes") (Some (user r)) q' d')
            db').1
         = {| status_code := HTTP_200_OK; body := VList rs |} →
         VObj (to_representation RecipeSerializer r) ∉ rs).
Proof.
  intros Hunique Hr. exists (Recipe_delete r db).
  assert (∀ x, x ∈ recipe_table (Recipe_delete r db)
               ↔ x ∈ recipe_table db ∧ x ≠ r) as Hrows.
  { intros x. simpl. rewrite list_elem_of_filter. split.
    - intros [Hid Hx]. split; [done|]. by intros ->.
    - intros [Hx Hne]. split; [|done]. intros Hid. apply Hne.
      by apply (pk_unique_eq (recipe_table db)). }
  split; [|split; [done|split]].
  - rewrite recipes_detail_routed. unfold DestroyModelMixin_destroy.
    by rewrite recipe_get_object_owned.
  - intros q' d'. rewrite recipes_detail_routed.
    unfold RetrieveModelMixin_retrieve.
    rewrite recipe_get_object_missing; [done|].
    intros x [Hid _]%list_elem_of_filter _. done.
  - intros q' d' rs. rewrite recipes_list_routed. simpl. intros [= <-].
    intros (x & Heq & Hx)%list_elem_of_fmap.
    apply elem_of_order_by_desc, list_elem_of_filter in Hx as [_ Hx].
    apply list_elem_of_filter in Hx as [Hid _].
    rewrite !recipe_summary in Heq. by simplify_eq.
Qed.

Lemma owner_deletes_own_recipe_witness :
  ∃ db',
    handle (http DELETE (Detail "recipes" 2) (Some Scenario.api_user) [] ∅)
      Scenario.filter_db
    = ({| status_code := HTTP_204_NO_CONTENT; body := VNull |}, db')
    ∧ ∀ x, x ∈ recipe_table db'
           ↔ x ∈ recipe_table Scenario.filter_db ∧ x ≠ Scenario.r2.
Proof.
  destruct (owner_deletes_own_recipe Scenario.filter_db Scenario.r2 [] ∅)
    as (db' & Hdelete & Hrows & _).
  - by_compute.
  - by_compute.
  - exists db'. split; [exact Hdelete|exact Hrows].
Defined.



(** X8: a payload that is refused at a writable field, because the field
    has a value that does not validate or because it is required and
    missing from a payload that is not partial, is a bad request: a create
    by any caller, on any store, and an update of a recipe by its owner
    are answered 400, the data of the answer name the field with the codes
    of its errors, and nothing is stored. *)
Theorem invalid_field_is_a_bad_request (db : DB)
    (q : list (string * string)) (d : gmap string value) (f : string)
    (codes : list string) :
  f ∈ writable_fields RecipeDetailSerializer →
  (∀ u, refused_at (M:=Recipe) false d f codes →
     ∃ kvs, (f, VList (VErrorDetail <$> codes)) ∈ kvs
       ∧ handle (http POST (Collection "recipes") (Some u) q d) db
         = ({| status_code := HTTP_400_BAD_REQUEST; body := VObj kvs |}, db))
  ∧ (∀ r m, pk_unique (M:=Recipe) db → r ∈ recipe_table db →
       m ∈ [PUT; PATCH] →
       refused_at (M:=Recipe) (bool_decide (m = PATCH)) d f codes →
       ∃ kvs, (f, VList (VErrorDetail <$> codes)) ∈ kvs
         ∧ handle (http m (Detail "recipes" (id r)) (Some (user r)) q d) db
           = ({| status_code := HTTP_400_BAD_REQUEST; body := VObj kvs |},
              db)).
Proof.
  intros Hf. split.
  - intros u Hbad.
    destruct (recipe_create_refused db u q d f codes Hf Hbad)
      as (errs & Hin & ->).
    destruct (errors_body_entry errs f codes Hin) as (kvs & -> & Hkvs).
    by exists kvs.
  - intros r m Hunique Hr Hm Hbad.
    destruct (recipe_update_refused db r m q d f codes Hunique Hr Hm Hf Hbad)
      as (errs & Hin & ->).
    destruct (errors_body_entry errs f codes Hin) as (kvs & -> & Hkvs).
    by exists kvs.
Qed.

(** A create with a blank title, and no minutes and no price, on the
    empty store. *)
Lemma invalid_field_is_a_bad_request_witness :
  handle (http POST (Collection "recipes") (Some Scenario.api_user) []
            {[ "title" := VStr "   " ]}) empty_db
  = ({| status_code := HTTP_400_BAD_REQUEST;
        body := VObj [("title", VList [VErrorDetail "blank"]);
                      ("time_minutes", VList [VErrorDetail "required"]);
                      ("price", VList [VErrorDetail "required"])] |},
     empty_db).
Proof.
  destruct (invalid_field_is_a_bad_request empty_db []
              {[ "title" := VStr "   " ]} "title" ["blank"])
    as [Hcreate _]; [by_compute|].
  destruct (Hcreate Scenario.api_user) as (kvs & _ & Hanswer).
  - split; reflexivity.
  - vm_compute. reflexivity.
Defined.

(** X9: a create that is answered 201 can be read back: the caller's GET
    of the key in the answer returns the same representation, and the
    caller's list is the old list with the new recipe put first. *)
Theorem create_then_retrieve_and_list (db : DB) (u : Z)
    (q : list (string * string)) (d : gmap string value) :
  db_ok db →
  status_code (handle (http POST (Collection "recipes") (Some u) q d) db).1
  = HTTP_201_CREATED →
  ∃ r db',
    handle (http POST (Collection "recipes") (Some u) q d) db
    = ({| status_code := HTTP_201_CREATED;
          body := VObj (to_representation RecipeDetailSerializer r) |}, db')
    ∧ id r = recipe_id_seq db ∧ user r = u
    ∧ recipe_table db' = recipe_table db ++ [r]
    ∧ (∀ q' d',
         handle (http GET (Detail "recipes" (id r)) (Some u) q' d') db'
         = ({| status_code := HTTP_200_OK;
               body := VObj (to_representation RecipeDetailSerializer r) |},
            db'))
    ∧ (∀ q' d' rs,
         (handle (http GET (Collection "recipes") (Some u) q' d') db).1
         = {| status_code := HTTP_200_OK; body := VList rs |} →
         (handle (http GET (Collection "recipes") (Some u) q' d') db').1
         = {| status_code := HTTP_200_OK;
              body := VList (VObj (to_representation RecipeSerializer r)
                             :: rs) |}).
Proof.
  intros Hok Hstatus.
  destruct (recipe_create_cases u q d db)
    as [(errs & Hbad)|[Hbad|(r & Hcreate & Hid & Huser & _)]];
    [rewrite Hbad in Hstatus; discriminate Hstatus..|].
  exists r, (bump_recipe_id_seq (set_recipe_table (λ t, t ++ [r]) db)).
  pose proof (db_ok_recipe_insert r db Hid Hok) as Hok'.
  destruct Hok as [Hunique Hissued _ _].
  split; [done|]. split; [done|]. split; [done|]. split; [done|]. split.
  - intros q' d'. destruct Hok' as [Hunique' _ _ _].
    rewrite recipes_detail_routed. unfold RetrieveModelMixin_retrieve.
    rewrite recipe_get_object_owned; [done|done| |by rewrite Huser].
    simpl. apply elem_of_app. right. left.
  - intros q' d' rs. rewrite !recipes_list_routed. simpl. intros [= <-].
    do 2 f_equal. rewrite filter_app, filter_cons, filter_nil.
    rewrite decide_True by (by rewrite Huser).
    rewrite order_by_desc_id_snoc; [done| |].
    + exact (NoDup_pk_filter (M:=Recipe) _ _ Hunique).
    + rewrite Forall_forall in Hissued. apply Forall_forall.
      intros x [_ Hx]%list_elem_of_filter. rewrite Hid. by apply Hissued.
Qed.

(** The create of [test_create_recipe] on the store of the filter tests. *)
Lemma create_then_retrieve_and_list_witness :
  ∃ r db',
    handle (http POST (Collection "recipes") (Some Scenario.api_user) []
              Scenario.create_payload) Scenario.filter_db
    = ({| status_code := HTTP_201_CREATED;
          body := VObj (to_representation RecipeDetailSerializer r) |}, db')
    ∧ id r = 4
    ∧ handle (http GET (Detail "recipes" (id r)) (Some Scenario.api_user)
                [] ∅) db'
      = ({| status_code := HTTP_200_OK;
            body := VObj (to_representation RecipeDetailSerializer r) |},
         db').
Proof.
  destruct (create_then_retrieve_and_list Scenario.filter_db
              Scenario.api_user [] Scenario.create_payload)
    as (r & db' & Hcreate & Hid & _ & _ & Hget & _).
  - split; unfold pk_unique; simpl; by_compute.
  - vm_compute. reflexivity.
  - exists r, db'. split; [exact Hcreate|]. split; [exact Hid|]. apply Hget.
Defined.



(** Minutes the column cannot hold, and a number sent as the title. *)
Example create_minutes_do_not_fit :
  handle (http POST (Collection "recipes") (Some Scenario.api_user) []
            (list_to_map
               [("title", VStr "Pizza");
                ("time_minutes", VInt 9223372036854775808);
                ("price", VStr "7.25")])) empty_db
  = ({| status_code := HTTP_500_INTERNAL_SERVER_ERROR; body := VNull |},
     empty_db).
Proof. vm_compute. reflexivity. Qed.

Example create_number_as_title :
  (handle (http POST (Collection "recipes") (Some Scenario.api_user) []
             (list_to_map
                [("title", VInt 5); ("time_minutes", VStr "7.0");
                 ("price", VInt 7)])) empty_db).1
  = {| status_code := HTTP_201_CREATED;
       body := VObj [("id", VInt 1); ("title", VStr "5");
                     ("time_minutes", VInt 7); ("price", VDec 700);
                     ("link", VStr ""); ("description", VStr "")] |}.
Proof. vm_compute. reflexivity. Qed.

(** X11: a request of user [a] leaves the recipes, tags and ingredients of
    every other user [b] as they were, row for row, so every GET of [b]
    is answered after the request as it was before. *)
Theorem other_users_rows_are_untouched (req : Request) (db : DB) (a b : Z) :
  db_ok db → auth req = Some a → a ≠ b →
  filter (λ r, user r = b) (recipe_table (handle req db).2)
  = filter (λ r, user r = b) (recipe_table db)
  ∧ filter (λ t, tag_user t = b) (tag_table (handle req db).2)
    = filter (λ t, tag_user t = b) (tag_table db)
  ∧ filter (λ i, ingredient_user i = b) (ingredient_table (handle req db).2)
    = filter (λ i, ingredient_user i = b) (ingredient_table db)
  ∧ ∀ p q d,
      (handle (http GET p (Some b) q d) (handle req db).2).1
      = (handle (http GET p (Some b) q d) db).1.
Proof.
  intros [Hrecipes _ Htags Hingredients] Hauth Hne.
  assert (filter (λ r, user r = b) (recipe_table (handle req db).2)
          = filter (λ r, user r = b) (recipe_table db)
          ∧ filter (λ t, tag_user t = b) (tag_table (handle req db).2)
            = filter (λ t, tag_user t = b) (tag_table db)
          ∧ filter (λ i, ingredient_user i = b)
              (ingredient_table (handle req db).2)
            = filter (λ i, ingredient_user i = b) (ingredient_table db))
    as (Hr & Ht & Hi).
  { destruct (decide (path_prefix (url req) = "recipes")) as [Hp|Hnr];
      [|destruct (decide (path_prefix (url req) = "tags")) as [Hp|Hnt];
        [|destruct (decide (path_prefix (url req) = "ingredients"))
            as [Hp|Hni]]].
    - destruct (recipes_request_effect_owned req db a Hauth Hp)
        as [->|[(r & Hu & _ & ->)|[(inst & r' & Hin & Hu & Hid & Hu' & ->)
           |(inst & Hin & Hu & ->)]]]; [done| | |]; (split; [|done]).
      + simpl. rewrite filter_app, filter_cons, filter_nil.
        rewrite decide_False by congruence. by rewrite app_nil_r.
      + refine (filter_replace (M:=Recipe) (λ r, user r = b) r'
                  (recipe_table db) _ _).
        * congruence.
        * intros x Hx Hpk.
          pose proof (same_key_same_owner (M:=Recipe) (recipe_table db) inst x) as Ho.
          simpl in *. intros Hb. apply Hne. rewrite <- Hu, <- Hb.
          symmetry. apply Ho; [done..|congruence].
      + refine (filter_remove (M:=Recipe) (λ r, user r = b) (id inst)
                  (recipe_table db) _).
        intros x Hx Hpk.
        pose proof (same_key_same_owner (M:=Recipe) (recipe_table db) inst x) as Ho.
        simpl in *. intros Hb. apply Hne. rewrite <- Hu, <- Hb.
        symmetry. by apply Ho.
    - destruct (tags_request_effect_owned req db a Hauth Hp)
        as [->|[(inst & t' & Hin & Hu & Hid & Hu' & ->)
           |(inst & Hin & Hu & ->)]]; [done| |];
        (split; [done|split; [|done]]).
      + refine (filter_replace (M:=Tag) (λ t, tag_user t = b) t'
                  (tag_table db) _ _).
        * congruence.
        * intros x Hx Hpk.
          pose proof (same_key_same_owner (M:=Tag) (tag_table db) inst x) as Ho.
          simpl in *. intros Hb. apply Hne. rewrite <- Hu, <- Hb.
          symmetry. apply Ho; [done..|congruence].
      + refine (filter_remove (M:=Tag) (λ t, tag_user t = b) (tag_id inst)
                  (tag_table db) _).
        intros x Hx Hpk.
        pose proof (same_key_same_owner (M:=Tag) (tag_table db) inst x) as Ho.
        simpl in *. intros Hb. apply Hne. rewrite <- Hu, <- Hb.
        symmetry. by apply Ho.
    - destruct (ingredients_request_effect_owned req db a Hauth Hp)
        as [->|[(inst & i' & Hin & Hu & Hid & Hu' & ->)
           |(inst & Hin & Hu & ->)]]; [done| |];
        (split; [done|split; [done|]]).
      + refine (filter_replace (M:=Ingredient)
                  (λ i, ingredient_user i = b) i' (ingredient_table db) _ _).
        * congruence.
        * intros x Hx Hpk.
          pose proof (same_key_same_owner (M:=Ingredient)
                        (ingredient_table db) inst x) as Ho.
          simpl in *. intros Hb. apply Hne. rewrite <- Hu, <- Hb.
          symmetry. apply Ho; [done..|congruence].
      + refine (filter_remove (M:=Ingredient)
                  (λ i, ingredient_user i = b) (ingredient_id inst)
                  (ingredient_table db) _).
        intros x Hx Hpk.
        pose proof (same_key_same_owner (M:=Ingredient)
                      (ingredient_table db) inst x) as Ho.
        simpl in *. intros Hb. apply Hne. rewrite <- Hu, <- Hb.
        symmetry. by apply Ho.
    - rewrite unrouted_request_effect; [done|].
      rewrite !not_elem_of_cons. repeat split; try done. apply not_elem_of_nil. }
  split; [done|]. split; [done|]. split; [done|].
  intros p q d. by apply reads_depend_on_own_rows.
Qed.

(** The delete of recipe 2 by its owner, seen by the other user. *)
Lemma other_users_rows_are_untouched_witness :
  (handle (http GET (Collection "recipes") (Some Scenario.test_user) [] ∅)
     (handle (http DELETE (Detail "recipes" 2) (Some Scenario.api_user)
                [] ∅) Scenario.filter_db).2).1
  = (handle (http GET (Collection "recipes") (Some Scenario.test_user) [] ∅)
       Scenario.filter_db).1.
Proof.
  refine (proj2 (proj2 (proj2
    (other_users_rows_are_untouched
       (http DELETE (Detail "recipes" 2) (Some Scenario.api_user) [] ∅)
       Scenario.filter_db Scenario.api_user Scenario.test_user _ _ _)))
    (Collection "recipes") [] ∅).
  - split; unfold pk_unique; simpl; by_compute.
  - reflexivity.
  - unfold Scenario.api_user, Scenario.test_user. lia.
Defined.

(** X12: the media patterns are appended in debug mode only and never take
    a URL from the patterns before them: whatever resolves in production
    resolves to the same target in debug mode, a URL served as a media file
    in debug mode is not resolved at all in production, and a URL under
    [recipe/] that the recipe configuration resolves goes to it in both
    modes. *)
Theorem debug_adds_media_and_shadows_nothing
    (sub : url_target → string → bool) (media : list url_pattern)
    (p : string) :
  (∀ hit, resolve sub (urlpatterns false media) p = Some hit →
          resolve sub (urlpatterns true media) p = Some hit)
  ∧ (resolve sub (urlpatterns false media) p = None →
     resolve sub (urlpatterns true media) p = resolve sub media p)
  ∧ (∀ DEBUG tail, sub IncludeRecipeUrls tail = true →
       resolve sub (urlpatterns DEBUG media) ("recipe/" +:+ tail)
       = Some (IncludeRecipeUrls, tail)).
Proof.
  assert (∀ DEBUG p',
    resolve sub (urlpatterns DEBUG media) p'
    = match resolve sub (urlpatterns false media) p' with
      | Some hit => Some hit
      | None => if DEBUG then resolve sub media p' else None
      end) as Hsplit.
  { intros DEBUG p'. unfold urlpatterns. rewrite !resolve_app.
    destruct DEBUG; by destruct (resolve sub _ p'). }
  split; [|split].
  - intros hit Hhit. by rewrite Hsplit, Hhit.
  - intros Hnone. by rewrite Hsplit, Hnone.
  - intros DEBUG tail Hsub. rewrite Hsplit.
    assert (resolve sub (urlpatterns false media) ("recipe/" +:+ tail)
            = Some (IncludeRecipeUrls, tail)) as ->; [|done].
    unfold urlpatterns. rewrite app_nil_r.
    vm_compute. by rewrite Hsub.
Qed.

(** X13: [get_serializer_class] writes its choice on the instance, so
    asking again gives the same class and the same instance; the request,
    the action and the URL key are kept.  After a call for [list] the
    instance holds [RecipeSerializer] and answers it for any action. *)
Theorem get_serializer_class_is_idempotent (self : View) :
  RecipeViewSet.get_serializer_class
    (RecipeViewSet.get_serializer_class self).1
  = RecipeViewSet.get_serializer_class self
  ∧ serializer_class (RecipeViewSet.get_serializer_class self).1
    = (RecipeViewSet.get_serializer_class self).2
  ∧ request (RecipeViewSet.get_serializer_class self).1 = request self
  ∧ action (RecipeViewSet.get_serializer_class self).1 = action self
  ∧ kwargs_pk (RecipeViewSet.get_serializer_class self).1 = kwargs_pk self
  ∧ (action self = Some "list" →
     ∀ a,
       (RecipeViewSet.get_serializer_class
          (view_of (request self) a (kwargs_pk self)
             (serializer_class
                (RecipeViewSet.get_serializer_class self).1))).2
       = RecipeSerializer).
Proof.
  unfold RecipeViewSet.get_serializer_class.
  destruct (decide (action self = Some "list")) as [Hlist|Hother]; simpl.
  - rewrite decide_True by done. repeat split; try done.
    intros _ a. by destruct (decide (a = Some "list")).
  - rewrite decide_False by done. repeat split; try done.
Qed.

Lemma get_serializer_class_is_idempotent_witness :
  (RecipeViewSet.get_serializer_class
     (view_of (http GET (Collection "recipes") (Some Scenario.api_user)
                 [] ∅) (Some "retrieve") None RecipeSerializer)).2
  = RecipeSerializer.
Proof.
  refine (proj2 (proj2 (proj2 (proj2 (proj2
    (get_serializer_class_is_idempotent
       (view_of (http GET (Collection "recipes") (Some Scenario.api_user)
                   [] ∅) (Some "list") None RecipeDetailSerializer)))))) _
    (Some "retrieve")).
  reflexivity.
Defined.

(** X14: the views read the payload at title, time_minutes, price, link,
    description and name, and at no other key: two requests with the same
    method, URL, caller and query string whose payloads agree on these six
    keys get the same answer and leave the same store. *)
Theorem payload_is_read_at_writable_fields_only (r1 r2 : Request) (db : DB) :
  method r1 = method r2 → url r1 = url r2 → auth r1 = auth r2 →
  query_params r1 = query_params r2 →
  (∀ f, f ∈ ["title"; "time_minutes"; "price"; "link"; "description"; "name"]
        → data r1 !! f = data r2 !! f) →
  handle r1 db = handle r2 db.
Proof. intros. by apply handle_same_call. Qed.

(** The partial update of [test_clear_recipe_tags], and the same request
    with an [id], a [user] and an [image] in the payload as well. *)
Lemma payload_is_read_at_writable_fields_only_witness :
  handle (http PATCH (Detail "recipes" 1) (Some Scenario.api_user) []
            (<["id" := VInt 7]> (<["user" := VInt Scenario.test_user]>
               (<["image" := VStr "x.jpg"]> Scenario.clear_payload))))
    Scenario.tagged_db
  = handle (http PATCH (Detail "recipes" 1) (Some Scenario.api_user) []
              Scenario.clear_payload) Scenario.tagged_db.
Proof.
  apply payload_is_read_at_writable_fields_only; try reflexivity.
  intros f Hf.
  repeat (apply elem_of_cons in Hf as [->|Hf]; [reflexivity|]).
  by apply elem_of_nil in Hf.
Defined.

(** X15: every store reached from the empty one by any sequence of
    requests has unique primary keys in its three tables and every recipe
    key below the sequence, which is what the statements about single
    objects assume. *)
Theorem reachable_stores_keep_unique_keys (reqs : list Request) :
  NoDup (id <$> recipe_table (run reqs empty_db))
  ∧ NoDup (tag_id <$> tag_table (run reqs empty_db))
  ∧ NoDup (ingredient_id <$> ingredient_table (run reqs empty_db))
  ∧ Forall (λ r, id r < recipe_id_seq (run reqs empty_db))
      (recipe_table (run reqs empty_db))
  ∧ db_ok (run reqs empty_db).
Proof.
  pose proof (run_db_ok reqs empty_db db_ok_empty_db) as Hok.
  destruct Hok as [Hr Hi Ht Hg] eqn:Heq. repeat split; done.
Qed.
